(** * Cajita's HYPRE structured-solver interface

    A shallow embedding of [cajita/src/Cajita_HypreStructuredSolver.hpp]:
    the solver base class, the seven concrete solver classes, their builders
    and the name-driven factory.

    HYPRE itself, Kokkos and MPI are external.  Every HYPRE entry point the
    header calls is recorded, with its arguments, in a log of calls; what
    HYPRE answers (return codes, the values it writes into a caller buffer,
    error descriptions) is supplied by a [HypreLibrary] the development is
    parametric in, together with the template parameters.  C++ exceptions
    are an explicit outcome, and the object under construction or receiving
    a method call is part of the state the computation threads.  An
    exception that leaves the body of a class's constructor unwinds through
    the destructor of the base class, as C++ has it.

    The tuning setters and the result getters of the base class and the
    destructors call entry points of their own, which are logged apart
    from the others; the setters that only one class has, each handing
    one value to HYPRE, are left out. *)

From stdpp Require Import base numbers option list strings pretty gmap.

Local Open Scope Z_scope.

(** ** C++ outcomes and integer conversions *)

Module Cpp.

(** The two standard exception classes the header throws, with the
    argument of [what()]. *)
Inductive exception : Type :=
  | logic_error (what : string)
  | runtime_error (what : string).

(** How a call ends: it returns, it throws, or it leaves the behaviour
    defined by the language (an indeterminate member is read, a null or
    dangling pointer is followed). *)
Inductive outcome (A : Type) : Type :=
  | Ok (a : A)
  | Throw (e : exception)
  | Undefined.
Global Arguments Ok {A} a.
Global Arguments Throw {A} e.
Global Arguments Undefined {A}.

(** Conversion to an unsigned, respectively signed two's complement,
    integer type of [w] bits. *)
Definition to_unsigned (w z : Z) : Z := z mod 2 ^ w.
Definition to_signed (w z : Z) : Z :=
  (z + 2 ^ (w - 1)) mod 2 ^ w - 2 ^ (w - 1).

(** [unsigned] and [int] on the platforms Cajita builds for, and the
    values an [int] holds. *)
Definition to_unsigned_int : Z → Z := to_unsigned 32.
Definition to_int : Z → Z := to_signed 32.
Definition is_int (z : Z) : Prop := - 2 ^ 31 ≤ z < 2 ^ 31.

(** A state monad with exceptions.  A throw keeps the state reached so
    far: what was assigned or logged before the throw stays so. *)
Definition M (St A : Type) : Type := St → outcome A * St.

Global Instance M_ret {St} : MRet (M St) := λ A a s, (Ok a, s).
Global Instance M_bind {St} : MBind (M St) := λ A B f m s,
  match m s with
  | (Ok a, s') => f a s'
  | (Throw e, s') => (Throw e, s')
  | (Undefined, s') => (Undefined, s')
  end.

Definition throw {St A} (e : exception) : M St A := λ s, (Throw e, s).
Definition undefined {St A} : M St A := λ s, (Undefined, s).
Definition gets {St A} (f : St → A) : M St A := λ s, (Ok (f s), s).
Definition modify {St} (f : St → St) : M St unit := λ s, (Ok tt, f s).

(** Reading a member that may not have been initialised yet. *)
Definition read {St A} (f : St → option A) : M St A := λ s,
  match f s with
  | Some a => (Ok a, s)
  | None => (Undefined, s)
  end.

(** [for ( d = first; d < first + count; ++d ) body( d )]. *)
Fixpoint for_loop_from {St} (first count : nat) (body : nat → M St unit)
    : M St unit :=
  match count with
  | O => mret tt
  | S count' => body first ;; for_loop_from (S first) count' body
  end.
Definition for_loop {St} (bound : nat) (body : nat → M St unit) : M St unit :=
  for_loop_from 0 bound body.

(** [for ( n = 0; n < size; ++n ) body( n, xs[n] )] over a vector. *)
Fixpoint for_each {St A} (body : nat → A → M St unit) (n : nat) (xs : list A)
    : M St unit :=
  match xs with
  | [] => mret tt
  | x :: xs' => body n x ;; for_each body (S n) xs'
  end.

End Cpp.
Import Cpp.

(** ** Cajita and Kokkos data the solver reads *)

(** Modelled from the spec: [Cajita_IndexSpace.hpp] is not among the
    sources.  An index space gives, per dimension, a first index [min] and a
    past-the-end index [max]; its extent is their difference. *)
Record IndexSpace : Type := {
  min : nat → Z;
  max : nat → Z;
}.
Definition extent (space : IndexSpace) (d : nat) : Z := max space d - min space d.

Definition MPI_Comm : Type := nat.

(** Modelled from the spec: [Cajita_GlobalGrid.hpp] is not among the
    sources.  Only what the solver asks of the global grid is kept; the
    entity type is the solver's [EntityType]. *)
Record GlobalGrid : Type := {
  comm : MPI_Comm;
  isPeriodic : nat → bool;
  globalNumEntity : nat → Z;
}.

(** Modelled from the spec: [Cajita_Array.hpp] is not among the sources.
    The index spaces of an array layout have [num_space_dim + 1] dimensions,
    the last one ranging over the degrees of freedom of an entity. *)
Record ArrayLayout : Type := {
  num_space_dim : nat;
  globalGrid : GlobalGrid;
  indexSpace_Own_Global : IndexSpace;
  indexSpace_Own_Local : IndexSpace;
  dofsPerEntity : Z;
}.

(** Kokkos memory spaces: host memory, or a memory the host cannot
    address. *)
Inductive memory_space : Type := HostSpace | DeviceSpace.

(** Modelled from the spec: [Cajita_Array.hpp] is not among the sources.
    An array is a layout and a Kokkos view of its values, in the memory
    space of the array's device type; the view is kept as the value stored
    at each multi-index [(i, j, k, l)]. *)
Record Array (T : Type) : Type := {
  layout : ArrayLayout;
  view : list Z → T;
}.
Global Arguments layout {T} a.
Global Arguments view {T} a idx.

(** ** The HYPRE interface *)

(** The seven solver classes derived from [HypreStructuredSolver]. *)
Inductive solver_class : Type :=
  | HypreStructPCG
  | HypreStructGMRES
  | HypreStructBiCGSTAB
  | HypreStructPFMG
  | HypreStructSMG
  | HypreStructJacobi
  | HypreStructDiagonal.

Global Instance solver_class_eq_dec : EqDecision solver_class.
Proof. solve_decision. Defined.

(** HYPRE's opaque handles ([HYPRE_StructGrid], [HYPRE_StructSolver], ...):
    a null pointer, or the object made by the library call with that
    position in the log. *)
Inductive handle : Type :=
  | nullptr
  | object (id : nat).

(** [HYPRE_PtrToStructSolverFcn]: the setup and solve entry points of the
    classes that have a HYPRE solver object, and those of diagonal
    scaling. *)
Inductive HYPRE_PtrToStructSolverFcn : Type :=
  | HYPRE_StructSetup (c : solver_class)
  | HYPRE_StructSolve (c : solver_class)
  | HYPRE_StructDiagScaleSetup
  | HYPRE_StructDiagScale.

(** The HYPRE entry points the header calls, with the arguments passed.
    Output parameters are not arguments.  [HYPRE_StructCreate c] stands for
    [HYPRE_StructPCGCreate], [HYPRE_StructGMRESCreate], ... according to
    [c], and likewise for the other per-class entry points. *)
Inductive hypre_call (V : Type) : Type :=
  | HYPRE_StructGridCreate (mpi_comm : MPI_Comm) (ndim : Z)
  | HYPRE_StructGridSetExtents (grid : handle) (ilower iupper : list Z)
  | HYPRE_StructGridSetPeriodic (grid : handle) (periodic : list Z)
  | HYPRE_StructGridAssemble (grid : handle)
  | HYPRE_StructVectorCreate (mpi_comm : MPI_Comm) (grid : handle)
  | HYPRE_StructVectorInitialize (vector : handle)
  | HYPRE_StructVectorSetBoxValues (vector : handle) (ilower iupper : list Z)
      (values : list V)
  | HYPRE_StructVectorAssemble (vector : handle)
  | HYPRE_StructVectorGetBoxValues (vector : handle) (ilower iupper : list Z)
  | HYPRE_StructStencilCreate (ndim size : Z)
  | HYPRE_StructStencilSetElement (stencil : handle) (entry : Z)
      (offset : list Z)
  | HYPRE_StructMatrixCreate (mpi_comm : MPI_Comm) (grid stencil : handle)
  | HYPRE_StructMatrixSetSymmetric (matrix : handle) (symmetric : bool)
  | HYPRE_StructMatrixInitialize (matrix : handle)
  | HYPRE_StructMatrixSetBoxValues (matrix : handle) (ilower iupper : list Z)
      (nentries : Z) (entries : list Z) (values : list V)
  | HYPRE_StructMatrixAssemble (matrix : handle)
  | HYPRE_DescribeError (ierr : Z)
  | HYPRE_ClearError (ierr : Z)
  | HYPRE_StructCreate (c : solver_class) (mpi_comm : MPI_Comm)
  | HYPRE_StructPCGSetTwoNorm (solver : handle) (two_norm : Z)
  | HYPRE_StructSetZeroGuess (c : solver_class) (solver : handle)
  | HYPRE_StructSetPrecond (c : solver_class) (solver : handle)
      (precond precond_setup : HYPRE_PtrToStructSolverFcn)
      (precond_solver : handle)
  | HYPRE_StructSetupCall (c : solver_class) (solver A b x : handle)
  | HYPRE_StructSolveCall (c : solver_class) (solver A b x : handle).

Global Arguments HYPRE_StructGridCreate {V}.
Global Arguments HYPRE_StructGridSetExtents {V}.
Global Arguments HYPRE_StructGridSetPeriodic {V}.
Global Arguments HYPRE_StructGridAssemble {V}.
Global Arguments HYPRE_StructVectorCreate {V}.
Global Arguments HYPRE_StructVectorInitialize {V}.
Global Arguments HYPRE_StructVectorSetBoxValues {V}.
Global Arguments HYPRE_StructVectorAssemble {V}.
Global Arguments HYPRE_StructVectorGetBoxValues {V}.
Global Arguments HYPRE_StructStencilCreate {V}.
Global Arguments HYPRE_StructStencilSetElement {V}.
Global Arguments HYPRE_StructMatrixCreate {V}.
Global Arguments HYPRE_StructMatrixSetSymmetric {V}.
Global Arguments HYPRE_StructMatrixInitialize {V}.
Global Arguments HYPRE_StructMatrixSetBoxValues {V}.
Global Arguments HYPRE_StructMatrixAssemble {V}.
Global Arguments HYPRE_DescribeError {V}.
Global Arguments HYPRE_ClearError {V}.
Global Arguments HYPRE_StructCreate {V}.
Global Arguments HYPRE_StructPCGSetTwoNorm {V}.
Global Arguments HYPRE_StructSetZeroGuess {V}.
Global Arguments HYPRE_StructSetPrecond {V}.
Global Arguments HYPRE_StructSetupCall {V}.
Global Arguments HYPRE_StructSolveCall {V}.

(** What the external library answers, given the calls made so far and the
    call being made: its return code, the values it writes into the buffer
    it is handed ([HYPRE_StructVectorGetBoxValues]) and the text
    [HYPRE_DescribeError] produces. *)
Record HypreLibrary (V : Type) : Type := {
  return_code : list (hypre_call V) → hypre_call V → Z;
  written_values : list (hypre_call V) → hypre_call V → list V;
  error_description : Z → string;
}.
Global Arguments return_code {V} h log c.
Global Arguments written_values {V} h log c.
Global Arguments error_description {V} h ierr.

(** The template parameters and external types of a solver instance:
    [Scalar] (with the conversions [Kokkos::deep_copy] applies between it
    and [HYPRE_Complex]), the memory space of [DeviceType], the width of
    [HYPRE_Int], and the HYPRE library linked in. *)
Record Platform : Type := {
  Scalar : Type;
  HYPRE_Complex : Type;
  to_HYPRE_Complex : Scalar → HYPRE_Complex;
  of_HYPRE_Complex : HYPRE_Complex → Scalar;
  Scalar_zero : Scalar;
  HYPRE_Complex_zero : HYPRE_Complex;
  device_memory_space : memory_space;
  HYPRE_Int_bits : Z;
  hypre : HypreLibrary HYPRE_Complex;
}.

(** ** The solver object *)

(** The data members of [HypreStructuredSolver] and, for the derived
    classes that have one, the member [_solver].  A member the constructor
    has not assigned is [None]; [_preconditioner] is a shared pointer, null
    ([None]) until [setPreconditioner] stores one. *)
#[warnings="-register-all"] Inductive solver : Type := Solver {
  dynamic_class : solver_class;
  _comm : MPI_Comm;
  _is_preconditioner : bool;
  _grid : option handle;
  _lower : list Z;
  _upper : list Z;
  _stencil : option handle;
  _stencil_size : option Z;
  _A : option handle;
  _b : option handle;
  _x : option handle;
  _preconditioner : option solver;
  _solver : option handle;
}.

Definition set__grid (v : option handle) (s : solver) : solver :=
  let 'Solver c m p _ lo up st sz a b x pc sv := s in
  Solver c m p v lo up st sz a b x pc sv.
Definition set__lower (v : list Z) (s : solver) : solver :=
  let 'Solver c m p g _ up st sz a b x pc sv := s in
  Solver c m p g v up st sz a b x pc sv.
Definition set__upper (v : list Z) (s : solver) : solver :=
  let 'Solver c m p g lo _ st sz a b x pc sv := s in
  Solver c m p g lo v st sz a b x pc sv.
Definition set__stencil (v : option handle) (s : solver) : solver :=
  let 'Solver c m p g lo up _ sz a b x pc sv := s in
  Solver c m p g lo up v sz a b x pc sv.
Definition set__stencil_size (v : option Z) (s : solver) : solver :=
  let 'Solver c m p g lo up st _ a b x pc sv := s in
  Solver c m p g lo up st v a b x pc sv.
Definition set__A (v : option handle) (s : solver) : solver :=
  let 'Solver c m p g lo up st sz _ b x pc sv := s in
  Solver c m p g lo up st sz v b x pc sv.
Definition set__b (v : option handle) (s : solver) : solver :=
  let 'Solver c m p g lo up st sz a _ x pc sv := s in
  Solver c m p g lo up st sz a v x pc sv.
Definition set__x (v : option handle) (s : solver) : solver :=
  let 'Solver c m p g lo up st sz a b _ pc sv := s in
  Solver c m p g lo up st sz a b v pc sv.
Definition set__preconditioner (v : option solver) (s : solver) : solver :=
  let 'Solver c m p g lo up st sz a b x _ sv := s in
  Solver c m p g lo up st sz a b x v sv.
Definition set__solver (v : option handle) (s : solver) : solver :=
  let 'Solver c m p g lo up st sz a b x pc _ := s in
  Solver c m p g lo up st sz a b x pc v.

(** The storage of an object whose constructor body has not run yet: the
    member initialisers have set [_comm] and [_is_preconditioner], the
    vectors are empty and the shared pointer is null. *)
Definition new_object (c : solver_class) (mpi_comm : MPI_Comm)
    (is_preconditioner : bool) : solver :=
  Solver c mpi_comm is_preconditioner None [] [] None None None None None
         None None.

(** ** State *)

(** What a call can observe and change outside the solver object: the log
    of calls into HYPRE, oldest first, and the arrays of the caller, by
    identity. *)
Record world (P : Platform) : Type := World {
  hypre_log : list (hypre_call (HYPRE_Complex P));
  arrays : gmap nat (Array (Scalar P));
}.
Global Arguments World {P} _ _.
Global Arguments hypre_log {P} w.
Global Arguments arrays {P} w.

(** The state of a constructor or member function: the object [this] points
    to, and the world. *)
Record state (P : Platform) : Type := State {
  this : solver;
  env : world P;
}.
Global Arguments State {P} _ _.
Global Arguments this {P} s.
Global Arguments env {P} s.

Definition member {P A} (f : solver → A) : M (state P) A :=
  gets (λ s, f (this s)).
Definition initialised {P A} (f : solver → option A) : M (state P) A :=
  read (λ s, f (this s)).
Definition assign {P} (f : solver → solver) : M (state P) unit :=
  modify (λ s, State (f (this s)) (env s)).

(** A call into HYPRE: it is appended to the log and the library's return
    code comes back. *)
Definition call_hypre {P} (c : hypre_call (HYPRE_Complex P))
    : M (state P) Z := λ s,
  let log := hypre_log (env s) in
  (Ok (return_code (hypre P) log c),
   State (this s) (World (log ++ [c]) (arrays (env s)))).

(** A call that also hands back a new HYPRE object through an output
    parameter. *)
Definition hypre_create {P} (c : hypre_call (HYPRE_Complex P))
    : M (state P) (Z * handle) := λ s,
  let log := hypre_log (env s) in
  (Ok (return_code (hypre P) log c, object (length log)),
   State (this s) (World (log ++ [c]) (arrays (env s)))).

(** A call that fills a caller buffer: the values the library writes
    replace the front of the buffer. *)
Definition fill_buffer {V} (written buffer : list V) : list V :=
  take (length buffer) (written ++ drop (length written) buffer).
Definition hypre_read {P} (c : hypre_call (HYPRE_Complex P))
    (buffer : list (HYPRE_Complex P))
    : M (state P) (Z * list (HYPRE_Complex P)) := λ s,
  let log := hypre_log (env s) in
  (Ok (return_code (hypre P) log c,
       fill_buffer (written_values (hypre P) log c) buffer),
   State (this s) (World (log ++ [c]) (arrays (env s)))).

(** [HypreStructuredSolver::checkHypreError].  Its parameter is a
    [const int]: the return code it is handed, a [HYPRE_Int], is converted
    to [int] on the way in, and it is the converted value that is tested,
    described, printed and cleared. *)
Definition checkHypreError {P} (code : Z) : M (state P) unit :=
  let error := to_int code in
  if bool_decide (error > 0) then
    call_hypre (HYPRE_DescribeError error) ;;
    let error_msg := error_description (hypre P) error in
    let out := "HYPRE structured solver error: " +:+ pretty error +:+ " "
                 +:+ error_msg in
    call_hypre (HYPRE_ClearError error) ;;
    throw (runtime_error out)
  else mret tt.

(** ** Layout-right host views *)

(** The multi-indices of a box with the given extents, in layout-right
    (row-major) order: the last index runs fastest. *)
Fixpoint enumerate_right (extents : list Z) : list (list Z) :=
  match extents with
  | [] => [[]]
  | e :: es => i ← seqZ 0 e; (λ idx, i :: idx) <$> enumerate_right es
  end.

(** The number of elements of such a box. *)
Fixpoint volume (extents : list Z) : Z :=
  match extents with
  | [] => 1
  | e :: es => Z.max 0 e * volume es
  end.

(** The position of a multi-index in the data of a layout-right view. *)
Fixpoint offset_right (extents idx : list Z) : Z :=
  match extents, idx with
  | _ :: es, i :: idx' => i * volume es + offset_right es idx'
  | _, _ => 0
  end.

(** Modelled from the spec: [Cajita_Array.hpp] ([createView]) is not among
    the sources.  The data, as [data()] exposes it, of a layout-right host
    view over the index space [0, extents) that holds [f idx] at [idx]. *)
Definition createView_LayoutRight {V} (extents : list Z) (f : list Z → V)
    : list V :=
  f <$> enumerate_right extents.

(** Whether a multi-index lies in the first [rank] dimensions of an index
    space, and the index relative to the space's first corner. *)
Definition in_space (space : IndexSpace) (rank : nat) (idx : list Z) : bool :=
  bool_decide (length idx = rank) &&
  forallb (λ d, bool_decide (min space d ≤ idx !!! d < max space d))
          (seq 0 rank).
Definition relative (space : IndexSpace) (idx : list Z) : list Z :=
  imap (λ d i, i - min space d) idx.
Definition absolute (space : IndexSpace) (idx : list Z) : list Z :=
  imap (λ d i, min space d + i) idx.

(** ** Constructors *)

Definition static_cast_HYPRE_Int (P : Platform) (z : Z) : Z :=
  to_signed (HYPRE_Int_bits P) z.

(** [std::vector::resize] on a vector of [HYPRE_Int]. *)
Definition resize (n : nat) (v : list Z) : list Z :=
  take n v ++ replicate (n - length v) 0.

(** The periodicity array of the constructor.  The local array starts
    indeterminate; every slot is assigned by the loop, so the placeholder
    it starts from here does not reach HYPRE. *)
Definition periodicity (layout : ArrayLayout) : list Z :=
  let num_space_dim := num_space_dim layout in
  let global_grid := globalGrid layout in
  foldl (λ periodic d,
           <[(num_space_dim - 1 - d)%nat :=
               if isPeriodic global_grid d
               then globalNumEntity (globalGrid layout) d
               else 0]> periodic)
        (replicate num_space_dim 0) (seq 0 num_space_dim).

(** Creating one of the two HYPRE vectors and setting it to zero. *)
Definition create_vector {P} (set : option handle → solver → solver)
    (vector_values : list (HYPRE_Complex P)) : M (state P) unit :=
  mpi_comm ← member _comm;
  grid ← initialised _grid;
  lower ← member _lower;
  upper ← member _upper;
  '(error, v) ← hypre_create (HYPRE_StructVectorCreate mpi_comm grid);
  assign (set (Some v)) ;;
  checkHypreError error ;;
  error ← call_hypre (HYPRE_StructVectorInitialize v);
  checkHypreError error ;;
  error ← call_hypre
    (HYPRE_StructVectorSetBoxValues v lower upper vector_values);
  checkHypreError error ;;
  error ← call_hypre (HYPRE_StructVectorAssemble v);
  checkHypreError error.

(** [HypreStructuredSolver::HypreStructuredSolver], the constructor body;
    the member initialisers are in [new_object]. *)
Definition HypreStructuredSolver_ctor {P} (layout : ArrayLayout)
    : M (state P) unit :=
  let num_space_dim := num_space_dim layout in
  is_preconditioner ← member _is_preconditioner;
  if negb is_preconditioner then
    mpi_comm ← member _comm;
    '(error, grid) ← hypre_create
      (HYPRE_StructGridCreate mpi_comm (Z.of_nat num_space_dim));
    assign (set__grid (Some grid)) ;;
    checkHypreError error ;;
    let global_space := indexSpace_Own_Global layout in
    assign (λ o, set__lower (resize num_space_dim (_lower o)) o) ;;
    assign (λ o, set__upper (resize num_space_dim (_upper o)) o) ;;
    for_loop num_space_dim (λ d,
      assign (λ o, set__lower
        (<[d := static_cast_HYPRE_Int P
                  (min global_space (num_space_dim - d - 1))]> (_lower o)) o) ;;
      assign (λ o, set__upper
        (<[d := static_cast_HYPRE_Int P
                  (max global_space (num_space_dim - d - 1) - 1)]> (_upper o))
        o)) ;;
    lower ← member _lower;
    upper ← member _upper;
    error ← call_hypre (HYPRE_StructGridSetExtents grid lower upper);
    checkHypreError error ;;
    error ← call_hypre (HYPRE_StructGridSetPeriodic grid (periodicity layout));
    checkHypreError error ;;
    error ← call_hypre (HYPRE_StructGridAssemble grid);
    checkHypreError error ;;
    let reorder_size := extent global_space <$> seq 0 num_space_dim in
    let vector_values :=
      createView_LayoutRight reorder_size (λ _, HYPRE_Complex_zero P) in
    create_vector set__b vector_values ;;
    create_vector set__x vector_values
  else mret tt.

(** The part common to the constructors of the classes that own a HYPRE
    solver object: [HYPRE_Struct...Create( comm, &_solver )]. *)
Definition create_solver {P} (c : solver_class) (layout : ArrayLayout)
    : M (state P) handle :=
  '(error, solver) ← hypre_create
    (HYPRE_StructCreate c (comm (globalGrid layout)));
  assign (set__solver (Some solver)) ;;
  checkHypreError error ;;
  mret solver.

(** The constructors of PCG, GMRES and BiCGSTAB: the constructor of the
    base class, then the body.  Here and below a constructor ends where an
    exception leaves it; what the unwinding does next is part of
    [make_shared_unwinding]. *)
Definition HypreStructPCG_ctor {P} (layout : ArrayLayout)
    (is_preconditioner : bool) : M (state P) unit :=
  HypreStructuredSolver_ctor layout ;;
  if (is_preconditioner : bool) then
    throw (logic_error "HYPRE PCG cannot be used as a preconditioner")
  else
    solver ← create_solver HypreStructPCG layout;
    call_hypre (HYPRE_StructPCGSetTwoNorm solver 1) ;;
    mret tt.

Definition HypreStructGMRES_ctor {P} (layout : ArrayLayout)
    (is_preconditioner : bool) : M (state P) unit :=
  HypreStructuredSolver_ctor layout ;;
  if (is_preconditioner : bool) then
    throw (logic_error "HYPRE GMRES cannot be used as a preconditioner")
  else
    create_solver HypreStructGMRES layout ;;
    mret tt.

Definition HypreStructBiCGSTAB_ctor {P} (layout : ArrayLayout)
    (is_preconditioner : bool) : M (state P) unit :=
  HypreStructuredSolver_ctor layout ;;
  if (is_preconditioner : bool) then
    throw (logic_error "HYPRE BiCGSTAB cannot be used as a preconditioner")
  else
    create_solver HypreStructBiCGSTAB layout ;;
    mret tt.

(** The constructors of PFMG, SMG and Jacobi, which differ in the HYPRE
    entry points only. *)
Definition multigrid_ctor {P} (c : solver_class) (layout : ArrayLayout)
    (is_preconditioner : bool) : M (state P) unit :=
  HypreStructuredSolver_ctor layout ;;
  solver ← create_solver c layout;
  if (is_preconditioner : bool) then
    error ← call_hypre (HYPRE_StructSetZeroGuess c solver);
    checkHypreError error
  else mret tt.

Definition HypreStructPFMG_ctor {P} := @multigrid_ctor P HypreStructPFMG.
Definition HypreStructSMG_ctor {P} := @multigrid_ctor P HypreStructSMG.
Definition HypreStructJacobi_ctor {P} := @multigrid_ctor P HypreStructJacobi.

Definition HypreStructDiagonal_ctor {P} (layout : ArrayLayout)
    (is_preconditioner : bool) : M (state P) unit :=
  HypreStructuredSolver_ctor layout ;;
  if negb is_preconditioner then
    throw (logic_error "Diagonal preconditioner cannot be used as a solver")
  else mret tt.

(** ** Destructors

    The destructors, like the tuning setters and the result getters
    further down, call HYPRE entry points of their own.  These calls are
    logged beside the calls above, in a log of their own, and HYPRE's
    answers to them come from a [TuningLibrary].  The answers of HYPRE to
    the calls above are a function of those calls alone: how tuning changes
    a later solve is not modelled. *)

(** The entry points, with the arguments passed;
    [HYPRE_StructSetTol c] stands for [HYPRE_StructPCGSetTol],
    [HYPRE_StructGMRESSetTol], ... according to [c], and likewise for the
    others with a class; [HYPRE_StructDestroy c] is
    [HYPRE_StructPCGDestroy], ... *)
Inductive other_call (R : Type) : Type :=
  | HYPRE_StructSetTol (c : solver_class) (solver : handle) (tol : R)
  | HYPRE_StructSetMaxIter (c : solver_class) (solver : handle) (max_iter : Z)
  | HYPRE_StructSetPrintLevel (c : solver_class) (solver : handle)
      (print_level : Z)
  | HYPRE_StructGetNumIterations (c : solver_class) (solver : handle)
  | HYPRE_StructGetFinalRelativeResidualNorm (c : solver_class)
      (solver : handle)
  | HYPRE_StructDestroy (c : solver_class) (solver : handle)
  | HYPRE_StructVectorDestroy (vector : handle)
  | HYPRE_StructMatrixDestroy (matrix : handle)
  | HYPRE_StructStencilDestroy (stencil : handle)
  | HYPRE_StructGridDestroy (grid : handle).
Global Arguments HYPRE_StructSetTol {R}.
Global Arguments HYPRE_StructSetMaxIter {R}.
Global Arguments HYPRE_StructSetPrintLevel {R}.
Global Arguments HYPRE_StructGetNumIterations {R}.
Global Arguments HYPRE_StructGetFinalRelativeResidualNorm {R}.
Global Arguments HYPRE_StructDestroy {R}.
Global Arguments HYPRE_StructVectorDestroy {R}.
Global Arguments HYPRE_StructMatrixDestroy {R}.
Global Arguments HYPRE_StructStencilDestroy {R}.
Global Arguments HYPRE_StructGridDestroy {R}.

(** [double] and [HYPRE_Real] with the conversions between them, and what
    HYPRE answers to one of these calls given the calls of both kinds made
    so far: its return code and what it writes through the output parameter
    of the two queries. *)
Record TuningLibrary (P : Platform) : Type := {
  double : Type;
  HYPRE_Real : Type;
  to_HYPRE_Real : double → HYPRE_Real;
  of_HYPRE_Real : HYPRE_Real → double;
  other_return_code :
    list (hypre_call (HYPRE_Complex P)) → list (other_call HYPRE_Real) →
    other_call HYPRE_Real → Z;
  num_iterations_written :
    list (hypre_call (HYPRE_Complex P)) → list (other_call HYPRE_Real) →
    other_call HYPRE_Real → Z;
  norm_written :
    list (hypre_call (HYPRE_Complex P)) → list (other_call HYPRE_Real) →
    other_call HYPRE_Real → HYPRE_Real;
}.
Global Arguments double {P} _.
Global Arguments HYPRE_Real {P} _.
Global Arguments to_HYPRE_Real {P} _ _.
Global Arguments of_HYPRE_Real {P} _ _.
Global Arguments other_return_code {P} _ _ _ _.
Global Arguments num_iterations_written {P} _ _ _ _.
Global Arguments norm_written {P} _ _ _ _.

(** The state of these functions: the state of the solver and the log of
    the calls they make, oldest first. *)
Record whole_state (P : Platform) (T : TuningLibrary P) : Type := WholeState {
  core : state P;
  other_log : list (other_call (HYPRE_Real T));
}.
Global Arguments WholeState {P T} _ _.
Global Arguments core {P T} _.
Global Arguments other_log {P T} _.

(** A computation on the solver's state, run in one of these functions. *)
Definition lift_core {P T A} (m : M (state P) A) : M (whole_state P T) A :=
  λ t, ((m (core t)).1, WholeState (m (core t)).2 (other_log t)).

(** One of these calls: it is logged and HYPRE's return code comes back. *)
Definition call_other {P} {T : TuningLibrary P}
    (c : other_call (HYPRE_Real T)) : M (whole_state P T) Z := λ t,
  (Ok (other_return_code T (hypre_log (env (core t))) (other_log t) c),
   WholeState (core t) (other_log t ++ [c])).

(** [~HypreStructuredSolver]: the two vectors, the matrix, the stencil and
    the grid are destroyed, unless the object is a preconditioner.  The
    return codes are not looked at.  The shared pointer
    [_preconditioner] is released after the body; what that does to the
    preconditioner depends on who else holds it and is not modelled. *)
Definition HypreStructuredSolver_dtor {P} {T : TuningLibrary P}
    : M (whole_state P T) unit :=
  is_preconditioner ← lift_core (member _is_preconditioner);
  if negb is_preconditioner then
    x ← lift_core (initialised _x);
    call_other (HYPRE_StructVectorDestroy x) ;;
    b ← lift_core (initialised _b);
    call_other (HYPRE_StructVectorDestroy b) ;;
    A ← lift_core (initialised _A);
    call_other (HYPRE_StructMatrixDestroy A) ;;
    stencil ← lift_core (initialised _stencil);
    call_other (HYPRE_StructStencilDestroy stencil) ;;
    grid ← lift_core (initialised _grid);
    call_other (HYPRE_StructGridDestroy grid) ;;
    mret tt
  else mret tt.

(** The destructor body of the dynamic class: [~HypreStructPCG], ...;
    [HypreStructDiagonal] declares none. *)
Definition class_dtor {P} {T : TuningLibrary P} : M (whole_state P T) unit :=
  c ← lift_core (member dynamic_class);
  match c with
  | HypreStructDiagonal => mret tt
  | _ =>
      solver ← lift_core (initialised _solver);
      call_other (HYPRE_StructDestroy c solver) ;;
      mret tt
  end.

(** Destroying an object: the destructor of its class, then the destructor
    of the base class. *)
Definition destructor {P} {T : TuningLibrary P} : M (whole_state P T) unit :=
  class_dtor ;; HypreStructuredSolver_dtor.

(** ** Builders and factory *)

(** The body of the constructor of each class; it runs when the constructor
    of the base class has returned. *)
Definition ctor_body {P} (c : solver_class) (layout : ArrayLayout)
    (is_preconditioner : bool) : M (state P) unit :=
  match c with
  | HypreStructPCG =>
      if (is_preconditioner : bool) then
        throw (logic_error "HYPRE PCG cannot be used as a preconditioner")
      else
        solver ← create_solver HypreStructPCG layout;
        call_hypre (HYPRE_StructPCGSetTwoNorm solver 1) ;;
        mret tt
  | HypreStructGMRES =>
      if (is_preconditioner : bool) then
        throw (logic_error "HYPRE GMRES cannot be used as a preconditioner")
      else
        create_solver HypreStructGMRES layout ;;
        mret tt
  | HypreStructBiCGSTAB =>
      if (is_preconditioner : bool) then
        throw (logic_error "HYPRE BiCGSTAB cannot be used as a preconditioner")
      else
        create_solver HypreStructBiCGSTAB layout ;;
        mret tt
  | HypreStructPFMG | HypreStructSMG | HypreStructJacobi =>
      solver ← create_solver c layout;
      if (is_preconditioner : bool) then
        error ← call_hypre (HYPRE_StructSetZeroGuess c solver);
        checkHypreError error
      else mret tt
  | HypreStructDiagonal =>
      if negb is_preconditioner then
        throw (logic_error "Diagonal preconditioner cannot be used as a solver")
      else mret tt
  end.

(** [std::make_shared<Class>( layout, is_preconditioner )] with the
    unwinding C++ performs when the constructor throws.  An exception that
    leaves the body of the class's constructor finds the base-class
    subobject complete: [~HypreStructuredSolver] runs on it before the
    exception goes on, and the destructor of the class does not run.  An
    exception that leaves the constructor of the base class runs no
    destructor body.  The destructor is [noexcept]: an exception leaving it
    would end the program, which the model has no outcome for and which
    [HypreStructuredSolver_dtor] never does. *)
Definition make_shared_unwinding {P} {T : TuningLibrary P} (c : solver_class)
    (layout : ArrayLayout) (is_preconditioner : bool)
    : M (world P * list (other_call (HYPRE_Real T))) solver := λ '(w, others),
  let storage :=
    new_object c (comm (globalGrid layout)) is_preconditioner in
  match HypreStructuredSolver_ctor layout (State storage w) with
  | (Ok _, s1) =>
      match ctor_body c layout is_preconditioner s1 with
      | (Ok _, s2) => (Ok (this s2), (env s2, others))
      | (Throw e, s2) =>
          match HypreStructuredSolver_dtor (WholeState s2 others) with
          | (Ok _, t) => (Throw e, (env (core t), other_log t))
          | (_, t) => (Undefined, (env (core t), other_log t))
          end
      | (Undefined, s2) => (Undefined, (env s2, others))
      end
  | (Throw e, s1) => (Throw e, (env s1, others))
  | (Undefined, s1) => (Undefined, (env s1, others))
  end.

(** A library for the calls of a destructor, which looks at none of
    HYPRE's answers. *)
Definition unanswered (P : Platform) : TuningLibrary P := {|
  double := unit;
  HYPRE_Real := unit;
  to_HYPRE_Real := id;
  of_HYPRE_Real := id;
  other_return_code := λ _ _ _, 0;
  num_iterations_written := λ _ _ _, 0;
  norm_written := λ _ _ _, tt;
|}.

(** [std::make_shared<Class>( layout, is_preconditioner )] as the builders
    and the factory use it, on the world alone: the outcome and the world
    of [make_shared_unwinding].  The log of the destructor's calls is not
    kept; it grows only in a run whose behaviour is undefined. *)
Definition make_shared {P} (c : solver_class) (layout : ArrayLayout)
    (is_preconditioner : bool) : M (world P) solver := λ w,
  let r :=
    make_shared_unwinding (T := unanswered P) c layout is_preconditioner
      (w, []) in
  (r.1, r.2.1).

Definition createHypreStructPCG {P} :=
  @make_shared P HypreStructPCG.
Definition createHypreStructGMRES {P} :=
  @make_shared P HypreStructGMRES.
Definition createHypreStructBiCGSTAB {P} :=
  @make_shared P HypreStructBiCGSTAB.
Definition createHypreStructPFMG {P} :=
  @make_shared P HypreStructPFMG.
Definition createHypreStructSMG {P} :=
  @make_shared P HypreStructSMG.
Definition createHypreStructJacobi {P} :=
  @make_shared P HypreStructJacobi.
Definition createHypreStructDiagonal {P} :=
  @make_shared P HypreStructDiagonal.

(** [createHypreStructuredSolver] *)
Definition createHypreStructuredSolver {P} (solver_type : string)
    (layout : ArrayLayout) (is_preconditioner : bool) : M (world P) solver :=
  if String.eqb "PCG" solver_type then
    createHypreStructPCG layout is_preconditioner
  else if String.eqb "GMRES" solver_type then
    createHypreStructGMRES layout is_preconditioner
  else if String.eqb "BiCGSTAB" solver_type then
    createHypreStructBiCGSTAB layout is_preconditioner
  else if String.eqb "PFMG" solver_type then
    createHypreStructPFMG layout is_preconditioner
  else if String.eqb "SMG" solver_type then
    createHypreStructSMG layout is_preconditioner
  else if String.eqb "Jacobi" solver_type then
    createHypreStructJacobi layout is_preconditioner
  else if String.eqb "Diagonal" solver_type then
    createHypreStructDiagonal layout is_preconditioner
  else throw (runtime_error "Invalid solver type").

(** ** Kokkos operations on array views

    Kokkos is external; these follow its documented behaviour for views
    whose extents agree, which is what [Kokkos::deep_copy] requires. *)

(** [Kokkos::create_mirror_view_and_copy( Kokkos::HostSpace(), v )]: a view
    in host memory with the contents of [v]. *)
Definition create_mirror_view_and_copy {T} (v : list Z → T) : list Z → T := v.

(** [Kokkos::create_mirror_view( Kokkos::HostSpace(), v )]: [v] itself when
    [v] is in host memory already; otherwise a newly allocated, hence
    value-initialised, host view.  The contents of [v] are not copied. *)
Definition create_mirror_view {T} (memory : memory_space) (zero : T)
    (v : list Z → T) : list Z → T :=
  match memory with
  | HostSpace => v
  | DeviceSpace => λ _, zero
  end.

(** [Kokkos::deep_copy( createSubview( dst, space ), src )] for a
    layout-right host view [src] of the given extents: inside the index
    space [dst] takes the element of [src] at the relative index, converted
    to the element type of [dst]; outside it [dst] is as before. *)
Definition deep_copy_to_subview {T V} (convert : V → T) (dst : list Z → T)
    (space : IndexSpace) (extents : list Z) (src : list V) : list Z → T :=
  λ idx,
    if in_space space (length extents) idx
    then default (dst idx)
           (convert <$>
              src !! Z.to_nat (offset_right extents (relative space idx)))
    else dst idx.

(** ** Member functions *)

(** Conversion of an [unsigned] argument to a [HYPRE_Int] parameter.  An
    [int] converts to [HYPRE_Int] without change and is passed as it is. *)
Definition to_HYPRE_Int (P : Platform) (z : Z) : Z :=
  to_signed (HYPRE_Int_bits P) z.

Definition isPreconditioner (s : solver) : bool := _is_preconditioner s.

(** A reference to an array of the caller. *)
Definition array {P} (id : nat) : M (state P) (Array (Scalar P)) :=
  read (λ s, arrays (env s) !! id).

(** Assignment through a reference to an array's view. *)
Definition store_view {P} (id : nat) (v : list Z → Scalar P)
    : M (state P) unit :=
  modify (λ s,
    State (this s)
      (World (hypre_log (env s))
         (alter (λ a, {| layout := layout a; view := v |}) id
            (arrays (env s))))).

(** [HypreStructuredSolver::setMatrixStencil]; an entry of [stencil] is a
    [std::array<int, NumSpaceDim>]. *)
Definition setMatrixStencil {P} (NumSpaceDim : nat) (stencil : list (list Z))
    (is_symmetric : bool) : M (state P) unit :=
  is_preconditioner ← member _is_preconditioner;
  if (is_preconditioner : bool) then
    throw (logic_error "Cannot call setMatrixStencil() on preconditioners")
  else
    assign (set__stencil_size
              (Some (to_unsigned_int (Z.of_nat (length stencil))))) ;;
    stencil_size ← initialised _stencil_size;
    '(error, stencil_handle) ← hypre_create
      (HYPRE_StructStencilCreate (Z.of_nat NumSpaceDim)
         (to_HYPRE_Int P stencil_size));
    assign (set__stencil (Some stencil_handle)) ;;
    checkHypreError error ;;
    for_each (λ n entry,
      let offset := (λ d, entry !!! d) <$> seq 0 NumSpaceDim in
      error ← call_hypre
        (HYPRE_StructStencilSetElement stencil_handle
           (to_HYPRE_Int P (to_unsigned_int (Z.of_nat n))) offset);
      checkHypreError error) 0%nat stencil ;;
    mpi_comm ← member _comm;
    grid ← initialised _grid;
    '(error, A) ← hypre_create
      (HYPRE_StructMatrixCreate mpi_comm grid stencil_handle);
    assign (set__A (Some A)) ;;
    checkHypreError error ;;
    error ← call_hypre (HYPRE_StructMatrixSetSymmetric A is_symmetric);
    checkHypreError error.

(** [HypreStructuredSolver::setMatrixValues] *)
Definition setMatrixValues {P} (values : nat) : M (state P) unit :=
  is_preconditioner ← member _is_preconditioner;
  if (is_preconditioner : bool) then
    throw (logic_error "Cannot call setMatrixValues() on preconditioners")
  else
    values_array ← array values;
    stencil_size ← initialised _stencil_size;
    if bool_decide
         (dofsPerEntity (layout values_array) ≠ to_int stencil_size)
    then
      throw (runtime_error
               "Number of matrix values does not match stencil size")
    else
      let num_space_dim := num_space_dim (layout values_array) in
      A ← initialised _A;
      error ← call_hypre (HYPRE_StructMatrixInitialize A);
      checkHypreError error ;;
      let values_mirror := create_mirror_view_and_copy (view values_array) in
      let owned_space := indexSpace_Own_Local (layout values_array) in
      let reorder_size :=
        (extent owned_space <$> seq 0 num_space_dim) ++ [stencil_size] in
      let a_values :=
        createView_LayoutRight reorder_size
          (λ idx, to_HYPRE_Complex P
                    (values_mirror (absolute owned_space idx))) in
      let indices := seqZ 0 stencil_size in
      lower ← member _lower;
      upper ← member _upper;
      error ← call_hypre
        (HYPRE_StructMatrixSetBoxValues A lower upper
           (Z.of_nat (length indices)) indices a_values);
      checkHypreError error ;;
      error ← call_hypre (HYPRE_StructMatrixAssemble A);
      checkHypreError error.

(** The virtual functions a solver uses of its preconditioner. *)
Definition getHypreSolver (s : solver) : option handle :=
  match dynamic_class s with
  | HypreStructDiagonal => Some nullptr
  | _ => _solver s
  end.
Definition getHypreSetupFunction (s : solver) : HYPRE_PtrToStructSolverFcn :=
  match dynamic_class s with
  | HypreStructDiagonal => HYPRE_StructDiagScaleSetup
  | c => HYPRE_StructSetup c
  end.
Definition getHypreSolveFunction (s : solver) : HYPRE_PtrToStructSolverFcn :=
  match dynamic_class s with
  | HypreStructDiagonal => HYPRE_StructDiagScale
  | c => HYPRE_StructSolve c
  end.

(** [setPreconditionerImpl], by dynamic class. *)
Definition setPreconditionerImpl {P} (preconditioner : solver)
    : M (state P) unit :=
  c ← member dynamic_class;
  match c with
  | HypreStructPCG | HypreStructGMRES | HypreStructBiCGSTAB =>
      solver ← initialised _solver;
      match getHypreSolver preconditioner with
      | Some precond_solver =>
          error ← call_hypre
            (HYPRE_StructSetPrecond c solver
               (getHypreSolveFunction preconditioner)
               (getHypreSetupFunction preconditioner) precond_solver);
          checkHypreError error
      | None => undefined
      end
  | HypreStructPFMG =>
      throw (logic_error "HYPRE PFMG solver does not support preconditioning.")
  | HypreStructSMG =>
      throw (logic_error "HYPRE SMG solver does not support preconditioning.")
  | HypreStructJacobi =>
      throw (logic_error
               "HYPRE Jacobi solver does not support preconditioning.")
  | HypreStructDiagonal =>
      throw (logic_error
               "Diagonal preconditioner does not support preconditioning.")
  end.

(** [HypreStructuredSolver::setPreconditioner]; the argument is a shared
    pointer, [None] when null. *)
Definition setPreconditioner {P} (preconditioner : option solver)
    : M (state P) unit :=
  is_preconditioner ← member _is_preconditioner;
  if (is_preconditioner : bool) then
    throw (logic_error "Cannot call setPreconditioner() on a preconditioner")
  else
    match preconditioner with
    | None => undefined
    | Some p =>
        if negb (isPreconditioner p) then
          throw (logic_error "Not a preconditioner")
        else
          assign (set__preconditioner preconditioner) ;;
          setPreconditionerImpl p
    end.

(** [setupImpl] and [solveImpl], by dynamic class. *)
Definition setupImpl {P} (A b x : handle) : M (state P) unit :=
  c ← member dynamic_class;
  match c with
  | HypreStructDiagonal =>
      throw (logic_error "Diagonal preconditioner cannot be used as a solver")
  | _ =>
      solver ← initialised _solver;
      error ← call_hypre (HYPRE_StructSetupCall c solver A b x);
      checkHypreError error
  end.

Definition solveImpl {P} (A b x : handle) : M (state P) unit :=
  c ← member dynamic_class;
  match c with
  | HypreStructDiagonal =>
      throw (logic_error "Diagonal preconditioner cannot be used as a solver")
  | _ =>
      solver ← initialised _solver;
      error ← call_hypre (HYPRE_StructSolveCall c solver A b x);
      checkHypreError error
  end.

(** [HypreStructuredSolver::setup] *)
Definition setup {P} : M (state P) unit :=
  is_preconditioner ← member _is_preconditioner;
  if (is_preconditioner : bool) then
    throw (logic_error "Cannot call setup() on preconditioners")
  else
    A ← initialised _A;
    b ← initialised _b;
    x ← initialised _x;
    setupImpl A b x.

(** [HypreStructuredSolver::solve]; [b] and [x] are references to arrays
    of the caller. *)
Definition solve {P} (b x : nat) : M (state P) unit :=
  is_preconditioner ← member _is_preconditioner;
  if (is_preconditioner : bool) then
    throw (logic_error "Cannot call solve() on preconditioners")
  else
    b_array ← array b;
    x_array ← array x;
    if bool_decide (dofsPerEntity (layout b_array) ≠ 1) ||
       bool_decide (dofsPerEntity (layout x_array) ≠ 1)
    then throw (runtime_error "Structured solver only for scalar fields")
    else
      let num_space_dim := num_space_dim (layout b_array) in
      hypre_b ← initialised _b;
      error ← call_hypre (HYPRE_StructVectorInitialize hypre_b);
      checkHypreError error ;;
      let b_mirror := create_mirror_view_and_copy (view b_array) in
      let owned_space := indexSpace_Own_Local (layout b_array) in
      let reorder_size :=
        (extent owned_space <$> seq 0 num_space_dim) ++ [1] in
      let vector_values :=
        createView_LayoutRight reorder_size
          (λ idx, to_HYPRE_Complex P (b_mirror (absolute owned_space idx))) in
      lower ← member _lower;
      upper ← member _upper;
      error ← call_hypre
        (HYPRE_StructVectorSetBoxValues hypre_b lower upper vector_values);
      checkHypreError error ;;
      error ← call_hypre (HYPRE_StructVectorAssemble hypre_b);
      checkHypreError error ;;
      A ← initialised _A;
      hypre_x ← initialised _x;
      solveImpl A hypre_b hypre_x ;;
      '(error, vector_values) ← hypre_read
        (HYPRE_StructVectorGetBoxValues hypre_x lower upper) vector_values;
      checkHypreError error ;;
      x_array ← array x;
      let x_mirror :=
        create_mirror_view (device_memory_space P) (Scalar_zero P)
                           (view x_array) in
      let x_mirror :=
        deep_copy_to_subview (of_HYPRE_Complex P) x_mirror owned_space
                             reorder_size vector_values in
      store_view x x_mirror.

(** ** Tuning and querying a solver

    [setTolerance], [setMaxIter], [setPrintLevel], [getNumIter] and
    [getFinalRelativeResidualNorm] of the base class forward to virtual
    functions of the seven classes, which call HYPRE entry points of their
    own; these calls are logged with those of the destructors. *)

(** A query: the return code and what HYPRE wrote come back. *)
Definition query_iterations {P} {T : TuningLibrary P}
    (c : other_call (HYPRE_Real T)) : M (whole_state P T) (Z * Z) := λ t,
  (Ok (other_return_code T (hypre_log (env (core t))) (other_log t) c,
       num_iterations_written T (hypre_log (env (core t))) (other_log t) c),
   WholeState (core t) (other_log t ++ [c])).
Definition query_norm {P} {T : TuningLibrary P}
    (c : other_call (HYPRE_Real T))
    : M (whole_state P T) (Z * HYPRE_Real T) := λ t,
  (Ok (other_return_code T (hypre_log (env (core t))) (other_log t) c,
       norm_written T (hypre_log (env (core t))) (other_log t) c),
   WholeState (core t) (other_log t ++ [c])).

(** [setToleranceImpl], by dynamic class. *)
Definition setToleranceImpl {P} {T : TuningLibrary P} (tol : double T)
    : M (whole_state P T) unit :=
  c ← lift_core (member dynamic_class);
  match c with
  | HypreStructDiagonal =>
      throw (logic_error "Diagonal preconditioner cannot be used as a solver")
  | _ =>
      solver ← lift_core (initialised _solver);
      error ← call_other (HYPRE_StructSetTol c solver (to_HYPRE_Real T tol));
      lift_core (checkHypreError error)
  end.

(** [setMaxIterImpl], by dynamic class. *)
Definition setMaxIterImpl {P} {T : TuningLibrary P} (max_iter : Z)
    : M (whole_state P T) unit :=
  c ← lift_core (member dynamic_class);
  match c with
  | HypreStructDiagonal =>
      throw (logic_error "Diagonal preconditioner cannot be used as a solver")
  | _ =>
      solver ← lift_core (initialised _solver);
      error ← call_other
        (HYPRE_StructSetMaxIter c solver (to_HYPRE_Int P max_iter));
      lift_core (checkHypreError error)
  end.

(** [setPrintLevelImpl], by dynamic class; the Jacobi solver does not
    support a print level. *)
Definition setPrintLevelImpl {P} {T : TuningLibrary P} (print_level : Z)
    : M (whole_state P T) unit :=
  c ← lift_core (member dynamic_class);
  match c with
  | HypreStructDiagonal =>
      throw (logic_error "Diagonal preconditioner cannot be used as a solver")
  | HypreStructJacobi => mret tt
  | _ =>
      solver ← lift_core (initialised _solver);
      error ← call_other
        (HYPRE_StructSetPrintLevel c solver (to_HYPRE_Int P print_level));
      lift_core (checkHypreError error)
  end.

(** [getNumIterImpl], by dynamic class; the result is an [int]. *)
Definition getNumIterImpl {P} {T : TuningLibrary P} : M (whole_state P T) Z :=
  c ← lift_core (member dynamic_class);
  match c with
  | HypreStructDiagonal =>
      throw (logic_error "Diagonal preconditioner cannot be used as a solver")
  | _ =>
      solver ← lift_core (initialised _solver);
      '(error, num_iter) ←
        query_iterations (HYPRE_StructGetNumIterations c solver);
      lift_core (checkHypreError error) ;;
      mret (to_int num_iter)
  end.

(** [getFinalRelativeResidualNormImpl], by dynamic class. *)
Definition getFinalRelativeResidualNormImpl {P} {T : TuningLibrary P}
    : M (whole_state P T) (double T) :=
  c ← lift_core (member dynamic_class);
  match c with
  | HypreStructDiagonal =>
      throw (logic_error "Diagonal preconditioner cannot be used as a solver")
  | _ =>
      solver ← lift_core (initialised _solver);
      '(error, norm) ←
        query_norm (HYPRE_StructGetFinalRelativeResidualNorm c solver);
      lift_core (checkHypreError error) ;;
      mret (of_HYPRE_Real T norm)
  end.

(** The public functions of the base class. *)
Definition setTolerance {P} {T : TuningLibrary P} (tol : double T)
    : M (whole_state P T) unit := setToleranceImpl tol.
Definition setMaxIter {P} {T : TuningLibrary P} (max_iter : Z)
    : M (whole_state P T) unit := setMaxIterImpl max_iter.
Definition setPrintLevel {P} {T : TuningLibrary P} (print_level : Z)
    : M (whole_state P T) unit := setPrintLevelImpl print_level.
Definition getNumIter {P} {T : TuningLibrary P} : M (whole_state P T) Z :=
  getNumIterImpl.
Definition getFinalRelativeResidualNorm {P} {T : TuningLibrary P}
    : M (whole_state P T) (double T) := getFinalRelativeResidualNormImpl.

(** ** Vocabulary of the statements *)

(** [wp m Q s]: running [m] from [s] ends in an outcome and a state that
    [Q] relates. *)
Definition wp {St A} (m : M St A) (Q : outcome A → St → Prop) (s : St) : Prop :=
  Q (m s).1 (m s).2.

(** The state after one more call into HYPRE. *)
Definition logged {P} (c : hypre_call (HYPRE_Complex P)) (s : state P)
    : state P :=
  State (this s) (World (hypre_log (env s) ++ [c]) (arrays (env s))).

(** [never_throws e m]: from no state does [m] end by throwing [e]. *)
Definition never_throws {St A} (e : exception) (m : M St A) : Prop :=
  ∀ s, (m s).1 ≠ Throw e.

(** HYPRE reported an error: some call got a return code that is positive
    as [checkHypreError] sees it, converted to [int]. *)
Definition HypreError (P : Platform) : Prop :=
  ∃ log c, 0 < to_int (return_code (hypre P) log c).

(** A postcondition for a computation that is meant to return: a returned
    value and state satisfy [Qok], a throw is the [std::runtime_error] of an
    error HYPRE reported, and the behaviour is always defined. *)
Definition post {P A} (Qok : A → state P → Prop)
    : outcome A → state P → Prop := λ r s',
  match r with
  | Ok a => Qok a s'
  | Throw e => HypreError P ∧ ∃ what, e = runtime_error what
  | Undefined => False
  end.

(** The extents the constructor computes for the grid, in closed form. *)
Definition grid_lower (P : Platform) (layout : ArrayLayout) : list Z :=
  (λ d, static_cast_HYPRE_Int P
          (min (indexSpace_Own_Global layout) (num_space_dim layout - d - 1)))
    <$> seq 0 (num_space_dim layout).
Definition grid_upper (P : Platform) (layout : ArrayLayout) : list Z :=
  (λ d, static_cast_HYPRE_Int P
          (max (indexSpace_Own_Global layout) (num_space_dim layout - d - 1)
           - 1))
    <$> seq 0 (num_space_dim layout).

(** The calls that create and zero one HYPRE vector, the calls of the base
    constructor, and the members it leaves set; [n0] is the number of calls
    logged before. *)
Definition vector_calls {V} (mpi_comm : MPI_Comm) (grid : handle)
    (lower upper : list Z) (values : list V) (id : nat) : list (hypre_call V) :=
  [ HYPRE_StructVectorCreate mpi_comm grid;
    HYPRE_StructVectorInitialize (object id);
    HYPRE_StructVectorSetBoxValues (object id) lower upper values;
    HYPRE_StructVectorAssemble (object id) ].

Definition zero_values (P : Platform) (layout : ArrayLayout)
    : list (HYPRE_Complex P) :=
  createView_LayoutRight
    (extent (indexSpace_Own_Global layout) <$> seq 0 (num_space_dim layout))
    (λ _, HYPRE_Complex_zero P).

Definition base_calls (P : Platform) (layout : ArrayLayout)
    (mpi_comm : MPI_Comm) (n0 : nat) : list (hypre_call (HYPRE_Complex P)) :=
  [ HYPRE_StructGridCreate mpi_comm (Z.of_nat (num_space_dim layout));
    HYPRE_StructGridSetExtents (object n0) (grid_lower P layout)
      (grid_upper P layout);
    HYPRE_StructGridSetPeriodic (object n0) (periodicity layout);
    HYPRE_StructGridAssemble (object n0) ]
  ++ vector_calls mpi_comm (object n0) (grid_lower P layout)
       (grid_upper P layout) (zero_values P layout) (n0 + 4)
  ++ vector_calls mpi_comm (object n0) (grid_lower P layout)
       (grid_upper P layout) (zero_values P layout) (n0 + 8).

Definition base_object (P : Platform) (layout : ArrayLayout) (n0 : nat)
    (o : solver) : solver :=
  set__x (Some (object (n0 + 8)))
    (set__b (Some (object (n0 + 4)))
       (set__upper (grid_upper P layout)
          (set__lower (grid_lower P layout)
             (set__grid (Some (object n0)) o)))).

(** The name the factory knows each class by, the constructor of each
    class, and the use ([is_preconditioner]) each class accepts. *)
Definition solver_name (c : solver_class) : string :=
  match c with
  | HypreStructPCG => "PCG"
  | HypreStructGMRES => "GMRES"
  | HypreStructBiCGSTAB => "BiCGSTAB"
  | HypreStructPFMG => "PFMG"
  | HypreStructSMG => "SMG"
  | HypreStructJacobi => "Jacobi"
  | HypreStructDiagonal => "Diagonal"
  end.

Definition constructor_of {P} (c : solver_class)
    : ArrayLayout → bool → M (state P) unit :=
  match c with
  | HypreStructPCG => HypreStructPCG_ctor
  | HypreStructGMRES => HypreStructGMRES_ctor
  | HypreStructBiCGSTAB => HypreStructBiCGSTAB_ctor
  | HypreStructPFMG => HypreStructPFMG_ctor
  | HypreStructSMG => HypreStructSMG_ctor
  | HypreStructJacobi => HypreStructJacobi_ctor
  | HypreStructDiagonal => HypreStructDiagonal_ctor
  end.

Definition accepts (c : solver_class) (is_preconditioner : bool) : bool :=
  match c with
  | HypreStructPCG | HypreStructGMRES | HypreStructBiCGSTAB =>
      negb is_preconditioner
  | HypreStructPFMG | HypreStructSMG | HypreStructJacobi => true
  | HypreStructDiagonal => is_preconditioner
  end.

(** HYPRE reports no error, whatever it is asked: no return code is
    positive as [checkHypreError] sees it, converted to [int]. *)
Definition no_error (P : Platform) : Prop :=
  ∀ log c, to_int (return_code (hypre P) log c) ≤ 0.

(** What every constructor keeps: the dynamic class and the flag. *)
Definition same_kind (c : solver_class) (flag : bool) (o : solver) : Prop :=
  dynamic_class o = c ∧ _is_preconditioner o = flag.

(** [z] is a value of [HYPRE_Int]. *)
Definition HYPRE_Int_holds (P : Platform) (z : Z) : Prop :=
  - 2 ^ (HYPRE_Int_bits P - 1) ≤ z < 2 ^ (HYPRE_Int_bits P - 1).

(** In [solve]: the extents of the staging buffer ([reorder_size]), the
    forcing term as staged in it, the calls made before the solution is
    fetched, and the view [x] ends with, given the values HYPRE returned. *)
Definition owned_extents (l : ArrayLayout) : list Z :=
  (extent (indexSpace_Own_Local l) <$> seq 0 (num_space_dim l)) ++ [1].

Definition staged_rhs (P : Platform) (b_array : Array (Scalar P))
    : list (HYPRE_Complex P) :=
  createView_LayoutRight (owned_extents (layout b_array))
    (λ idx, to_HYPRE_Complex P
              (view b_array
                 (absolute (indexSpace_Own_Local (layout b_array)) idx))).

Definition solve_calls (P : Platform) (c : solver_class)
    (solver A hypre_b hypre_x : handle) (lower upper : list Z)
    (b_array : Array (Scalar P)) : list (hypre_call (HYPRE_Complex P)) :=
  [ HYPRE_StructVectorInitialize hypre_b;
    HYPRE_StructVectorSetBoxValues hypre_b lower upper (staged_rhs P b_array);
    HYPRE_StructVectorAssemble hypre_b;
    HYPRE_StructSolveCall c solver A hypre_b hypre_x ].

Definition solved_view (P : Platform) (b_array x_array : Array (Scalar P))
    (returned : list (HYPRE_Complex P)) : list Z → Scalar P :=
  deep_copy_to_subview (of_HYPRE_Complex P)
    (create_mirror_view (device_memory_space P) (Scalar_zero P)
       (view x_array))
    (indexSpace_Own_Local (layout b_array)) (owned_extents (layout b_array))
    (fill_buffer returned (staged_rhs P b_array)).

(** ** Sample inputs *)

(** A HYPRE that reports success on every call and hands back, for a box,
    the values 100, 101, ... in the order of the box. *)
Definition box_volume (ilower iupper : list Z) : Z :=
  volume (zip_with (λ lo up, up - lo + 1) ilower iupper).

Definition agreeable_hypre : HypreLibrary Z := {|
  return_code := λ _ _, 0;
  written_values := λ _ c,
    match c with
    | HYPRE_StructVectorGetBoxValues _ ilower iupper =>
        seqZ 100 (box_volume ilower iupper)
    | _ => []
    end;
  error_description := λ _, "";
|}.

(** A HYPRE whose every call reports the generic error code 1. *)
Definition failing_hypre : HypreLibrary Z := {|
  return_code := λ _ _, 1;
  written_values := λ _ _, [];
  error_description := λ _, "Generic error";
|}.

(** Integer-valued stand-ins for [double], in a given memory space and with
    a 32-bit [HYPRE_Int]. *)
Definition sample_platform (memory : memory_space) (library : HypreLibrary Z)
    : Platform := {|
  Scalar := Z;
  HYPRE_Complex := Z;
  to_HYPRE_Complex := id;
  of_HYPRE_Complex := id;
  Scalar_zero := 0;
  HYPRE_Complex_zero := 0;
  device_memory_space := memory;
  HYPRE_Int_bits := 32;
  hypre := library;
|}.
Definition host_platform : Platform := sample_platform HostSpace agreeable_hypre.

(** A two-dimensional layout, periodic in dimension 0 only, of 8 x 6
    entities; this rank owns the global indices [2,5) x [1,3), which are the
    local indices [1,4) x [1,3) of a view with one layer of ghosts. *)
Definition table (values : list Z) (d : nat) : Z := values !!! d.

Definition sample_layout (dofs : Z) : ArrayLayout := {|
  num_space_dim := 2;
  globalGrid := {|
    comm := 0%nat;
    isPeriodic := λ d, bool_decide (d = 0%nat);
    globalNumEntity := table [8; 6];
  |};
  indexSpace_Own_Global :=
    {| min := table [2; 1; 0]; max := table [5; 3; dofs] |};
  indexSpace_Own_Local :=
    {| min := table [1; 1; 0]; max := table [4; 3; dofs] |};
  dofsPerEntity := dofs;
|}.

(** Two scalar arrays over that layout: a forcing term and a solution whose
    entries, ghosts included, are all 5. *)
Definition sample_arrays : gmap nat (Array Z) :=
  <[0%nat := {| layout := sample_layout 1;
                view := λ idx, 10 * idx !!! 0%nat + idx !!! 1%nat |}]>
  (<[1%nat := {| layout := sample_layout 1; view := λ _, 5 |}]>
  (<[2%nat := {| layout := sample_layout 3; view := λ _, 1 |}]> ∅)).

Definition sample_world (P : Platform) (a : gmap nat (Array (Scalar P)))
    : world P :=
  World [] a.

(** The five-point stencil. *)
Definition five_point : list (list Z) :=
  [[0; 0]; [-1; 0]; [1; 0]; [0; -1]; [0; 1]].

(** The state in which the member functions of a newly built solver are
    called: the object the factory returns in a world without earlier HYPRE
    calls (the blank object when it returns none). *)
Definition constructed (P : Platform) (solver_type : string)
    (layout : ArrayLayout) (is_preconditioner : bool)
    (a : gmap nat (Array (Scalar P))) : state P :=
  let r :=
    createHypreStructuredSolver solver_type layout is_preconditioner
      (World [] a) in
  State (match r.1 with
         | Ok o => o
         | _ => new_object HypreStructPCG 0%nat false
         end) r.2.

(** A PCG solver over the sample layout as the factory returns it, with
    the calls its construction makes. *)
Definition pcg_object : solver := {|
  dynamic_class := HypreStructPCG;
  _comm := 0%nat;
  _is_preconditioner := false;
  _grid := Some (object 0);
  _lower := [1; 2];
  _upper := [2; 4];
  _stencil := None;
  _stencil_size := None;
  _A := None;
  _b := Some (object 4);
  _x := Some (object 8);
  _preconditioner := None;
  _solver := Some (object 12);
|}.

Definition pcg_calls : list (hypre_call Z) :=
  [ HYPRE_StructGridCreate 0%nat 2;
    HYPRE_StructGridSetExtents (object 0) [1; 2] [2; 4];
    HYPRE_StructGridSetPeriodic (object 0) [0; 8];
    HYPRE_StructGridAssemble (object 0);
    HYPRE_StructVectorCreate 0%nat (object 0);
    HYPRE_StructVectorInitialize (object 4);
    HYPRE_StructVectorSetBoxValues (object 4) [1; 2] [2; 4] [0; 0; 0; 0; 0; 0];
    HYPRE_StructVectorAssemble (object 4);
    HYPRE_StructVectorCreate 0%nat (object 0);
    HYPRE_StructVectorInitialize (object 8);
    HYPRE_StructVectorSetBoxValues (object 8) [1; 2] [2; 4] [0; 0; 0; 0; 0; 0];
    HYPRE_StructVectorAssemble (object 8);
    HYPRE_StructCreate HypreStructPCG 0%nat;
    HYPRE_StructPCGSetTwoNorm (object 12) 1 ].

Definition sample_state (memory : memory_space) (o : solver)
    (calls : list (hypre_call Z))
    : state (sample_platform memory agreeable_hypre) :=
  @State (sample_platform memory agreeable_hypre) o
    (@World (sample_platform memory agreeable_hypre) calls sample_arrays).

Definition pcg_constructed (memory : memory_space)
    : state (sample_platform memory agreeable_hypre) :=
  sample_state memory pcg_object pcg_calls.

(** The same solver after [setMatrixStencil] with the five-point stencil,
    designated symmetric. *)
Definition stencil_calls : list (hypre_call Z) :=
  [ HYPRE_StructStencilCreate 2 5;
    HYPRE_StructStencilSetElement (object 14) 0 [0; 0];
    HYPRE_StructStencilSetElement (object 14) 1 [-1; 0];
    HYPRE_StructStencilSetElement (object 14) 2 [1; 0];
    HYPRE_StructStencilSetElement (object 14) 3 [0; -1];
    HYPRE_StructStencilSetElement (object 14) 4 [0; 1];
    HYPRE_StructMatrixCreate 0%nat (object 0) (object 14);
    HYPRE_StructMatrixSetSymmetric (object 20) true ].

Definition pcg_ready (memory : memory_space)
    : state (sample_platform memory agreeable_hypre) :=
  sample_state memory
    (set__A (Some (object 20))
       (set__stencil (Some (object 14))
          (set__stencil_size (Some 5) pcg_object)))
    (pcg_calls ++ stencil_calls).

(** A diagonal preconditioner, a PFMG solver and an SMG preconditioner as
    the factory returns them. *)
Definition diagonal_preconditioner : solver :=
  new_object HypreStructDiagonal 0%nat true.

Definition pfmg_solver : state host_platform :=
  sample_state HostSpace
    {| dynamic_class := HypreStructPFMG;
       _comm := 0%nat;
       _is_preconditioner := false;
       _grid := Some (object 0);
       _lower := [1; 2];
       _upper := [2; 4];
       _stencil := None;
       _stencil_size := None;
       _A := None;
       _b := Some (object 4);
       _x := Some (object 8);
       _preconditioner := None;
       _solver := Some (object 12) |}
    (take 12 pcg_calls ++ [HYPRE_StructCreate HypreStructPFMG 0%nat]).

Definition smg_preconditioner : state host_platform :=
  sample_state HostSpace
    (set__solver (Some (object 0)) (new_object HypreStructSMG 0%nat true))
    [ HYPRE_StructCreate HypreStructSMG 0%nat;
      HYPRE_StructSetZeroGuess HypreStructSMG (object 0) ].

(** ** Vocabulary of the further properties *)

(** The extents of the buffer over the owned entities and [last] values per
    entity ([reorder_size] in [setMatrixValues] and in [solve]). *)
Definition staging_extents (l : ArrayLayout) (last : Z) : list Z :=
  (extent (indexSpace_Own_Local l) <$> seq 0 (num_space_dim l)) ++ [last].

(** A multi-index lies in the box [0, extents). *)
Definition in_box (extents idx : list Z) : Prop :=
  Forall2 (λ e i, 0 ≤ i < e) extents idx.

(** The state [setMatrixStencil] leaves when it returns. *)
Definition stencil_set {P} (s : state P) (NumSpaceDim : nat)
    (stencil : list (list Z)) (is_symmetric : bool) (grid : handle) : state P :=
  let n0 := length (hypre_log (env s)) in
  let stencil_handle := object n0 in
  let A := object (n0 + 1 + length stencil) in
  State
    (set__A (Some A)
       (set__stencil (Some stencil_handle)
          (set__stencil_size (Some (Z.of_nat (length stencil))) (this s))))
    (World
       (hypre_log (env s) ++
        HYPRE_StructStencilCreate (Z.of_nat NumSpaceDim)
          (Z.of_nat (length stencil))
        :: imap (λ n offset,
                   HYPRE_StructStencilSetElement stencil_handle (Z.of_nat n)
                     offset) stencil
        ++ [HYPRE_StructMatrixCreate (_comm (this s)) grid stencil_handle;
            HYPRE_StructMatrixSetSymmetric A is_symmetric])
       (arrays (env s))).



(** The message of the exception [checkHypreError] throws. *)
Definition hypre_error_message (P : Platform) (error : Z) : string :=
  "HYPRE structured solver error: " +:+ pretty error +:+ " "
    +:+ error_description (hypre P) error.

(** The state in which [checkHypreError] throws: HYPRE has been asked to
    describe the error and to clear it. *)
Definition error_cleared {P} (error : Z) (s : state P) : state P :=
  logged (HYPRE_ClearError error) (logged (HYPRE_DescribeError error) s).

(** [preserves f m]: whatever [m] does and however it ends, the observation
    [f] of the state is the same after as before. *)
Definition preserves {P A X} (f : state P → X) (m : M (state P) A) : Prop :=
  ∀ s, f (m s).2 = f s.

(** [writes_only x m]: [m] changes no array other than [x], and no array at
    all unless it returns. *)
Definition writes_only {P A} (x : nat) (m : M (state P) A) : Prop :=
  ∀ s,
    (∀ id, id ≠ x → arrays (env (m s).2) !! id = arrays (env s) !! id) ∧
    ((∀ a, (m s).1 ≠ Ok a) → arrays (env (m s).2) = arrays (env s)).

(** The members a constructor sets and the class of the object. *)
Definition construction_members (o : solver) :=
  (dynamic_class o, _comm o, _is_preconditioner o, _grid o, _lower o,
   _upper o, _b o, _x o, _solver o).

(** The calls a constructor makes, after [n0] earlier calls, and the object
    it leaves, for a class and a use the class accepts. *)
Definition built_calls (P : Platform) (c : solver_class)
    (layout : ArrayLayout) (n0 : nat) (is_preconditioner : bool)
    : list (hypre_call (HYPRE_Complex P)) :=
  let mpi_comm := comm (globalGrid layout) in
  match c, is_preconditioner with
  | HypreStructDiagonal, _ => []
  | HypreStructPCG, false =>
      base_calls P layout mpi_comm n0 ++
      [ HYPRE_StructCreate c mpi_comm;
        HYPRE_StructPCGSetTwoNorm (object (n0 + 12)) 1 ]
  | _, false => base_calls P layout mpi_comm n0 ++ [HYPRE_StructCreate c mpi_comm]
  | _, true =>
      [ HYPRE_StructCreate c mpi_comm;
        HYPRE_StructSetZeroGuess c (object n0) ]
  end.

Definition built_object (P : Platform) (c : solver_class)
    (layout : ArrayLayout) (n0 : nat) (is_preconditioner : bool) : solver :=
  let o := new_object c (comm (globalGrid layout)) is_preconditioner in
  match c, is_preconditioner with
  | HypreStructDiagonal, _ => o
  | _, false =>
      set__solver (Some (object (n0 + 12))) (base_object P layout n0 o)
  | _, true => set__solver (Some (object n0)) o
  end.

(** The number of values a call hands to HYPRE for a box is the number of
    cells of the box, times the number of stencil entries for a matrix. *)
Definition values_fit_box {V} (call : hypre_call V) : Prop :=
  match call with
  | HYPRE_StructVectorSetBoxValues _ ilower iupper values =>
      Z.of_nat (length values) = box_volume ilower iupper
  | HYPRE_StructMatrixSetBoxValues _ ilower iupper nentries _ values =>
      Z.of_nat (length values) = box_volume ilower iupper * nentries
  | _ => True
  end.

(** The state after one more of these calls. *)
Definition tuned {P} {T : TuningLibrary P}
    (c : other_call (HYPRE_Real T)) (t : whole_state P T)
    : whole_state P T :=
  WholeState (core t) (other_log t ++ [c]).

(** The state after a HYPRE error was reported: [error] was described and
    HYPRE's error flag cleared. *)
Definition tuning_error_cleared {P} {T : TuningLibrary P} (error : Z)
    (t : whole_state P T) : whole_state P T :=
  WholeState (error_cleared error (core t)) (other_log t).

(** The outcome of a function that makes the one call [c] and hands its
    return code [code] to [checkHypreError], returning [v] when all is
    well: what is tested, printed and cleared is the code converted to
    [int]. *)
Definition checked {P} {T : TuningLibrary P} {A}
    (c : other_call (HYPRE_Real T)) (code : Z) (v : A)
    (t : whole_state P T) : outcome A * whole_state P T :=
  let error := to_int code in
  if bool_decide (error ≤ 0) then (Ok v, tuned c t)
  else (Throw (runtime_error (hypre_error_message P error)),
        tuning_error_cleared error (tuned c t)).

(** The answer of HYPRE to [c] in state [t]. *)
Definition answer {P} {T : TuningLibrary P}
    (c : other_call (HYPRE_Real T)) (t : whole_state P T) : Z :=
  other_return_code T (hypre_log (env (core t))) (other_log t) c.

(** The calls that create a HYPRE object, the handles of the objects a list
    of calls creates when [n0] calls were logged before it, and the handle
    a call destroys. *)
Definition creates {V} (call : hypre_call V) : bool :=
  match call with
  | HYPRE_StructGridCreate _ _ | HYPRE_StructVectorCreate _ _
  | HYPRE_StructStencilCreate _ _ | HYPRE_StructMatrixCreate _ _ _
  | HYPRE_StructCreate _ _ => true
  | _ => false
  end.

Definition created_by {V} (n0 : nat) (calls : list (hypre_call V))
    : list handle :=
  omap id
    (imap (λ i call, if creates call then Some (object (n0 + i)) else None)
       calls).

Definition destroys {R} (call : other_call R) : option handle :=
  match call with
  | HYPRE_StructDestroy _ h | HYPRE_StructVectorDestroy h
  | HYPRE_StructMatrixDestroy h | HYPRE_StructStencilDestroy h
  | HYPRE_StructGridDestroy h => Some h
  | _ => None
  end.

(** The calls of the destructor of a solver of class [c] whose members hold
    these handles. *)
Definition destructor_calls {R} (c : solver_class)
    (solver x b A stencil grid : handle) : list (other_call R) :=
  [ HYPRE_StructDestroy c solver;
    HYPRE_StructVectorDestroy x;
    HYPRE_StructVectorDestroy b;
    HYPRE_StructMatrixDestroy A;
    HYPRE_StructStencilDestroy stencil;
    HYPRE_StructGridDestroy grid ].

(** ** Further sample inputs *)

(** An array with five values per entity over the sample layout, the entry
    at (i, j, k) being 100 i + 10 j + k, and the sample arrays with it. *)
Definition five_values : Array Z :=
  {| layout := sample_layout 5;
     view := λ idx, 100 * idx !!! 0%nat + 10 * idx !!! 1%nat + idx !!! 2%nat |}.

Definition arrays_with_values : gmap nat (Array Z) :=
  <[3%nat := five_values]> sample_arrays.

(** The PCG solver as the factory returns it and after [setMatrixStencil],
    in a world that also holds the values. *)
Definition pcg_built_with_values : state host_platform :=
  @State host_platform pcg_object
    (@World host_platform pcg_calls arrays_with_values).

Definition pcg_ready_with_values : state host_platform :=
  @State host_platform
    (set__A (Some (object 20))
       (set__stencil (Some (object 14))
          (set__stencil_size (Some 5) pcg_object)))
    (@World host_platform (pcg_calls ++ stencil_calls) arrays_with_values).

(** A HYPRE that reports success and hands back as solution the values of
    the vector set last. *)
Definition echoing_hypre : HypreLibrary Z := {|
  return_code := λ _ _, 0;
  written_values := λ log c,
    match c with
    | HYPRE_StructVectorGetBoxValues _ _ _ =>
        default []
          (last (omap (λ call,
                   match call with
                   | HYPRE_StructVectorSetBoxValues _ _ _ values => Some values
                   | _ => None
                   end) log))
    | _ => []
    end;
  error_description := λ _, "";
|}.

Definition echo_ready : state (sample_platform HostSpace echoing_hypre) :=
  @State (sample_platform HostSpace echoing_hypre)
    (set__A (Some (object 20))
       (set__stencil (Some (object 14))
          (set__stencil_size (Some 5) pcg_object)))
    (@World (sample_platform HostSpace echoing_hypre)
       (pcg_calls ++ stencil_calls) sample_arrays).

(** A Jacobi preconditioner as the factory returns it. *)
Definition jacobi_preconditioner : state host_platform :=
  sample_state HostSpace
    (set__solver (Some (object 0)) (new_object HypreStructJacobi 0%nat true))
    [ HYPRE_StructCreate HypreStructJacobi 0%nat;
      HYPRE_StructSetZeroGuess HypreStructJacobi (object 0) ].

(** A HYPRE that accepts every tuning call and reports seven iterations and
    a residual norm of 3, with integers standing in for [double]. *)
Definition agreeable_tuning (P : Platform) : TuningLibrary P := {|
  double := Z;
  HYPRE_Real := Z;
  to_HYPRE_Real := id;
  of_HYPRE_Real := id;
  other_return_code := λ _ _ _, 0;
  num_iterations_written := λ _ _ _, 7;
  norm_written := λ _ _ _, 3;
|}.

(** A solver state with no tuning call made yet. *)
Definition untuned (s : state host_platform)
    : whole_state host_platform (agreeable_tuning host_platform) :=
  WholeState s [].

(** * Proofs *)

(** ** Integer conversions *)

Lemma to_signed_id w z :
  0 < w → - 2 ^ (w - 1) ≤ z < 2 ^ (w - 1) → to_signed w z = z.
Proof.
  intros Hw Hz. unfold to_signed.
  assert (2 ^ w = 2 * 2 ^ (w - 1)) as Hpow.
  { replace w with (Z.succ (w - 1)) at 1 by lia. apply Z.pow_succ_r. lia. }
  rewrite Z.mod_small by lia. lia.
Qed.

Lemma to_unsigned_id w z : 0 ≤ z < 2 ^ w → to_unsigned w z = z.
Proof. intros Hz. unfold to_unsigned. by apply Z.mod_small. Qed.

(** ** A weakest-precondition reading of the monad *)

Section wp.
Context {P : Platform}.
Implicit Types (s : state P) (o : solver).

Lemma wp_bind {A B} (m : M (state P) A) (f : A → M (state P) B) Q s :
  wp m (λ r s', match r with
                | Ok a => wp (f a) Q s'
                | Throw e => Q (Throw e) s'
                | Undefined => Q Undefined s'
                end) s →
  wp (m ≫= f) Q s.
Proof.
  unfold wp, mbind, M_bind. by destruct (m s) as [[a|e|] s'].
Qed.

Lemma wp_ret {A} (a : A) (Q : outcome A → state P → Prop) s :
  Q (Ok a) s → wp (mret a) Q s.
Proof. done. Qed.

Lemma wp_throw {A} e (Q : outcome A → state P → Prop) s :
  Q (Throw e) s → wp (throw e) Q s.
Proof. done. Qed.

Lemma wp_undefined {A} (Q : outcome A → state P → Prop) s :
  Q Undefined s → wp undefined Q s.
Proof. done. Qed.

Lemma wp_member {A} (f : solver → A) Q s :
  Q (Ok (f (this s))) s → wp (member f) Q s.
Proof. done. Qed.

Lemma wp_assign (f : solver → solver) Q s :
  Q (Ok tt) (State (f (this s)) (env s)) → wp (assign f) Q s.
Proof. done. Qed.

Lemma wp_initialised {A} (f : solver → option A) Q s :
  match f (this s) with
  | Some a => Q (Ok a) s
  | None => Q Undefined s
  end →
  wp (initialised f) Q s.
Proof. unfold wp, initialised, read. by destruct (f (this s)). Qed.

Lemma wp_array id Q s :
  match arrays (env s) !! id with
  | Some a => Q (Ok a) s
  | None => Q Undefined s
  end →
  wp (array id) Q s.
Proof. unfold wp, array, read. by destruct (arrays (env s) !! id). Qed.

Lemma wp_call c Q s :
  Q (Ok (return_code (hypre P) (hypre_log (env s)) c)) (logged c s) →
  wp (call_hypre c) Q s.
Proof. done. Qed.

Lemma wp_create c Q s :
  Q (Ok (return_code (hypre P) (hypre_log (env s)) c,
         object (length (hypre_log (env s))))) (logged c s) →
  wp (hypre_create c) Q s.
Proof. done. Qed.

Lemma wp_read c buffer Q s :
  Q (Ok (return_code (hypre P) (hypre_log (env s)) c,
         fill_buffer (written_values (hypre P) (hypre_log (env s)) c) buffer))
    (logged c s) →
  wp (hypre_read c buffer) Q s.
Proof. done. Qed.

Lemma wp_check error (Q : outcome unit → state P → Prop) s :
  (to_int error ≤ 0 → Q (Ok tt) s) →
  (0 < to_int error → ∀ what,
     Q (Throw (runtime_error what))
       (logged (HYPRE_ClearError (to_int error))
          (logged (HYPRE_DescribeError (to_int error)) s))) →
  wp (checkHypreError error) Q s.
Proof.
  intros Hok Herr. unfold wp, checkHypreError. cbn zeta. case_bool_decide.
  - apply Herr. lia.
  - apply Hok. lia.
Qed.

Lemma wp_mono {A} (m : M (state P) A) (Q Q' : outcome A → state P → Prop) s :
  wp m Q s → (∀ r s', Q r s' → Q' r s') → wp m Q' s.
Proof. unfold wp. auto. Qed.

Lemma wp_run {A} (m : M (state P) A) (Q : outcome A → state P → Prop) s r s' :
  m s = (r, s') → Q r s' → wp m Q s.
Proof. unfold wp. by intros ->. Qed.

Lemma wp_result {A} (m : M (state P) A) (Q : outcome A → state P → Prop) s :
  wp m Q s → Q (m s).1 (m s).2.
Proof. done. Qed.

End wp.

Global Opaque wp.

(** One step of a computation: peel a bind, apply the rule of the
    operation at its head, and tidy up. *)
Ltac wp_head :=
  first
    [ apply wp_ret | apply wp_throw | apply wp_undefined | apply wp_member
    | apply wp_assign | apply wp_initialised | apply wp_array
    | apply wp_call | apply wp_create | apply wp_read ].
Ltac wp_step :=
  first [ apply wp_bind; wp_head | wp_head ];
  try unfold logged; cbn [this env hypre_log arrays].

(** ** Exceptions a computation cannot raise *)

Section never_throws.
Context {P : Platform}.
Implicit Types (e : exception).

Lemma nt_bind {A B} e (m : M (state P) A) (f : A → M (state P) B) :
  never_throws e m → (∀ a, never_throws e (f a)) → never_throws e (m ≫= f).
Proof.
  intros Hm Hf s. unfold mbind, M_bind. specialize (Hm s).
  destruct (m s) as [[a|e'|] s']; simpl in *; [apply Hf | | done].
  intros [= ->]. done.
Qed.

Lemma nt_ret {A} e (a : A) : never_throws e (mret a : M (state P) A).
Proof. done. Qed.

Lemma nt_undefined {A} e : never_throws e (undefined : M (state P) A).
Proof. done. Qed.

Lemma nt_throw {A} e e' : e' ≠ e → never_throws e (throw e' : M (state P) A).
Proof. intros Hne s [=]. done. Qed.

Lemma nt_member {A} e (f : solver → A) : never_throws e (@member P A f).
Proof. done. Qed.

Lemma nt_assign e (f : solver → solver) : never_throws e (@assign P f).
Proof. done. Qed.

Lemma nt_initialised {A} e (f : solver → option A) :
  never_throws e (@initialised P A f).
Proof. intros s. unfold initialised, read. by destruct (f (this s)). Qed.

Lemma nt_array e id : never_throws e (@array P id).
Proof. intros s. unfold array, read. by destruct (arrays (env s) !! id). Qed.

Lemma nt_store_view e id v : never_throws e (@store_view P id v).
Proof. done. Qed.

Lemma nt_call e c : never_throws e (@call_hypre P c).
Proof. done. Qed.

Lemma nt_create e c : never_throws e (@hypre_create P c).
Proof. done. Qed.

Lemma nt_read e c buffer : never_throws e (@hypre_read P c buffer).
Proof. done. Qed.

Lemma nt_check what error :
  never_throws (logic_error what) (@checkHypreError P error).
Proof. intros s. unfold checkHypreError. by case_bool_decide. Qed.

Lemma nt_for_each {A} e (body : nat → A → M (state P) unit) n xs :
  (∀ n x, never_throws e (body n x)) → never_throws e (for_each body n xs).
Proof.
  intros Hbody. revert n. induction xs as [|x xs IH]; intros n; simpl.
  - apply nt_ret.
  - apply nt_bind; [apply Hbody | intros _; apply IH].
Qed.

End never_throws.

Ltac nt_step :=
  first
    [ apply nt_ret | apply nt_undefined | apply nt_member | apply nt_assign
    | apply nt_initialised | apply nt_array | apply nt_store_view
    | apply nt_call | apply nt_create | apply nt_read | apply nt_check
    | apply nt_throw; discriminate
    | apply nt_for_each; intros ? ?
    | apply nt_bind; [| intros ?]
    | match goal with
      | |- never_throws _ (if ?b then _ else _) => destruct b
      | |- never_throws _ (match ?x with _ => _ end) => destruct x
      end ].
Ltac nt := repeat nt_step.

(** ** Error checking and gating *)

Lemma checkHypreError_ok {P} (error : Z) (s : state P) :
  to_int error ≤ 0 → checkHypreError error s = (Ok tt, s).
Proof.
  intros Hle. unfold checkHypreError. cbn zeta.
  rewrite bool_decide_eq_false_2; [done | lia].
Qed.

Lemma to_int_id z : is_int z → to_int z = z.
Proof. intros Hz. apply to_signed_id; [lia | exact Hz]. Qed.

(** C9. [checkHypreError] throws [std::runtime_error] if and only if the
    return code is strictly positive; for a code that is zero or negative it
    returns and changes nothing.  The return code is taken to be a value an
    [int] holds, which is what the function's parameter is. *)
Theorem checkHypreError_throws_iff_positive (P : Platform) (error : Z)
    (s : state P) :
  is_int error →
  ((∃ what, (checkHypreError error s).1 = Throw (runtime_error what))
     ↔ error > 0) ∧
  (error ≤ 0 → checkHypreError error s = (Ok tt, s)).
Proof.
  intros Hint. unfold checkHypreError. cbn zeta.
  rewrite (to_int_id error Hint).
  case_bool_decide as Hpos; split.
  - split; [done | intros _]. eexists. reflexivity.
  - lia.
  - split; [| done]. intros [what Hwhat]. discriminate Hwhat.
  - done.
Qed.

(** The gate at the head of a member function: on a preconditioner it
    throws, elsewhere the rest of the function runs. *)
Lemma gate_closed {P A} what (rest : M (state P) A) (s : state P) :
  _is_preconditioner (this s) = true →
  (is_preconditioner ← member _is_preconditioner;
   if (is_preconditioner : bool) then throw (logic_error what) else rest) s
  = (Throw (logic_error what), s).
Proof. intros H. unfold mbind, M_bind, member, gets. by rewrite H. Qed.

Lemma gate_open {P A} what (rest : M (state P) A) (s : state P) :
  _is_preconditioner (this s) = false →
  (is_preconditioner ← member _is_preconditioner;
   if (is_preconditioner : bool) then throw (logic_error what) else rest) s
  = rest s.
Proof. intros H. unfold mbind, M_bind, member, gets. by rewrite H. Qed.

(** ** Loops that fill an array *)

Lemma length_foldl_insert {A} (g : nat → nat) (f : nat → A) ds (l : list A) :
  length (foldl (λ acc d, <[g d := f d]> acc) l ds) = length l.
Proof.
  revert l. induction ds as [|d ds IH]; intros l; simpl; [done |].
  by rewrite IH, length_insert.
Qed.

Lemma lookup_foldl_insert {A} (g : nat → nat) (f : nat → A) ds (l : list A) d :
  d ∈ ds → (∀ d', d' ∈ ds → g d' = g d → d' = d) → (g d < length l)%nat →
  foldl (λ acc d, <[g d := f d]> acc) l ds !! g d = Some (f d).
Proof.
  induction ds as [|d1 ds IH] using rev_ind; intros Hin Hinj Hlen.
  - by apply elem_of_nil in Hin.
  - rewrite foldl_app. simpl. destruct (decide (g d1 = g d)) as [Heq|Hne].
    + assert (d1 = d) as ->.
      { apply Hinj; [| done]. apply elem_of_app. right. by apply list_elem_of_singleton. }
      apply list_lookup_insert_eq. by rewrite length_foldl_insert.
    + rewrite list_lookup_insert_ne by done.
      apply IH; [| intros d' Hd'; apply Hinj, elem_of_app; by left | done].
      apply elem_of_app in Hin as [Hin|Hin]; [done |].
      apply list_elem_of_singleton in Hin. congruence.
Qed.

Lemma foldl_insert_seq {A} (f : nat → A) (a : A) n :
  foldl (λ acc d, <[d := f d]> acc) (replicate n a) (seq 0 n) = f <$> seq 0 n.
Proof.
  apply list_eq. intros i. destruct (decide (i < n)%nat) as [Hlt|Hge].
  - pose proof (lookup_foldl_insert id f (seq 0 n) (replicate n a) i) as Hi.
    simpl in Hi. rewrite Hi;
      [| apply elem_of_seq; lia | done | by rewrite length_replicate].
    rewrite list_lookup_fmap, lookup_seq_lt by done. done.
  - rewrite !lookup_ge_None_2; [done | |].
    + rewrite length_fmap, length_seq. lia.
    + rewrite length_foldl_insert, length_replicate. lia.
Qed.

Lemma post_throw {P A} (Qok : A → state P → Prop) log c what s :
  0 < to_int (return_code (hypre P) log c) →
  post Qok (Throw (runtime_error what)) s.
Proof. intros H. split; [by exists log, c | by exists what]. Qed.

(** A checked call, [error = HYPRE_...( ... ); checkHypreError( error )]:
    the computation goes on when the code is not positive, and the throw
    is accounted for by the error HYPRE reported. *)
Ltac wp_check_step :=
  first [ apply wp_bind; apply wp_check | apply wp_check ];
  [ intros _; try unfold logged; cbn [this env hypre_log arrays]
  | intros; eapply post_throw; eassumption ].

Section ctor.
Context {P : Platform}.
Implicit Types (s : state P) (o : solver).

Lemma wp_extents_loop (layout : ArrayLayout) Q s :
  let n := num_space_dim layout in
  let gs := indexSpace_Own_Global layout in
  _lower (this s) = replicate n 0 → _upper (this s) = replicate n 0 →
  Q (Ok tt) (State (set__upper (grid_upper P layout)
                      (set__lower (grid_lower P layout) (this s))) (env s)) →
  wp (for_loop n (λ d,
        assign (λ o, set__lower
          (<[d := static_cast_HYPRE_Int P (min gs (n - d - 1))]> (_lower o)) o) ;;
        assign (λ o, set__upper
          (<[d := static_cast_HYPRE_Int P (max gs (n - d - 1) - 1)]> (_upper o))
          o))) Q s.
Proof.
  intros n gs HL HU HQ. eapply wp_run; [| exact HQ].
  set (fL := λ d, static_cast_HYPRE_Int P (min gs (n - d - 1))).
  set (fU := λ d, static_cast_HYPRE_Int P (max gs (n - d - 1) - 1)).
  set (body := λ d : nat, _).
  assert (∀ count first s0,
    for_loop_from first count body s0 =
    (Ok tt, State
       (set__upper (foldl (λ acc d, <[d := fU d]> acc) (_upper (this s0))
                      (seq first count))
          (set__lower (foldl (λ acc d, <[d := fL d]> acc) (_lower (this s0))
                         (seq first count)) (this s0)))
       (env s0))) as Hloop.
  { induction count as [|count IH]; intros first [o w].
    - by destruct o.
    - simpl. unfold mbind at 1, M_bind at 1.
      replace (body first (State o w)) with
        (Ok tt, State (set__upper (<[first := fU first]> (_upper o))
                         (set__lower (<[first := fL first]> (_lower o)) o)) w)
        by (by destruct o).
      rewrite IH. by destruct o. }
  unfold for_loop. rewrite Hloop, HL, HU. by rewrite !foldl_insert_seq.
Qed.

Lemma wp_create_vector set values (Qok : unit → state P → Prop) s grid :
  _grid (this s) = Some grid →
  (let n0 := length (hypre_log (env s)) in
   Qok tt (State (set (Some (object n0)) (this s))
             (World (hypre_log (env s) ++
                       vector_calls (_comm (this s)) grid (_lower (this s))
                         (_upper (this s)) values n0)
                    (arrays (env s))))) →
  wp (create_vector set values) (post Qok) s.
Proof.
  intros Hgrid HQ. destruct s as [o [log arrs]]. cbn in *. unfold create_vector.
  wp_step. wp_step. rewrite Hgrid. wp_step. wp_step. wp_step. wp_step.
  wp_check_step.
  wp_step.
  wp_check_step.
  wp_step.
  wp_check_step.
  wp_step.
  wp_check_step.
  unfold post. rewrite <- !app_assoc. exact HQ.
Qed.

Lemma wp_bind_post {A B} (m : M (state P) A) (f : A → M (state P) B)
    (Qok : B → state P → Prop) s :
  wp m (post (λ a s', wp (f a) (post Qok) s')) s →
  wp (m ≫= f) (post Qok) s.
Proof.
  intros H. apply wp_bind. eapply wp_mono; [exact H |].
  by intros [a|e|] s'.
Qed.

Lemma post_ok {A} (m : M (state P) A) (Qok : A → state P → Prop) s a s' :
  wp m (post Qok) s → m s = (Ok a, s') → Qok a s'.
Proof. intros H%wp_result Hm. by rewrite Hm in H. Qed.

Lemma post_no_error {A} (m : M (state P) A) (Qok : A → state P → Prop) s :
  (∀ log c, to_int (return_code (hypre P) log c) ≤ 0) →
  wp m (post Qok) s → ∃ a s', m s = (Ok a, s') ∧ Qok a s'.
Proof.
  intros Hok H%wp_result. destruct (m s) as [[a|e|] s']; simpl in H.
  - by exists a, s'.
  - destruct H as [(log & c & Hpos) _]. specialize (Hok log c). lia.
  - done.
Qed.

Lemma resize_nil n : resize n [] = replicate n 0.
Proof. unfold resize. by rewrite take_nil, Nat.sub_0_r. Qed.

Lemma base_ctor_preconditioner layout s :
  _is_preconditioner (this s) = true →
  HypreStructuredSolver_ctor layout s = (Ok tt, s).
Proof.
  intros H. unfold HypreStructuredSolver_ctor, mbind, M_bind, member, gets.
  by rewrite H.
Qed.

Lemma base_ctor_spec layout o w :
  _is_preconditioner o = false → _lower o = [] → _upper o = [] →
  wp (HypreStructuredSolver_ctor layout)
     (post (λ _ s',
        s' = State (base_object P layout (length (hypre_log w)) o)
               (World (hypre_log w ++
                         base_calls P layout (_comm o) (length (hypre_log w)))
                      (arrays w))))
     (State o w).
Proof.
  intros Hflag HL HU. destruct w as [log arrs]. unfold HypreStructuredSolver_ctor.
  wp_step. rewrite Hflag. cbn [negb].
  wp_step. wp_step. wp_step.
  wp_check_step.
  wp_step. wp_step.
  apply wp_bind, wp_extents_loop; cbn [this env].
  { destruct o; cbn in *. subst. apply resize_nil. }
  { destruct o; cbn in *. subst. apply resize_nil. }
  wp_step. wp_step. wp_step. wp_check_step.
  wp_step. wp_check_step.
  wp_step. wp_check_step.
  apply wp_bind_post, (wp_create_vector _ _ _ _ (object (length log)));
    [by destruct o |]. cbn [this env hypre_log arrays].
  apply (wp_create_vector _ _ _ _ (object (length log))); [by destruct o |].
  cbn [this env hypre_log arrays].
  rewrite <- !app_assoc, !length_app. cbn [length app].
  destruct o; cbn in *; subst. unfold base_object, base_calls, zero_values.
  cbn. repeat f_equal; lia.
Qed.

Lemma base_ctor_kind layout c mpi_comm flag w :
  wp (HypreStructuredSolver_ctor layout)
     (post (λ _ s', same_kind c flag (this s')))
     (State (new_object c mpi_comm flag) w).
Proof.
  destruct flag.
  - eapply wp_run; [by apply base_ctor_preconditioner | done].
  - eapply wp_mono; [by apply base_ctor_spec |].
    intros [[]|e|] s'; cbn; [| done | done]. by intros ->.
Qed.

Lemma wp_create_solver c layout (Qok : handle → state P → Prop) s :
  (let n0 := length (hypre_log (env s)) in
   Qok (object n0)
       (State (set__solver (Some (object n0)) (this s))
          (World (hypre_log (env s) ++
                    [HYPRE_StructCreate c (comm (globalGrid layout))])
                 (arrays (env s))))) →
  wp (create_solver c layout) (post Qok) s.
Proof.
  intros HQ. unfold create_solver.
  wp_step. wp_step. wp_check_step. wp_step. exact HQ.
Qed.

Lemma same_kind_set__solver c flag v o :
  same_kind c flag o → same_kind c flag (set__solver v o).
Proof. by destruct o. Qed.

Lemma ctor_accepted c layout flag w :
  accepts c flag = true →
  wp (constructor_of c layout flag)
     (post (λ _ s', same_kind c flag (this s')))
     (State (new_object c (comm (globalGrid layout)) flag) w).
Proof.
  intros Hacc.
  assert (∀ k : M (state P) unit,
    (∀ s, same_kind c flag (this s) →
          wp k (post (λ _ s', same_kind c flag (this s'))) s) →
    wp (HypreStructuredSolver_ctor layout ;; k)
       (post (λ _ s', same_kind c flag (this s')))
       (State (new_object c (comm (globalGrid layout)) flag) w)) as Hbase.
  { intros k Hk. apply wp_bind_post.
    eapply wp_mono; [apply base_ctor_kind |].
    intros [[]|e|] s'; cbn; [apply Hk | done | done]. }
  destruct c, flag; try discriminate Hacc; apply Hbase; intros s Hs;
    cbn [negb].
  - apply wp_bind_post, wp_create_solver. cbn.
    wp_step. wp_step. by apply same_kind_set__solver.
  - apply wp_bind_post, wp_create_solver. cbn.
    wp_step. by apply same_kind_set__solver.
  - apply wp_bind_post, wp_create_solver. cbn.
    wp_step. by apply same_kind_set__solver.
  - apply wp_bind_post, wp_create_solver. cbn.
    wp_step. wp_check_step. by apply same_kind_set__solver.
  - apply wp_bind_post, wp_create_solver. cbn.
    wp_step. by apply same_kind_set__solver.
  - apply wp_bind_post, wp_create_solver. cbn.
    wp_step. wp_check_step. by apply same_kind_set__solver.
  - apply wp_bind_post, wp_create_solver. cbn.
    wp_step. by apply same_kind_set__solver.
  - apply wp_bind_post, wp_create_solver. cbn.
    wp_step. wp_check_step. by apply same_kind_set__solver.
  - apply wp_bind_post, wp_create_solver. cbn.
    wp_step. by apply same_kind_set__solver.
  - by wp_step.
Qed.

End ctor.

Section factory.
Context {P : Platform}.

Lemma constructor_splits c layout (flag : bool) :
  @constructor_of P c layout flag
  = (HypreStructuredSolver_ctor layout ;; ctor_body c layout flag).
Proof. by destruct c. Qed.

(** What [~HypreStructuredSolver] does to the solver's state: nothing.  On
    a preconditioner it returns without a call, on a solver whose [_A] was
    never assigned its behaviour is undefined, and it never throws. *)
Lemma base_dtor_cases {T : TuningLibrary P} (t : whole_state P T) :
  ∃ r l',
    HypreStructuredSolver_dtor t = (r, WholeState (core t) l') ∧
    (_is_preconditioner (this (core t)) = true → r = Ok tt ∧ l' = other_log t) ∧
    (_is_preconditioner (this (core t)) = false →
     _A (this (core t)) = None → r = Undefined) ∧
    (∀ e, r ≠ Throw e).
Proof.
  destruct t as [[[c m flag grid lo up stencil size A b x pc sv] w] l].
  destruct flag, x as [x |], b as [b |], A as [A |], stencil as [stencil |],
    grid as [grid |]; eexists _, _; (split; [reflexivity |]); cbn;
    repeat split; done.
Qed.

Lemma base_dtor_same {T T' : TuningLibrary P} (s : state P) l l' :
  (HypreStructuredSolver_dtor (T := T) (WholeState s l)).1
  = (HypreStructuredSolver_dtor (T := T') (WholeState s l')).1.
Proof.
  destruct s as [[c m flag grid lo up stencil size A b x pc sv] w].
  by destruct flag, x as [x |], b as [b |], A as [A |],
    stencil as [stencil |], grid as [grid |].
Qed.

(** [make_shared] and [make_shared_unwinding] agree on the outcome and on
    the world, whatever log of destructor calls the latter starts from. *)
Lemma make_shared_unwinding_world {T : TuningLibrary P} c layout
    (flag : bool) (w : world P) (others : list (other_call (HYPRE_Real T))) :
  make_shared c layout flag w
  = ((make_shared_unwinding c layout flag (w, others)).1,
     (make_shared_unwinding c layout flag (w, others)).2.1).
Proof.
  unfold make_shared, make_shared_unwinding.
  destruct (HypreStructuredSolver_ctor layout _) as [[[]|e|] s1]; [| done..].
  destruct (ctor_body c layout flag s1) as [[[]|e|] s2]; [done | | done].
  pose proof (base_dtor_same (T := unanswered P) (T' := T) s2 [] others)
    as Hsame.
  destruct (base_dtor_cases (T := unanswered P) (WholeState s2 []))
    as (r & l1 & Hrun & _).
  destruct (base_dtor_cases (WholeState s2 others)) as (r' & l2 & Hrun' & _).
  rewrite Hrun, Hrun' in *. cbn in Hsame. subst r'.
  by destruct r as [[]|e'|].
Qed.

Lemma make_shared_ok c layout flag (w : world P) o w' :
  make_shared c layout flag w = (Ok o, w') ↔
  constructor_of c layout flag
    (State (new_object c (comm (globalGrid layout)) flag) w)
    = (Ok tt, State o w').
Proof.
  unfold make_shared, make_shared_unwinding. rewrite constructor_splits.
  unfold mbind at 1, M_bind at 1.
  destruct (HypreStructuredSolver_ctor layout _) as [[[]|e|] s1];
    [| split; intros [=] ..].
  destruct (ctor_body c layout flag s1) as [[[]|e|] [o2 w2]].
  - cbn. split; intros [=]; by subst.
  - destruct (base_dtor_cases (T := unanswered P) (WholeState (State o2 w2) []))
      as (r & l1 & -> & _). by destruct r as [[]|e'|]; split; intros [=].
  - split; intros [=].
Qed.

(** A construction the class rejects because of the requested use ends in
    the constructor's [std::logic_error] when the object was to be a
    preconditioner: the unwinding destructor makes no call. *)
Lemma make_shared_rejected_preconditioner c layout (w : world P) :
  accepts c true = false →
  ∃ what, make_shared c layout true w = (Throw (logic_error what), w) ∧
          ctor_body c layout true
            (State (new_object c (comm (globalGrid layout)) true) w)
          = (Throw (logic_error what),
             State (new_object c (comm (globalGrid layout)) true) w).
Proof.
  intros Hacc. unfold make_shared, make_shared_unwinding.
  rewrite base_ctor_preconditioner by done.
  destruct c; try done; eexists; (split; [| reflexivity]); by destruct w.
Qed.

(** A diagonal preconditioner built as a solver: the body of the constructor
    throws on the complete base-class subobject, and the unwinding
    destructor reads [_A], which no constructor assigns. *)
Lemma make_shared_Diagonal_solver layout (w : world P) :
  no_error P →
  HypreStructDiagonal_ctor layout false
    (State (new_object HypreStructDiagonal (comm (globalGrid layout)) false) w)
  = (Throw (logic_error "Diagonal preconditioner cannot be used as a solver"),
     State (base_object P layout (length (hypre_log w))
              (new_object HypreStructDiagonal (comm (globalGrid layout)) false))
       (World (hypre_log w ++
               base_calls P layout (comm (globalGrid layout))
                 (length (hypre_log w)))
          (arrays w))) ∧
  make_shared HypreStructDiagonal layout false w
  = (Undefined,
     World (hypre_log w ++
            base_calls P layout (comm (globalGrid layout))
              (length (hypre_log w)))
       (arrays w)).
Proof.
  intros Hok.
  destruct (post_no_error _ _ _ Hok
              (base_ctor_spec layout
                 (new_object HypreStructDiagonal (comm (globalGrid layout))
                    false) w eq_refl eq_refl eq_refl))
    as ([] & s' & Hrun & ->).
  split.
  - unfold HypreStructDiagonal_ctor, mbind, M_bind. by rewrite Hrun.
  - unfold make_shared, make_shared_unwinding. rewrite Hrun.
    cbn [ctor_body negb throw].
    match goal with
    | |- context [HypreStructuredSolver_dtor ?t] =>
        destruct (base_dtor_cases t) as (r & l1 & -> & _ & Hundef & _)
    end.
    by rewrite Hundef.
Qed.

Lemma factory_dispatch c layout flag :
  @createHypreStructuredSolver P (solver_name c) layout flag
  = make_shared c layout flag.
Proof. by destruct c. Qed.

Lemma factory_invalid solver_type layout flag (w : world P) :
  (∀ c, solver_type ≠ solver_name c) →
  createHypreStructuredSolver solver_type layout flag w
  = (Throw (runtime_error "Invalid solver type"), w).
Proof.
  intros Hno. unfold createHypreStructuredSolver.
  repeat match goal with
  | |- context [String.eqb ?name solver_type] =>
      destruct (String.eqb_spec name solver_type) as [<-|_]
  end; try done.
  - by destruct (Hno HypreStructPCG).
  - by destruct (Hno HypreStructGMRES).
  - by destruct (Hno HypreStructBiCGSTAB).
  - by destruct (Hno HypreStructPFMG).
  - by destruct (Hno HypreStructSMG).
  - by destruct (Hno HypreStructJacobi).
  - by destruct (Hno HypreStructDiagonal).
Qed.

Lemma ctor_rejected c layout flag (s s' : state P) :
  accepts c flag = false → constructor_of c layout flag s ≠ (Ok tt, s').
Proof.
  intros Hacc.
  destruct c, flag; try discriminate Hacc; cbn;
    unfold HypreStructPCG_ctor, HypreStructGMRES_ctor,
      HypreStructBiCGSTAB_ctor, HypreStructDiagonal_ctor, mbind, M_bind;
    by destruct (HypreStructuredSolver_ctor layout s) as [[[]|e|] s1].
Qed.

Lemma ctor_kind c layout flag (w : world P) o w' :
  constructor_of c layout flag
    (State (new_object c (comm (globalGrid layout)) flag) w)
    = (Ok tt, State o w') →
  same_kind c flag o ∧ accepts c flag = true.
Proof.
  intros Hrun. destruct (accepts c flag) eqn:Hacc.
  - split; [| done].
    by apply (post_ok _ _ _ _ _ (ctor_accepted c layout flag w Hacc) Hrun).
  - by apply ctor_rejected in Hrun.
Qed.

Lemma factory_kind c layout flag (w : world P) o w' :
  createHypreStructuredSolver (solver_name c) layout flag w = (Ok o, w') →
  same_kind c flag o ∧ accepts c flag = true.
Proof.
  rewrite factory_dispatch. intros Hrun%make_shared_ok. by eapply ctor_kind.
Qed.

Lemma factory_returns c layout flag (w : world P) :
  accepts c flag = true → no_error P →
  ∃ o w', createHypreStructuredSolver (solver_name c) layout flag w = (Ok o, w').
Proof.
  intros Hacc Hok. rewrite factory_dispatch.
  destruct (post_no_error _ _ _ Hok (ctor_accepted c layout flag w Hacc))
    as ([] & [o w'] & Hrun & _).
  exists o, w'. by apply make_shared_ok.
Qed.

End factory.

(** ** The factory *)

(** C1 (amended). [createHypreStructuredSolver] builds, for each of the
    seven names, an object of the class of that name: whatever it returns
    has that class and the requested use, it does return when the class
    accepts the requested use and HYPRE reports no error, and it returns
    nothing when the class rejects the requested use.  For every other
    string it throws [std::runtime_error( "Invalid solver type" )] and
    changes nothing. *)
Theorem factory_dispatches_on_name (P : Platform) (solver_type : string)
    (layout : ArrayLayout) (is_preconditioner : bool) (w : world P) :
  (∀ c, solver_type = solver_name c →
     (∀ o w',
        createHypreStructuredSolver solver_type layout is_preconditioner w
          = (Ok o, w') →
        dynamic_class o = c ∧ isPreconditioner o = is_preconditioner ∧
        accepts c is_preconditioner = true) ∧
     (accepts c is_preconditioner = true → no_error P →
      ∃ o w',
        createHypreStructuredSolver solver_type layout is_preconditioner w
          = (Ok o, w'))) ∧
  ((∀ c, solver_type ≠ solver_name c) →
   createHypreStructuredSolver solver_type layout is_preconditioner w
     = (Throw (runtime_error "Invalid solver type"), w)).
Proof.
  split; [| apply factory_invalid].
  intros c ->. split.
  - intros o w' Hrun. by destruct (factory_kind _ _ _ _ _ _ Hrun) as [[? ?] ?].
  - apply factory_returns.
Qed.


(** ** The grid the constructor hands to HYPRE *)

(** C3. The constructor of a solver that is not a preconditioner passes to
    [HYPRE_StructGridSetExtents] the owned global index space with its
    dimensions reversed: position [d] of the lower bound is the minimum in
    dimension [num_space_dim - d - 1], and position [d] of the upper bound is
    the maximum in that dimension minus one, the last index.  The bounds are
    taken to be values a [HYPRE_Int] holds. *)
Theorem grid_extents_reversed (P : Platform) (c : solver_class)
    (layout : ArrayLayout) (w : world P) (s' : state P) :
  let n := num_space_dim layout in
  let global_space := indexSpace_Own_Global layout in
  0 < HYPRE_Int_bits P →
  (∀ d, (d < n)%nat →
     HYPRE_Int_holds P (min global_space d) ∧
     HYPRE_Int_holds P (max global_space d - 1)) →
  HypreStructuredSolver_ctor layout
    (State (new_object c (comm (globalGrid layout)) false) w) = (Ok tt, s') →
  ∃ lower upper rest,
    hypre_log (env s') =
      hypre_log w ++
      HYPRE_StructGridCreate (comm (globalGrid layout)) (Z.of_nat n)
      :: HYPRE_StructGridSetExtents (object (length (hypre_log w))) lower upper
      :: rest ∧
    _lower (this s') = lower ∧ _upper (this s') = upper ∧
    length lower = n ∧ length upper = n ∧
    ∀ d, (d < n)%nat →
      lower !! d = Some (min global_space (n - d - 1)) ∧
      upper !! d = Some (max global_space (n - d - 1) - 1).
Proof.
  intros n gs Hbits Hholds Hrun.
  pose proof (post_ok _ _ _ _ _
    (base_ctor_spec layout (new_object c (comm (globalGrid layout)) false) w
       eq_refl eq_refl eq_refl) Hrun) as ->.
  cbn [this env hypre_log]. eexists _, _, _. split; [reflexivity |].
  split; [done |]. split; [done |].
  unfold grid_lower, grid_upper. rewrite !length_fmap, !length_seq.
  split; [done |]. split; [done |]. intros d Hd.
  rewrite !list_lookup_fmap, !lookup_seq_lt by done. cbn.
  destruct (Hholds (n - d - 1)%nat) as [Hmin Hmax]; [lia |].
  unfold static_cast_HYPRE_Int. fold n gs. by rewrite !to_signed_id.
Qed.

(** C4. The constructor of a solver that is not a preconditioner passes the
    periodicity to [HYPRE_StructGridSetPeriodic] with the dimensions
    reversed: position [num_space_dim - 1 - d] holds the global number of
    entities in dimension [d] when the global grid is periodic in [d], and
    0 when it is not. *)
Theorem grid_periodicity_reversed (P : Platform) (c : solver_class)
    (layout : ArrayLayout) (w : world P) (s' : state P) :
  let n := num_space_dim layout in
  let global_grid := globalGrid layout in
  HypreStructuredSolver_ctor layout
    (State (new_object c (comm global_grid) false) w) = (Ok tt, s') →
  ∃ create extents periodic rest,
    hypre_log (env s') =
      hypre_log w ++
      create :: extents
      :: HYPRE_StructGridSetPeriodic (object (length (hypre_log w))) periodic
      :: rest ∧
    length periodic = n ∧
    ∀ d, (d < n)%nat →
      periodic !! (n - 1 - d)%nat =
        Some (if isPeriodic global_grid d
              then globalNumEntity global_grid d else 0).
Proof.
  intros n gg Hrun.
  pose proof (post_ok _ _ _ _ _
    (base_ctor_spec layout (new_object c (comm (globalGrid layout)) false) w
       eq_refl eq_refl eq_refl) Hrun) as ->.
  cbn [this env hypre_log]. eexists _, _, _, _. split; [reflexivity |].
  unfold periodicity. fold n gg. split.
  - by rewrite length_foldl_insert, length_replicate.
  - intros d Hd.
    apply (lookup_foldl_insert (λ d, (n - 1 - d)%nat)
             (λ d, if isPeriodic gg d then globalNumEntity gg d else 0)).
    + apply elem_of_seq. lia.
    + intros d' Hd'%elem_of_seq. lia.
    + rewrite length_replicate. lia.
Qed.

Lemma gate_open_nt {P A} what (rest : M (state P) A) (s : state P) :
  _is_preconditioner (this s) = false →
  never_throws (logic_error what) rest →
  ((is_preconditioner ← member _is_preconditioner;
    if (is_preconditioner : bool) then throw (logic_error what) else rest) s).1
  ≠ Throw (logic_error what).
Proof. intros Hflag Hrest. rewrite gate_open by done. apply Hrest. Qed.

Lemma solver_name_known (solver_type : string) :
  (∃ c, solver_type = solver_name c) ∨ (∀ c, solver_type ≠ solver_name c).
Proof.
  destruct (decide (solver_type ∈ solver_name <$>
              [HypreStructPCG; HypreStructGMRES; HypreStructBiCGSTAB;
               HypreStructPFMG; HypreStructSMG; HypreStructJacobi;
               HypreStructDiagonal])) as [Hin|Hout].
  - left. apply list_elem_of_fmap in Hin as (c & -> & _). by exists c.
  - right. intros c ->. apply Hout, list_elem_of_fmap. exists c.
    split; [done |]. destruct c; set_solver.
Qed.

(** C8. A solver the factory returns has the use it was constructed with.
    On a solver constructed as a preconditioner each of [setMatrixStencil],
    [setMatrixValues], [setPreconditioner], [setup] and [solve] throws
    [std::logic_error] with nothing changed: no HYPRE call is logged and the
    object and the arrays are as before.  On a solver constructed otherwise
    none of them throws that error. *)
Theorem preconditioner_gate (P : Platform) (s : state P) (NumSpaceDim : nat)
    (stencil : list (list Z)) (is_symmetric : bool) (values b x : nat)
    (preconditioner : option solver) :
  (∀ solver_type layout is_preconditioner (w w' : world P) o,
     createHypreStructuredSolver solver_type layout is_preconditioner w
       = (Ok o, w') →
     isPreconditioner o = is_preconditioner) ∧
  (isPreconditioner (this s) = true →
     setMatrixStencil NumSpaceDim stencil is_symmetric s
       = (Throw (logic_error
                   "Cannot call setMatrixStencil() on preconditioners"), s) ∧
     setMatrixValues values s
       = (Throw (logic_error
                   "Cannot call setMatrixValues() on preconditioners"), s) ∧
     setPreconditioner preconditioner s
       = (Throw (logic_error
                   "Cannot call setPreconditioner() on a preconditioner"), s) ∧
     setup s
       = (Throw (logic_error "Cannot call setup() on preconditioners"), s) ∧
     solve b x s
       = (Throw (logic_error "Cannot call solve() on preconditioners"), s)) ∧
  (isPreconditioner (this s) = false →
     (setMatrixStencil NumSpaceDim stencil is_symmetric s).1
       ≠ Throw (logic_error
                  "Cannot call setMatrixStencil() on preconditioners") ∧
     (setMatrixValues values s).1
       ≠ Throw (logic_error
                  "Cannot call setMatrixValues() on preconditioners") ∧
     (setPreconditioner preconditioner s).1
       ≠ Throw (logic_error
                  "Cannot call setPreconditioner() on a preconditioner") ∧
     (setup s).1
       ≠ Throw (logic_error "Cannot call setup() on preconditioners") ∧
     (solve b x s).1
       ≠ Throw (logic_error "Cannot call solve() on preconditioners")).
Proof.
  split; [| split].
  - intros solver_type layout flag w w' o Hrun.
    destruct (solver_name_known solver_type) as [[c ->]|Hno].
    + by destruct (factory_kind _ _ _ _ _ _ Hrun) as [[_ ?] _].
    + by rewrite factory_invalid in Hrun.
  - intros Hflag. repeat split; by apply gate_closed.
  - intros Hflag.
    repeat split; (apply gate_open_nt; [done |]); unfold setPreconditionerImpl, setupImpl, solveImpl; nt.
Qed.

(** C10 (amended). On a solver that is not a preconditioner the shape of
    the arrays is checked before HYPRE is touched.  [setMatrixValues] throws
    [std::runtime_error] when the degrees of freedom per entity of the
    values differ from the stencil size set before (a size an [int] holds);
    [solve] throws [std::runtime_error] when those of [b] or of [x] differ
    from 1.  In both cases nothing is changed: no HYPRE call is logged. *)
Theorem shape_checked_first (P : Platform) (s : state P) (values b x : nat) :
  isPreconditioner (this s) = false →
  (∀ values_array stencil_size,
     arrays (env s) !! values = Some values_array →
     _stencil_size (this s) = Some stencil_size →
     0 ≤ stencil_size < 2 ^ 31 →
     dofsPerEntity (layout values_array) ≠ stencil_size →
     setMatrixValues values s
       = (Throw (runtime_error
                   "Number of matrix values does not match stencil size"), s)) ∧
  (∀ b_array x_array,
     arrays (env s) !! b = Some b_array →
     arrays (env s) !! x = Some x_array →
     dofsPerEntity (layout b_array) ≠ 1 ∨ dofsPerEntity (layout x_array) ≠ 1 →
     solve b x s
       = (Throw (runtime_error "Structured solver only for scalar fields"), s)).
Proof.
  intros Hflag. split.
  - intros a k Ha Hk Hrange Hdofs. unfold setMatrixValues.
    rewrite gate_open by done.
    unfold mbind, M_bind, array, initialised, read. rewrite Ha, Hk.
    unfold to_int. rewrite to_signed_id by lia.
    by rewrite bool_decide_eq_true_2.
  - intros ab ax Hb Hx Hdofs. unfold solve. rewrite gate_open by done.
    unfold mbind, M_bind, array, read. rewrite Hb, Hx.
    destruct Hdofs as [Hne|Hne].
    + by rewrite (bool_decide_eq_true_2 _ Hne).
    + rewrite (bool_decide_eq_true_2 (dofsPerEntity (layout ax) ≠ 1) Hne).
      by rewrite orb_true_r.
Qed.

(** C6 (amended). [setPreconditioner] on a solver that is not a
    preconditioner: when [p] is not a preconditioner it throws
    [std::logic_error( "Not a preconditioner" )] and changes nothing; when
    [p] is one and the solver is a PCG, GMRES or BiCGSTAB solver, it stores
    [p] and installs it with [HYPRE_Struct...SetPrecond], returning when
    that call reports no error; when [p] is one and the solver is a PFMG,
    SMG or Jacobi solver, it throws [std::logic_error], these classes not
    supporting preconditioning. *)
Theorem setPreconditioner_installs (P : Platform) (s : state P) (p : solver) :
  isPreconditioner (this s) = false →
  (isPreconditioner p = false →
     setPreconditioner (Some p) s
       = (Throw (logic_error "Not a preconditioner"), s)) ∧
  (isPreconditioner p = true →
     match dynamic_class (this s) with
     | (HypreStructPCG | HypreStructGMRES | HypreStructBiCGSTAB) as c =>
         ∀ solver precond_solver,
           _solver (this s) = Some solver →
           getHypreSolver p = Some precond_solver →
           let install :=
             HYPRE_StructSetPrecond c solver (getHypreSolveFunction p)
               (getHypreSetupFunction p) precond_solver in
           to_int (return_code (hypre P) (hypre_log (env s)) install) ≤ 0 →
           setPreconditioner (Some p) s
             = (Ok tt,
                State (set__preconditioner (Some p) (this s))
                  (World (hypre_log (env s) ++ [install]) (arrays (env s))))
     | HypreStructPFMG =>
         (setPreconditioner (Some p) s).1
           = Throw (logic_error
                      "HYPRE PFMG solver does not support preconditioning.")
     | HypreStructSMG =>
         (setPreconditioner (Some p) s).1
           = Throw (logic_error
                      "HYPRE SMG solver does not support preconditioning.")
     | HypreStructJacobi =>
         (setPreconditioner (Some p) s).1
           = Throw (logic_error
                      "HYPRE Jacobi solver does not support preconditioning.")
     | HypreStructDiagonal =>
         (setPreconditioner (Some p) s).1
           = Throw (logic_error
                      "Diagonal preconditioner does not support preconditioning.")
     end).
Proof.
  intros Hflag. unfold setPreconditioner. rewrite gate_open by done.
  unfold isPreconditioner. split; intros Hp; rewrite Hp; cbn [negb]; [done |].
  destruct s as [o w], o as [c ? ? ? ? ? ? ? ? ? ? ? sv]. cbn in *.
  unfold setPreconditionerImpl, mbind, M_bind, assign, modify, member, gets,
    initialised, read.
  destruct c; cbn; try done.
  all: intros solver precond_solver -> -> Hrc; cbn;
    by rewrite checkHypreError_ok.
Qed.

(** ** The stencil *)

Section stencil.
Context {P : Platform}.

Lemma to_HYPRE_Int_small z :
  32 ≤ HYPRE_Int_bits P → 0 ≤ z < 2 ^ 31 →
  to_HYPRE_Int P (to_unsigned_int z) = z.
Proof.
  intros Hbits Hz. unfold to_unsigned_int. rewrite to_unsigned_id by lia.
  unfold to_HYPRE_Int. apply to_signed_id; [lia |].
  assert (2 ^ 31 ≤ 2 ^ (HYPRE_Int_bits P - 1))
    by (apply Z.pow_le_mono_r; lia).
  lia.
Qed.

Lemma offset_of_entry (N : nat) (entry : list Z) :
  length entry = N → (λ d, entry !!! d) <$> seq 0 N = entry.
Proof.
  intros <-. apply list_eq. intros i.
  rewrite list_lookup_fmap. destruct (entry !! i) as [z|] eqn:Hi.
  - rewrite lookup_seq_lt by (by eapply lookup_lt_Some). cbn.
    by rewrite (list_lookup_total_correct _ _ _ Hi).
  - rewrite lookup_seq_ge; [done |]. by apply lookup_ge_None.
Qed.

Lemma wp_stencil_loop (stencil_handle : handle) (N : nat) xs :
  ∀ (n : nat) (Qok : unit → state P → Prop) (s : state P),
  32 ≤ HYPRE_Int_bits P → Z.of_nat (n + length xs) ≤ 2 ^ 31 →
  Forall (λ entry, length entry = N) xs →
  Qok tt (State (this s)
            (World (hypre_log (env s) ++
                      imap (λ i entry,
                              HYPRE_StructStencilSetElement stencil_handle
                                (Z.of_nat (n + i)) entry) xs)
                   (arrays (env s)))) →
  wp (for_each (λ n entry,
        let offset := (λ d, entry !!! d) <$> seq 0 N in
        error ← call_hypre
          (HYPRE_StructStencilSetElement stencil_handle
             (to_HYPRE_Int P (to_unsigned_int (Z.of_nat n))) offset);
        checkHypreError error) n xs) (post Qok) s.
Proof.
  induction xs as [|x xs IH]; intros n Qok s Hbits Hlen Hall HQ.
  - cbn in *. wp_step. rewrite app_nil_r in HQ. by destruct s as [? []].
  - apply Forall_cons in Hall as [Hx Hall]. cbn [for_each length] in *.
    apply wp_bind_post. cbv zeta. wp_step. wp_check_step.
    apply IH; [done | lia | done |]. cbn [this env hypre_log arrays].
    rewrite to_HYPRE_Int_small, offset_of_entry by (done || lia).
    rewrite <- app_assoc. cbn [app imap] in *.
    rewrite Nat.add_0_r in HQ.
    erewrite imap_ext; [exact HQ |]. intros i y _. cbn. do 2 f_equal. lia.
Qed.

End stencil.

(** C5. On a solver that is not a preconditioner, [setMatrixStencil] records
    the length of the stencil vector as the stencil size, creates a HYPRE
    stencil of that size, registers element [n] with the [n]-th entry of the
    vector as its offset for [n] from 0 upwards in that order, creates the
    matrix over the solver's grid with that stencil and sets its symmetry
    flag to [is_symmetric].  This is what every returning call has done, and
    the call returns when HYPRE reports no error.  The vector has
    [NumSpaceDim] offsets per entry and a length an [int] holds. *)
Theorem setMatrixStencil_registers_stencil (P : Platform) (s : state P)
    (NumSpaceDim : nat) (stencil : list (list Z)) (is_symmetric : bool)
    (grid : handle) :
  32 ≤ HYPRE_Int_bits P →
  Z.of_nat (length stencil) < 2 ^ 31 →
  Forall (λ entry, length entry = NumSpaceDim) stencil →
  isPreconditioner (this s) = false →
  _grid (this s) = Some grid →
  let n0 := length (hypre_log (env s)) in
  let stencil_handle := object n0 in
  let A := object (n0 + 1 + length stencil) in
  let after :=
    State
      (set__A (Some A)
         (set__stencil (Some stencil_handle)
            (set__stencil_size (Some (Z.of_nat (length stencil))) (this s))))
      (World
         (hypre_log (env s) ++
          HYPRE_StructStencilCreate (Z.of_nat NumSpaceDim)
            (Z.of_nat (length stencil))
          :: imap (λ n offset,
                     HYPRE_StructStencilSetElement stencil_handle (Z.of_nat n)
                       offset) stencil
          ++ [HYPRE_StructMatrixCreate (_comm (this s)) grid stencil_handle;
              HYPRE_StructMatrixSetSymmetric A is_symmetric])
         (arrays (env s))) in
  (∀ s', setMatrixStencil NumSpaceDim stencil is_symmetric s = (Ok tt, s') →
         s' = after) ∧
  (no_error P →
   setMatrixStencil NumSpaceDim stencil is_symmetric s = (Ok tt, after)).
Proof.
  intros Hbits Hlen Hall Hflag Hgrid n0 stencil_handle A after.
  assert (wp (setMatrixStencil NumSpaceDim stencil is_symmetric)
             (post (λ _ s', s' = after)) s) as Hspec.
  { unfold isPreconditioner in Hflag.
    unfold setMatrixStencil. wp_step. rewrite Hflag.
    wp_step. wp_step.
    replace (_stencil_size
               (set__stencil_size
                  (Some (to_unsigned_int (Z.of_nat (length stencil))))
                  (this s)))
      with (Some (to_unsigned_int (Z.of_nat (length stencil))))
      by (by destruct (this s)).
    wp_step. wp_step. wp_check_step.
    apply wp_bind_post, wp_stencil_loop; [done | cbn; lia | done |].
    cbn [this env hypre_log arrays].
    wp_step. wp_step.
    replace (_grid _) with (Some grid) by (by destruct (this s)).
    wp_step. wp_step. wp_check_step. wp_step. wp_check_step.
    unfold post, after, A, stencil_handle, n0.
    rewrite to_HYPRE_Int_small by lia.
    rewrite <- !app_assoc, !length_app, length_imap. cbn [length app].
    unfold to_unsigned_int. rewrite to_unsigned_id by lia.
    destruct s as [o [log arrs]], o. cbn.
    by replace (length log + S (length stencil))%nat
      with (length log + 1 + length stencil)%nat by lia. }
  split.
  - intros s' Hrun. by apply (post_ok _ _ _ _ _ Hspec Hrun).
  - intros Hok.
    by destruct (post_no_error _ _ _ Hok Hspec) as ([] & s' & -> & ->).
Qed.

(** ** Layout-right boxes *)

Lemma volume_nonneg extents : 0 ≤ volume extents.
Proof. induction extents as [|e es IH]; cbn; lia. Qed.

Lemma length_enumerate_right extents :
  length (enumerate_right extents) = Z.to_nat (volume extents).
Proof.
  induction extents as [|e es IH]; [done |]. cbn [enumerate_right volume].
  pose proof (volume_nonneg es).
  rewrite Z2Nat.inj_mul, <- IH by lia.
  replace (Z.to_nat (Z.max 0 e)) with (length (seqZ 0 e))
    by (rewrite length_seqZ; lia).
  generalize (seqZ 0 e). intros l. induction l as [|i l IHl]; [done |].
  cbn. rewrite length_app, length_fmap. by rewrite IHl.
Qed.

Lemma offset_right_bound extents idx :
  Forall2 (λ e i, 0 ≤ i < e) extents idx →
  0 ≤ offset_right extents idx < volume extents.
Proof.
  induction 1 as [|e i es idx Hi _ IH]; cbn; [lia |].
  pose proof (volume_nonneg es). nia.
Qed.

Lemma fill_buffer_all {V} (written buffer : list V) :
  length written = length buffer → fill_buffer written buffer = written.
Proof.
  intros Hlen. unfold fill_buffer.
  rewrite Hlen, drop_all, app_nil_r, <- Hlen. apply firstn_all.
Qed.

Lemma in_space_spec space rank idx :
  in_space space rank idx = true ↔
  length idx = rank ∧
  ∀ d, (d < rank)%nat → min space d ≤ idx !!! d < max space d.
Proof.
  unfold in_space. rewrite andb_true_iff, bool_decide_eq_true.
  rewrite forallb_forall. split; intros [Hlen Hall]; (split; [done |]).
  - intros d Hd. specialize (Hall d). rewrite bool_decide_eq_true in Hall.
    apply Hall, list_elem_of_In, elem_of_seq. lia.
  - intros d Hd%list_elem_of_In%elem_of_seq. apply bool_decide_eq_true, Hall. lia.
Qed.

Section solve.
Context {P : Platform}.

Lemma wp_solveImpl A b x solver (Qok : unit → state P → Prop) (s : state P) :
  dynamic_class (this s) ≠ HypreStructDiagonal →
  _solver (this s) = Some solver →
  Qok tt (logged (HYPRE_StructSolveCall (dynamic_class (this s)) solver A b x) s) →
  wp (solveImpl A b x) (post Qok) s.
Proof.
  intros Hclass Hsolver HQ. unfold solveImpl. wp_step.
  destruct (dynamic_class (this s)); try done;
    wp_step; rewrite Hsolver; wp_step; by wp_check_step.
Qed.

Lemma wp_store_view id v (Q : outcome unit → state P → Prop) (s : state P) :
  Q (Ok tt)
    (State (this s)
       (World (hypre_log (env s))
          (alter (λ a, {| layout := layout a; view := v |}) id
             (arrays (env s))))) →
  wp (store_view id v) Q s.
Proof. intros HQ. by eapply wp_run. Qed.

Lemma solve_spec (s : state P) (b x : nat) b_array x_array
    (hypre_b A hypre_x solver : handle) :
  _is_preconditioner (this s) = false →
  dynamic_class (this s) ≠ HypreStructDiagonal →
  arrays (env s) !! b = Some b_array →
  arrays (env s) !! x = Some x_array →
  dofsPerEntity (layout b_array) = 1 →
  dofsPerEntity (layout x_array) = 1 →
  _b (this s) = Some hypre_b → _A (this s) = Some A →
  _x (this s) = Some hypre_x → _solver (this s) = Some solver →
  let before :=
    hypre_log (env s) ++
    solve_calls P (dynamic_class (this s)) solver A hypre_b hypre_x
      (_lower (this s)) (_upper (this s)) b_array in
  let get :=
    HYPRE_StructVectorGetBoxValues hypre_x (_lower (this s)) (_upper (this s)) in
  wp (solve b x)
     (post (λ _ s',
        s' = State (this s)
               (World (before ++ [get])
                  (alter (λ a, {| layout := layout a;
                                  view := solved_view P b_array x_array
                                            (written_values (hypre P) before get) |})
                     x (arrays (env s))))))
     s.
Proof.
  intros Hflag Hclass Hb Hx Hdb Hdx H_b H_A H_x Hsolver before get.
  unfold solve. wp_step. rewrite Hflag.
  wp_step. rewrite Hb. wp_step. rewrite Hx.
  rewrite Hdb, Hdx. rewrite !bool_decide_eq_false_2 by (intros ?; done).
  cbn [orb]. cbv zeta.
  wp_step. rewrite H_b. wp_step. wp_check_step.
  wp_step. wp_step. wp_step. wp_check_step. wp_step. wp_check_step.
  wp_step. rewrite H_A. wp_step. rewrite H_x.
  apply wp_bind_post, (wp_solveImpl _ _ _ solver); [done | done |].
  unfold logged; cbn [this env hypre_log arrays].
  wp_step. wp_check_step. wp_step. rewrite Hx.
  apply wp_store_view. cbn [this env hypre_log arrays].
  unfold before, get, solve_calls, solved_view, staged_rhs, owned_extents,
    create_mirror_view_and_copy.
  rewrite <- !app_assoc. cbn [app]. by destruct s.
Qed.

End solve.

Lemma owned_offset_in_range (l : ArrayLayout) (idx : list Z) :
  let owned_space := indexSpace_Own_Local l in
  extent owned_space (num_space_dim l) = 1 →
  in_space owned_space (S (num_space_dim l)) idx = true →
  0 ≤ offset_right (owned_extents l) (relative owned_space idx)
    < volume (owned_extents l).
Proof.
  intros owned_space Hdof [Hlen Hin]%in_space_spec.
  apply offset_right_bound, Forall2_same_length_lookup. split.
  - unfold owned_extents, relative.
    rewrite length_app, length_fmap, length_seq, length_imap, Hlen. cbn. lia.
  - intros d e r He Hr. unfold relative in Hr.
    rewrite list_lookup_imap in Hr.
    destruct (idx !! d) as [i|] eqn:Hi; [| done]. cbn in Hr.
    injection Hr as <-.
    assert (d < S (num_space_dim l))%nat as Hd
      by (rewrite <- Hlen; by eapply lookup_lt_Some).
    specialize (Hin d Hd). rewrite (list_lookup_total_correct _ _ _ Hi) in Hin.
    unfold owned_extents in He.
    destruct (decide (d < num_space_dim l)%nat) as [Hlt|Hge].
    + rewrite lookup_app_l in He by (by rewrite length_fmap, length_seq).
      rewrite list_lookup_fmap, lookup_seq_lt in He by done.
      injection He as <-. unfold extent. fold owned_space. lia.
    + assert (d = num_space_dim l) as -> by lia.
      rewrite lookup_app_r in He by (rewrite length_fmap, length_seq; lia).
      rewrite length_fmap, length_seq, Nat.sub_diag in He.
      injection He as <-. unfold extent in Hdof. fold owned_space. lia.
Qed.

(** ** Solving *)

(** C7 (amended). For [solve( b, x )] on a solver that is not a
    preconditioner and whose preconditions hold: the forcing term is staged
    into the HYPRE right-hand side and is not written unless [b] is the
    array [x] itself; no array other than [x] is changed, the solver object
    included; every entry of [x] in the owned index space
    holds, after the call, the value HYPRE returned for it, at its
    layout-right position in the box; and when the arrays live in host
    memory every entry of [x] outside the owned index space is as before.
    This is what every returning call has done, and the call returns when
    HYPRE reports no error. *)
Theorem solve_overwrites_owned_solution (P : Platform) (s : state P)
    (b x : nat) (b_array x_array : Array (Scalar P))
    (hypre_b A hypre_x solver : handle) :
  isPreconditioner (this s) = false →
  dynamic_class (this s) ≠ HypreStructDiagonal →
  arrays (env s) !! b = Some b_array →
  arrays (env s) !! x = Some x_array →
  dofsPerEntity (layout b_array) = 1 →
  dofsPerEntity (layout x_array) = 1 →
  extent (indexSpace_Own_Local (layout b_array))
         (num_space_dim (layout b_array)) = 1 →
  _b (this s) = Some hypre_b → _A (this s) = Some A →
  _x (this s) = Some hypre_x → _solver (this s) = Some solver →
  let owned_space := indexSpace_Own_Local (layout b_array) in
  let rank := S (num_space_dim (layout b_array)) in
  let before :=
    hypre_log (env s) ++
    solve_calls P (dynamic_class (this s)) solver A hypre_b hypre_x
      (_lower (this s)) (_upper (this s)) b_array in
  let get :=
    HYPRE_StructVectorGetBoxValues hypre_x (_lower (this s)) (_upper (this s)) in
  let returned := written_values (hypre P) before get in
  (∀ s', solve b x s = (Ok tt, s') →
     this s' = this s ∧
     hypre_log (env s') = before ++ [get] ∧
     (∀ id, id ≠ x → arrays (env s') !! id = arrays (env s) !! id) ∧
     (b ≠ x → arrays (env s') !! b = Some b_array) ∧
     ∃ x_after,
       arrays (env s') !! x = Some x_after ∧
       layout x_after = layout x_array ∧
       (length returned = length (staged_rhs P b_array) →
        ∀ idx, in_space owned_space rank idx = true →
          ∃ value,
            returned !! Z.to_nat (offset_right (owned_extents (layout b_array))
                                    (relative owned_space idx)) = Some value ∧
            view x_after idx = of_HYPRE_Complex P value) ∧
       (device_memory_space P = HostSpace →
        ∀ idx, in_space owned_space rank idx = false →
          view x_after idx = view x_array idx)) ∧
  (no_error P → ∃ s', solve b x s = (Ok tt, s')).
Proof.
  intros Hflag Hclass Hb Hx Hdb Hdx Hdof H_b H_A H_x Hsolver
    owned_space rank before get returned.
  pose proof (solve_spec s b x b_array x_array hypre_b A hypre_x solver
                Hflag Hclass Hb Hx Hdb Hdx H_b H_A H_x Hsolver) as Hspec.
  cbv zeta in Hspec. fold before get returned in Hspec.
  subst owned_space rank. split.
  - intros s' Hrun. rewrite (post_ok _ _ _ _ _ Hspec Hrun).
    cbn [this env hypre_log arrays].
    split; [done |]. split; [done |]. split.
    { intros id Hid. by rewrite lookup_alter_ne. }
    split.
    { intros Hbx. by rewrite lookup_alter_ne, Hb. }
    eexists. split; [by rewrite lookup_alter_eq, Hx |].
    cbn [layout view]. split; [done |].
    assert (length (owned_extents (layout b_array))
            = S (num_space_dim (layout b_array))) as Hrank.
    { unfold owned_extents. rewrite length_app, length_fmap, length_seq.
      cbn. lia. }
    unfold solved_view, deep_copy_to_subview. rewrite Hrank. split.
    + intros Hlen idx Hin. rewrite Hin, fill_buffer_all by done.
      pose proof (owned_offset_in_range (layout b_array) idx Hdof Hin)
        as Hoff. cbv zeta in Hoff.
      destruct (lookup_lt_is_Some_2 returned
                  (Z.to_nat (offset_right (owned_extents (layout b_array))
                               (relative (indexSpace_Own_Local (layout b_array))
                                  idx)))) as [value Hv].
      { rewrite Hlen. unfold staged_rhs, createView_LayoutRight.
        rewrite length_fmap, length_enumerate_right. lia. }
      exists value. by rewrite Hv.
    + intros Hhost idx Hout. by rewrite Hout, Hhost.
  - intros Hok.
    destruct (post_no_error _ _ _ Hok Hspec) as ([] & s' & Hrun & _).
    by exists s'.
Qed.

(** ** The theorems at the sample inputs *)

Lemma factory_dispatches_on_name_witness :
  ∃ o w',
    @createHypreStructuredSolver host_platform "SMG" (sample_layout 1) true
      (sample_world host_platform sample_arrays) = (Ok o, w') ∧
    dynamic_class o = HypreStructSMG ∧ isPreconditioner o = true.
Proof.
  destruct (factory_dispatches_on_name host_platform "SMG" (sample_layout 1)
              true (sample_world host_platform sample_arrays)) as [Hknown _].
  destruct (Hknown HypreStructSMG eq_refl) as [Hkind Hreturns].
  destruct Hreturns as (o & w' & Hrun);
    [reflexivity | intros log c; apply Z.le_refl |].
  exists o, w'. split; [exact Hrun |].
  destruct (Hkind o w' Hrun) as (Hc & Hp & _). split; [exact Hc | exact Hp].
Defined.

(** C1 as stated fails: "PCG" is one of the seven names, yet with
    [is_preconditioner = true] the factory returns no solver. *)
Lemma factory_named_PCG_returns_nothing :
  (@createHypreStructuredSolver host_platform "PCG" (sample_layout 1) true
     (sample_world host_platform sample_arrays)).1
  = Throw (logic_error "HYPRE PCG cannot be used as a preconditioner").
Proof. vm_compute. reflexivity. Qed.



Lemma grid_extents_reversed_witness :
  let s' :=
    (@HypreStructuredSolver_ctor host_platform (sample_layout 1)
       (State (new_object HypreStructPCG 0%nat false)
          (sample_world host_platform sample_arrays))).2 in
  _lower (this s') !! 0%nat = Some 1 ∧ _upper (this s') !! 0%nat = Some 2 ∧
  _lower (this s') !! 1%nat = Some 2 ∧ _upper (this s') !! 1%nat = Some 4.
Proof.
  intros s'.
  destruct (grid_extents_reversed host_platform HypreStructPCG
              (sample_layout 1) (sample_world host_platform sample_arrays) s')
    as (lower & upper & rest & _ & HL & HU & _ & _ & Hd).
  - reflexivity.
  - intros [|[|d]] Hd; [| | cbn in Hd; lia];
      (split; split; vm_compute; congruence).
  - vm_compute. reflexivity.
  - rewrite HL, HU.
    destruct (Hd 0%nat) as [H0 H0']; [cbn; lia |].
    destruct (Hd 1%nat) as [H1 H1']; [cbn; lia |].
    repeat split; assumption.
Defined.

Lemma grid_periodicity_reversed_witness :
  ∃ create extents rest,
    hypre_log (env
      (@HypreStructuredSolver_ctor host_platform (sample_layout 1)
         (State (new_object HypreStructPCG 0%nat false)
            (sample_world host_platform sample_arrays))).2)
    = create :: extents
      :: HYPRE_StructGridSetPeriodic (object 0) [0; 8] :: rest.
Proof.
  destruct (grid_periodicity_reversed host_platform HypreStructPCG
              (sample_layout 1) (sample_world host_platform sample_arrays)
              (@HypreStructuredSolver_ctor host_platform (sample_layout 1)
                 (State (new_object HypreStructPCG 0%nat false)
                    (sample_world host_platform sample_arrays))).2)
    as (create & extents & periodic & rest & Hlog & Hlen & Hd).
  - vm_compute. reflexivity.
  - exists create, extents, rest. rewrite Hlog. cbn.
    destruct periodic as [|p0 [|p1 [|? ?]]]; try discriminate Hlen.
    pose proof (Hd 0%nat) as H0. pose proof (Hd 1%nat) as H1.
    cbn in H0, H1.
    injection (H0 ltac:(lia)) as ->. injection (H1 ltac:(lia)) as ->.
    reflexivity.
Defined.

(** The sample solvers are what the factory and [setMatrixStencil]
    produce. *)
Example pcg_constructed_by_factory memory :
  constructed (sample_platform memory agreeable_hypre) "PCG" (sample_layout 1)
    false sample_arrays = pcg_constructed memory.
Proof. destruct memory; vm_compute; reflexivity. Qed.

Example pcg_ready_by_setMatrixStencil memory :
  setMatrixStencil 2 five_point true (pcg_constructed memory)
  = (Ok tt, pcg_ready memory).
Proof. destruct memory; vm_compute; reflexivity. Qed.

Example sample_solvers_by_factory :
  constructed host_platform "PFMG" (sample_layout 1) false sample_arrays
    = pfmg_solver ∧
  constructed host_platform "SMG" (sample_layout 1) true sample_arrays
    = smg_preconditioner ∧
  this (constructed host_platform "Diagonal" (sample_layout 1) true
          sample_arrays) = diagonal_preconditioner.
Proof. vm_compute. repeat split; reflexivity. Qed.

(** When HYPRE reports an error the factory throws what [checkHypreError]
    builds from it. *)
Example factory_reports_hypre_error :
  (@createHypreStructuredSolver (sample_platform HostSpace failing_hypre)
     "PFMG" (sample_layout 1) true (World [] ∅)).1
  = Throw (runtime_error "HYPRE structured solver error: 1 Generic error").
Proof. vm_compute. reflexivity. Qed.

Lemma setMatrixStencil_registers_stencil_witness :
  setMatrixStencil 2 five_point true (pcg_constructed HostSpace)
  = (Ok tt, pcg_ready HostSpace).
Proof.
  destruct (setMatrixStencil_registers_stencil host_platform
              (pcg_constructed HostSpace) 2 five_point true (object 0))
    as [_ Hreturns].
  - vm_compute. congruence.
  - vm_compute. reflexivity.
  - repeat constructor.
  - reflexivity.
  - reflexivity.
  - apply Hreturns. intros log c. apply Z.le_refl.
Defined.

Lemma setPreconditioner_installs_witness :
  setPreconditioner (Some diagonal_preconditioner) (pcg_constructed HostSpace)
  = (Ok tt,
     sample_state HostSpace
       (set__preconditioner (Some diagonal_preconditioner) pcg_object)
       (pcg_calls ++
        [ HYPRE_StructSetPrecond HypreStructPCG (object 12)
            HYPRE_StructDiagScale HYPRE_StructDiagScaleSetup nullptr ])).
Proof.
  apply (proj2 (setPreconditioner_installs host_platform
                  (pcg_constructed HostSpace) diagonal_preconditioner eq_refl)
           eq_refl (object 12) nullptr eq_refl eq_refl).
  apply Z.le_refl.
Defined.

(** C6 as stated fails: a PFMG solver that is not a preconditioner, given a
    preconditioner, throws instead of installing it. *)
Lemma setPreconditioner_on_PFMG_throws :
  let s := pfmg_solver in
  let p := diagonal_preconditioner in
  isPreconditioner (this s) = false ∧ isPreconditioner p = true ∧
  (setPreconditioner (Some p) s).1
  = Throw (logic_error "HYPRE PFMG solver does not support preconditioning.").
Proof. vm_compute. repeat split; reflexivity. Qed.

Lemma solve_overwrites_owned_solution_witness :
  ∃ s' x_after,
    solve 0%nat 1%nat (pcg_ready HostSpace) = (Ok tt, s') ∧
    arrays (env s') !! 1%nat = Some x_after ∧
    view x_after [2; 1; 0] = 102 ∧ view x_after [0; 0; 0] = 5 ∧
    arrays (env s') !! 0%nat = arrays (env (pcg_ready HostSpace)) !! 0%nat.
Proof.
  destruct (solve_overwrites_owned_solution
              (sample_platform HostSpace agreeable_hypre)
              (pcg_ready HostSpace) 0%nat 1%nat
              {| layout := sample_layout 1;
                 view := λ idx, 10 * idx !!! 0%nat + idx !!! 1%nat |}
              {| layout := sample_layout 1; view := λ _, 5 |}
              (object 4) (object 20) (object 8) (object 12))
    as [Hdone Hreturns]; try reflexivity; try discriminate.
  destruct Hreturns as [s' Hrun]; [intros log c; apply Z.le_refl |].
  destruct (Hdone s' Hrun)
    as (_ & _ & Hframe & _ & x_after & Hx & _ & Howned & Hghost).
  exists s', x_after. split; [exact Hrun |]. split; [exact Hx |].
  destruct (Howned ltac:(vm_compute; reflexivity) [2; 1; 0]
              ltac:(vm_compute; reflexivity)) as (value & Hvalue & Hview).
  split; [| split].
  - vm_compute in Hvalue. injection Hvalue as <-. exact Hview.
  - exact (Hghost eq_refl [0; 0; 0] ltac:(vm_compute; reflexivity)).
  - apply Hframe. discriminate.
Defined.

(** Nothing keeps [b] and [x] apart: called with the same array for both,
    [solve] overwrites the forcing term with the solution. *)
Example solve_in_place_overwrites_forcing_term :
  let s := pcg_ready HostSpace in
  let r := solve 0%nat 0%nat s in
  r.1 = Ok tt ∧
  ((λ a, view a [2; 1; 0]) <$> arrays (env s) !! 0%nat) = Some 21 ∧
  ((λ a, view a [2; 1; 0]) <$> arrays (env r.2) !! 0%nat) = Some 102.
Proof. vm_compute. repeat split; reflexivity. Qed.

(** C7 as stated fails: with the arrays in a device memory space, [solve]
    also changes entries of [x] outside the owned index space. *)
Lemma solve_on_device_overwrites_ghosts :
  let s := pcg_ready DeviceSpace in
  let r := solve 0%nat 1%nat s in
  r.1 = Ok tt ∧
  in_space (indexSpace_Own_Local (sample_layout 1)) 3 [0; 0; 0] = false ∧
  ((λ a, view a [0; 0; 0]) <$> arrays (env s) !! 1%nat) = Some 5 ∧
  ((λ a, view a [0; 0; 0]) <$> arrays (env r.2) !! 1%nat) = Some 0.
Proof. vm_compute. repeat split; reflexivity. Qed.

Lemma preconditioner_gate_witness :
  let s := smg_preconditioner in
  solve 0%nat 1%nat s
  = (Throw (logic_error "Cannot call solve() on preconditioners"), s) ∧
  (setup (pcg_ready HostSpace)).1
  ≠ Throw (logic_error "Cannot call setup() on preconditioners").
Proof.
  intros s. split.
  - destruct (preconditioner_gate host_platform s 2 five_point true 2%nat
                0%nat 1%nat None) as (_ & Hclosed & _).
    destruct (Hclosed eq_refl) as (_ & _ & _ & _ & Hsolve). exact Hsolve.
  - destruct (preconditioner_gate host_platform
                (pcg_ready HostSpace) 2 five_point true
                2%nat 0%nat 1%nat None) as (_ & _ & Hopen).
    destruct (Hopen eq_refl) as (_ & _ & _ & Hsetup & _). exact Hsetup.
Defined.

Lemma checkHypreError_throws_iff_positive_witness :
  checkHypreError 0 (pcg_ready HostSpace)
  = (Ok tt, pcg_ready HostSpace) ∧
  ∃ what, (checkHypreError 1 (pcg_ready HostSpace)).1
          = Throw (runtime_error what).
Proof.
  split.
  - apply (checkHypreError_throws_iff_positive host_platform 0);
      [unfold is_int |]; lia.
  - apply (checkHypreError_throws_iff_positive host_platform 1);
      [unfold is_int |]; lia.
Defined.

Lemma shape_checked_first_witness :
  let s := pcg_ready HostSpace in
  setMatrixValues 2%nat s
  = (Throw (runtime_error
              "Number of matrix values does not match stencil size"), s) ∧
  solve 2%nat 1%nat s
  = (Throw (runtime_error "Structured solver only for scalar fields"), s).
Proof.
  intros s.
  destruct (shape_checked_first host_platform s 2%nat 2%nat 1%nat)
    as [Hvalues Hsolve]; [reflexivity |]. split.
  - apply (Hvalues {| layout := sample_layout 3; view := λ _, 1 |} 5);
      [reflexivity | reflexivity | lia | discriminate].
  - apply (Hsolve {| layout := sample_layout 3; view := λ _, 1 |}
                  {| layout := sample_layout 1; view := λ _, 5 |});
      [reflexivity | reflexivity | left; discriminate].
Defined.

(** C10 as stated fails: on a preconditioner, [solve] with a forcing term of
    three degrees of freedom per entity throws [std::logic_error], not
    [std::runtime_error]. *)
Lemma solve_on_preconditioner_throws_logic_error :
  let s := smg_preconditioner in
  (dofsPerEntity ∘ layout <$> arrays (env s) !! 2%nat) = Some 3 ∧
  (solve 2%nat 1%nat s).1
  = Throw (logic_error "Cannot call solve() on preconditioners").
Proof. vm_compute. split; reflexivity. Qed.

(** * Further properties *)

(** ** Layout-right positions *)

Lemma lookup_bind_uniform {A B} (f : A → list B) (l : list A) (n k j : nat) x :
  (∀ a, length (f a) = n) → l !! k = Some x → (j < n)%nat →
  (l ≫= f) !! (k * n + j)%nat = f x !! j.
Proof.
  intros Hlen. revert k. induction l as [|a l IH]; intros k Hk Hj; [done |].
  cbn [mbind list_bind]. destruct k as [|k]; cbn in Hk.
  - injection Hk as ->. cbn. by rewrite lookup_app_l by (by rewrite Hlen).
  - rewrite lookup_app_r by (rewrite Hlen; cbn; lia).
    rewrite Hlen. replace (S k * n + j - n)%nat with (k * n + j)%nat by (cbn; lia).
    by apply IH.
Qed.

Lemma lookup_enumerate_right extents idx :
  in_box extents idx →
  enumerate_right extents !! Z.to_nat (offset_right extents idx) = Some idx.
Proof.
  induction 1 as [|e i es idx Hi Hbox IH]; [done |].
  cbn [enumerate_right offset_right].
  pose proof (volume_nonneg es) as Hvol.
  pose proof (offset_right_bound es idx Hbox) as Hoff.
  rewrite Z2Nat.inj_add, Z2Nat.inj_mul by lia.
  rewrite <- (length_enumerate_right es).
  rewrite (lookup_bind_uniform _ _ (length (enumerate_right es)) _ _ i).
  - by rewrite list_lookup_fmap, IH.
  - intros a. by rewrite length_fmap.
  - rewrite lookup_seqZ_lt by lia. f_equal. lia.
  - rewrite length_enumerate_right. lia.
Qed.

Lemma lookup_createView_LayoutRight {V} extents (f : list Z → V) idx :
  in_box extents idx →
  createView_LayoutRight extents f !! Z.to_nat (offset_right extents idx)
  = Some (f idx).
Proof.
  intros Hbox. unfold createView_LayoutRight.
  by rewrite list_lookup_fmap, lookup_enumerate_right.
Qed.

Lemma absolute_relative space idx : absolute space (relative space idx) = idx.
Proof.
  unfold absolute, relative. apply list_eq. intros d.
  rewrite !list_lookup_imap. destruct (idx !! d) as [i|]; cbn; [| done].
  f_equal. lia.
Qed.

Lemma relative_in_box (l : ArrayLayout) (last : Z) (idx : list Z) :
  let owned_space := indexSpace_Own_Local l in
  extent owned_space (num_space_dim l) = last →
  in_space owned_space (S (num_space_dim l)) idx = true →
  in_box (staging_extents l last) (relative owned_space idx).
Proof.
  intros owned_space Hdof [Hlen Hin]%in_space_spec.
  apply Forall2_same_length_lookup. split.
  - unfold staging_extents, relative.
    rewrite length_app, length_fmap, length_seq, length_imap, Hlen. cbn. lia.
  - intros d e r He Hr. unfold relative in Hr.
    rewrite list_lookup_imap in Hr.
    destruct (idx !! d) as [i|] eqn:Hi; [| done]. cbn in Hr.
    injection Hr as <-.
    assert (d < S (num_space_dim l))%nat as Hd
      by (rewrite <- Hlen; by eapply lookup_lt_Some).
    specialize (Hin d Hd). rewrite (list_lookup_total_correct _ _ _ Hi) in Hin.
    unfold staging_extents in He.
    destruct (decide (d < num_space_dim l)%nat) as [Hlt|Hge].
    + rewrite lookup_app_l in He by (by rewrite length_fmap, length_seq).
      rewrite list_lookup_fmap, lookup_seq_lt in He by done.
      injection He as <-. unfold extent. fold owned_space. lia.
    + assert (d = num_space_dim l) as -> by lia.
      rewrite lookup_app_r in He by (rewrite length_fmap, length_seq; lia).
      rewrite length_fmap, length_seq, Nat.sub_diag in He.
      injection He as <-. unfold extent in Hdof. fold owned_space. lia.
Qed.

(** ** Specifications of the member functions *)

Section member_specs.
Context {P : Platform}.
Implicit Types (s : state P).

Lemma checkHypreError_throw error s :
  0 < to_int error →
  checkHypreError error s
  = (Throw (runtime_error (hypre_error_message P (to_int error))),
     error_cleared (to_int error) s).
Proof.
  intros Hpos. unfold checkHypreError. cbn zeta.
  rewrite bool_decide_eq_true_2 by lia. reflexivity.
Qed.

Lemma setMatrixStencil_spec s NumSpaceDim stencil is_symmetric grid :
  32 ≤ HYPRE_Int_bits P →
  Z.of_nat (length stencil) < 2 ^ 31 →
  Forall (λ entry, length entry = NumSpaceDim) stencil →
  _is_preconditioner (this s) = false →
  _grid (this s) = Some grid →
  wp (setMatrixStencil NumSpaceDim stencil is_symmetric)
     (post (λ _ s', s' = stencil_set s NumSpaceDim stencil is_symmetric grid))
     s.
Proof.
  intros Hbits Hlen Hall Hflag Hgrid.
  unfold setMatrixStencil. wp_step. rewrite Hflag.
  wp_step. wp_step.
  replace (_stencil_size
             (set__stencil_size
                (Some (to_unsigned_int (Z.of_nat (length stencil))))
                (this s)))
    with (Some (to_unsigned_int (Z.of_nat (length stencil))))
    by (by destruct (this s)).
  wp_step. wp_step. wp_check_step.
  apply wp_bind_post, wp_stencil_loop; [done | cbn; lia | done |].
  cbn [this env hypre_log arrays].
  wp_step. wp_step.
  replace (_grid _) with (Some grid) by (by destruct (this s)).
  wp_step. wp_step. wp_check_step. wp_step. wp_check_step.
  unfold post, stencil_set.
  rewrite to_HYPRE_Int_small by lia.
  rewrite <- !app_assoc, !length_app, length_imap. cbn [length app].
  unfold to_unsigned_int. rewrite to_unsigned_id by lia.
  destruct s as [o [log arrs]], o. cbn.
  by replace (length log + S (length stencil))%nat
    with (length log + 1 + length stencil)%nat by lia.
Qed.




End member_specs.

(** ** Staging of matrix entries and of the forcing term *)


(** X2. [solve] stages the forcing term in layout-right order over the
    owned entities: in every returning call the values handed to
    [HYPRE_StructVectorSetBoxValues] for the right-hand side hold, at the
    layout-right position of an owned index relative to the first owned
    index, the entry of [b] at that index. *)
Theorem solve_stages_forcing_term (P : Platform) (s s' : state P)
    (b x : nat) (b_array x_array : Array (Scalar P))
    (hypre_b A hypre_x solver : handle) :
  isPreconditioner (this s) = false →
  dynamic_class (this s) ≠ HypreStructDiagonal →
  arrays (env s) !! b = Some b_array →
  arrays (env s) !! x = Some x_array →
  dofsPerEntity (layout b_array) = 1 →
  dofsPerEntity (layout x_array) = 1 →
  extent (indexSpace_Own_Local (layout b_array))
         (num_space_dim (layout b_array)) = 1 →
  _b (this s) = Some hypre_b → _A (this s) = Some A →
  _x (this s) = Some hypre_x → _solver (this s) = Some solver →
  solve b x s = (Ok tt, s') →
  let owned_space := indexSpace_Own_Local (layout b_array) in
  let extents := staging_extents (layout b_array) 1 in
  ∃ staged,
    hypre_log (env s') !! S (length (hypre_log (env s)))
    = Some (HYPRE_StructVectorSetBoxValues hypre_b (_lower (this s))
              (_upper (this s)) staged) ∧
    length staged = Z.to_nat (volume extents) ∧
    ∀ idx,
      in_space owned_space (S (num_space_dim (layout b_array))) idx = true →
      staged !! Z.to_nat (offset_right extents (relative owned_space idx))
      = Some (to_HYPRE_Complex P (view b_array idx)).
Proof.
  intros Hflag Hclass Hb Hx Hdb Hdx Hdof H_b H_A H_x Hsolver Hrun
    owned_space extents.
  pose proof (solve_spec s b x b_array x_array hypre_b A hypre_x solver
                Hflag Hclass Hb Hx Hdb Hdx H_b H_A H_x Hsolver) as Hspec.
  rewrite (post_ok _ _ _ _ _ Hspec Hrun). cbn [env hypre_log].
  exists (staged_rhs P b_array). split; [| split].
  - unfold solve_calls. rewrite <- !app_assoc.
    rewrite lookup_app_r by lia.
    by replace (S (length (hypre_log (env s))) - length (hypre_log (env s)))%nat
      with 1%nat by lia.
  - unfold staged_rhs, createView_LayoutRight.
    by rewrite length_fmap, length_enumerate_right.
  - intros idx Hin. unfold staged_rhs.
    change (owned_extents (layout b_array)) with extents.
    rewrite lookup_createView_LayoutRight by (by apply relative_in_box).
    by rewrite absolute_relative.
Qed.

(** X3. Staging and fetching use the same positions: when HYPRE hands back
    as solution exactly the right-hand side values it was given, a returning
    [solve] leaves in every owned entry of [x] the entry of [b] at the same
    index, converted to [HYPRE_Complex] and back. *)
Theorem solve_round_trip (P : Platform) (s s' : state P)
    (b x : nat) (b_array x_array : Array (Scalar P))
    (hypre_b A hypre_x solver : handle) :
  isPreconditioner (this s) = false →
  dynamic_class (this s) ≠ HypreStructDiagonal →
  arrays (env s) !! b = Some b_array →
  arrays (env s) !! x = Some x_array →
  dofsPerEntity (layout b_array) = 1 →
  dofsPerEntity (layout x_array) = 1 →
  extent (indexSpace_Own_Local (layout b_array))
         (num_space_dim (layout b_array)) = 1 →
  _b (this s) = Some hypre_b → _A (this s) = Some A →
  _x (this s) = Some hypre_x → _solver (this s) = Some solver →
  solve b x s = (Ok tt, s') →
  written_values (hypre P)
    (hypre_log (env s) ++
     solve_calls P (dynamic_class (this s)) solver A hypre_b hypre_x
       (_lower (this s)) (_upper (this s)) b_array)
    (HYPRE_StructVectorGetBoxValues hypre_x (_lower (this s))
       (_upper (this s)))
  = staged_rhs P b_array →
  ∃ x_after,
    arrays (env s') !! x = Some x_after ∧
    ∀ idx,
      in_space (indexSpace_Own_Local (layout b_array))
               (S (num_space_dim (layout b_array))) idx = true →
      view x_after idx
      = of_HYPRE_Complex P (to_HYPRE_Complex P (view b_array idx)).
Proof.
  intros Hflag Hclass Hb Hx Hdb Hdx Hdof H_b H_A H_x Hsolver Hrun Hecho.
  pose proof (solve_spec s b x b_array x_array hypre_b A hypre_x solver
                Hflag Hclass Hb Hx Hdb Hdx H_b H_A H_x Hsolver) as Hspec.
  rewrite (post_ok _ _ _ _ _ Hspec Hrun). cbn [env arrays].
  eexists. split; [by rewrite lookup_alter_eq, Hx |].
  intros idx Hin. cbn [view]. rewrite Hecho.
  unfold solved_view, deep_copy_to_subview.
  replace (length (owned_extents (layout b_array)))
    with (S (num_space_dim (layout b_array)))
    by (unfold owned_extents;
        rewrite length_app, length_fmap, length_seq; cbn; lia).
  rewrite Hin, fill_buffer_all by done.
  unfold staged_rhs.
  change (owned_extents (layout b_array))
    with (staging_extents (layout b_array) 1).
  rewrite lookup_createView_LayoutRight by (by apply relative_in_box).
  cbn. by rewrite absolute_relative.
Qed.

(** X4. [setup] on a solver that is not a preconditioner and has its matrix:
    it makes one call, the setup entry point of the solver's class with the
    class's HYPRE solver and the solver's matrix and vectors.  The return
    code is converted to [int] as [checkHypreError] receives it.  When the
    converted code is not positive [setup] returns; when it is positive it
    has HYPRE describe and clear the error and throws [std::runtime_error]
    with the message made of the converted code and the description.  In
    both cases the solver and the arrays are as before. *)
Theorem setup_calls_class_setup (P : Platform) (s : state P)
    (A b x solver : handle) :
  isPreconditioner (this s) = false →
  dynamic_class (this s) ≠ HypreStructDiagonal →
  _A (this s) = Some A → _b (this s) = Some b → _x (this s) = Some x →
  _solver (this s) = Some solver →
  let call := HYPRE_StructSetupCall (dynamic_class (this s)) solver A b x in
  let error := to_int (return_code (hypre P) (hypre_log (env s)) call) in
  setup s =
    if bool_decide (error ≤ 0) then (Ok tt, logged call s)
    else (Throw (runtime_error (hypre_error_message P error)),
          error_cleared error (logged call s)).
Proof.
  intros Hflag Hclass HA Hb Hx Hsolver call error.
  unfold setup. rewrite gate_open by done.
  unfold mbind, M_bind, initialised, read. rewrite HA, Hb, Hx.
  unfold setupImpl, mbind, M_bind, member, gets, initialised, read.
  destruct (dynamic_class (this s)) eqn:Hc; try done;
    rewrite Hsolver; cbn [call_hypre]; fold call; unfold call_hypre;
    fold (logged call s); fold error;
    (case_bool_decide;
     [by rewrite checkHypreError_ok | by rewrite checkHypreError_throw by lia]).
Qed.

(** ** What the member functions leave alone *)

Section preserves.
Context {P : Platform} {X : Type} (f : state P → X).
Hypothesis log_blind :
  ∀ o log log' a, f (State o (World log a)) = f (State o (World log' a)).

Lemma pr_bind {A B} (m : M (state P) A) (k : A → M (state P) B) :
  preserves f m → (∀ a, preserves f (k a)) → preserves f (m ≫= k).
Proof.
  intros Hm Hk s. unfold mbind, M_bind. specialize (Hm s).
  destruct (m s) as [[a|e|] s1]; cbn in *; [| done | done].
  by rewrite Hk.
Qed.

Lemma pr_ret {A} (a : A) : preserves f (mret a).
Proof. done. Qed.

Lemma pr_throw {A} e : preserves f (throw e : M (state P) A).
Proof. done. Qed.

Lemma pr_undefined {A} : preserves f (undefined : M (state P) A).
Proof. done. Qed.

Lemma pr_member {A} (g : solver → A) : preserves f (member g).
Proof. done. Qed.

Lemma pr_initialised {A} (g : solver → option A) : preserves f (initialised g).
Proof. intros s. unfold initialised, read. by destruct (g (this s)). Qed.

Lemma pr_array id : preserves f (array id).
Proof. intros s. unfold array, read. by destruct (arrays (env s) !! id). Qed.

Lemma pr_call c : preserves f (call_hypre c).
Proof. intros [o [log a]]. apply log_blind. Qed.

Lemma pr_create c : preserves f (hypre_create c).
Proof. intros [o [log a]]. apply log_blind. Qed.

Lemma pr_read c buffer : preserves f (hypre_read c buffer).
Proof. intros [o [log a]]. apply log_blind. Qed.

Lemma pr_check error : preserves f (checkHypreError error).
Proof.
  intros [o [log a]]. unfold checkHypreError. case_bool_decide; [| done].
  apply log_blind.
Qed.

Lemma pr_assign (g : solver → solver) :
  (∀ o w, f (State (g o) w) = f (State o w)) → preserves f (assign g).
Proof. intros Hg [o w]. apply Hg. Qed.

Lemma pr_store_view id v :
  (∀ o log a a', f (State o (World log a)) = f (State o (World log a'))) →
  preserves f (store_view id v).
Proof. intros Harr [o [log a]]. apply Harr. Qed.

Lemma pr_for_each {A} (body : nat → A → M (state P) unit) n xs :
  (∀ n x, preserves f (body n x)) → preserves f (for_each body n xs).
Proof.
  intros Hbody. revert n. induction xs as [|x xs IH]; intros n; cbn.
  - apply pr_ret.
  - apply pr_bind; [apply Hbody | intros _; apply IH].
Qed.

Lemma pr_for_loop n (body : nat → M (state P) unit) :
  (∀ d, preserves f (body d)) → preserves f (for_loop n body).
Proof.
  intros Hbody. unfold for_loop. generalize 0%nat.
  induction n as [|n IH]; intros first; cbn.
  - apply pr_ret.
  - apply pr_bind; [apply Hbody | intros _; apply IH].
Qed.

End preserves.

Ltac pr_step :=
  first
    [ apply pr_ret | apply pr_throw | apply pr_undefined | apply pr_member
    | apply pr_initialised | apply pr_array
    | apply pr_call; done | apply pr_create; done | apply pr_read; done
    | apply pr_check; done
    | apply pr_assign; (by intros [] ?)
    | apply pr_store_view; done
    | apply pr_for_each; intros ? ?
    | apply pr_for_loop; intros ?
    | apply pr_bind; [| intros ?]
    | match goal with
      | |- preserves _ (if ?b then _ else _) => destruct b
      | |- preserves _ (match ?x with _ => _ end) => destruct x
      end ].
Ltac pr := repeat pr_step.

Section writes_only.
Context {P : Platform}.

Lemma wo_bind {A B} x (m : M (state P) A) (k : A → M (state P) B) :
  preserves (λ s, arrays (env s)) m → (∀ a, writes_only x (k a)) →
  writes_only x (m ≫= k).
Proof.
  intros Hm Hk s. unfold mbind, M_bind. specialize (Hm s).
  destruct (m s) as [[a|e|] s1]; cbn in *; [| by rewrite Hm..].
  rewrite <- Hm. apply Hk.
Qed.

Lemma wo_preserves {A} x (m : M (state P) A) :
  preserves (λ s, arrays (env s)) m → writes_only x m.
Proof. intros Hm s. by rewrite (Hm s). Qed.

Lemma wo_store_view x v : writes_only x (@store_view P x v).
Proof.
  intros s. split.
  - intros id Hid. cbn. by rewrite lookup_alter_ne.
  - intros Hno. by destruct (Hno tt).
Qed.

End writes_only.

(** X5. The arrays of the caller are written by [solve] alone, and by it
    with care: the factory, [setMatrixStencil], [setMatrixValues],
    [setPreconditioner] and [setup] leave every array as it was, however
    they end; [solve] changes no array other than [x], and when it does not
    return (it throws, or its behaviour is undefined) it has changed none. *)
Theorem arrays_written_by_solve_only (P : Platform) (s : state P)
    (w : world P) (solver_type : string) (layout : ArrayLayout)
    (is_preconditioner : bool) (NumSpaceDim : nat) (stencil : list (list Z))
    (is_symmetric : bool) (values b x : nat) (preconditioner : option solver) :
  arrays (createHypreStructuredSolver solver_type layout is_preconditioner w).2
    = arrays w ∧
  arrays (env (setMatrixStencil NumSpaceDim stencil is_symmetric s).2)
    = arrays (env s) ∧
  arrays (env (setMatrixValues values s).2) = arrays (env s) ∧
  arrays (env (setPreconditioner preconditioner s).2) = arrays (env s) ∧
  arrays (env (setup s).2) = arrays (env s) ∧
  (∀ id, id ≠ x →
     arrays (env (solve b x s).2) !! id = arrays (env s) !! id) ∧
  ((∀ a, (solve b x s).1 ≠ Ok a) →
   arrays (env (solve b x s).2) = arrays (env s)).
Proof.
  assert (preserves (λ s : state P, arrays (env s))
            (HypreStructuredSolver_ctor layout)) as Hbase.
  { unfold HypreStructuredSolver_ctor, create_vector. pr. }
  assert (∀ c, preserves (λ s : state P, arrays (env s))
                 (ctor_body c layout is_preconditioner)) as Hbody.
  { intros c. unfold ctor_body, create_solver. destruct c; pr. }
  assert (∀ c, arrays (make_shared c layout is_preconditioner w).2 = arrays w)
    as Hshared.
  { intros c. unfold make_shared, make_shared_unwinding.
    pose proof (Hbase (State (new_object c (comm (globalGrid layout))
                                is_preconditioner) w)) as H1.
    destruct (HypreStructuredSolver_ctor layout _) as [[[]|e|] s1];
      cbn [fst snd env] in *; [| done..].
    pose proof (Hbody c s1) as H2.
    destruct (ctor_body c layout is_preconditioner s1) as [[[]|e|] s2];
      cbn [fst snd env] in *; [congruence | | congruence].
    destruct (base_dtor_cases (T := unanswered P) (WholeState s2 []))
      as (r & l1 & -> & _).
    destruct r as [[]|e'|]; cbn [fst snd env core]; congruence. }
  split; [| split; [| split; [| split; [| split]]]].
  - unfold createHypreStructuredSolver.
    repeat match goal with
    | |- context [String.eqb ?name solver_type] =>
        destruct (String.eqb name solver_type)
    end; try done; apply Hshared.
  - revert s. change (preserves (λ s : state P, arrays (env s))
                        (setMatrixStencil NumSpaceDim stencil is_symmetric)).
    unfold setMatrixStencil. pr.
  - revert s. change (preserves (λ s : state P, arrays (env s))
                        (setMatrixValues values)).
    unfold setMatrixValues. pr.
  - revert s. change (preserves (λ s : state P, arrays (env s))
                        (setPreconditioner preconditioner)).
    unfold setPreconditioner, setPreconditionerImpl. pr.
  - revert s. change (preserves (λ s : state P, arrays (env s)) setup).
    unfold setup, setupImpl. pr.
  - assert (writes_only x (@solve P b x)) as Hsolve; [| exact (Hsolve s)].
    unfold solve, solveImpl.
    repeat first
      [ apply wo_store_view
      | apply wo_bind; [solve [pr] | intros ?]
      | apply wo_preserves; solve [pr]
      | match goal with
        | |- writes_only _ (if ?c then _ else _) => destruct c
        | |- writes_only _ (match ?y with _ => _ end) => destruct y
        end ].
Qed.

(** X6. No member function changes what construction fixed: after
    [setMatrixStencil], [setMatrixValues], [setPreconditioner], [setup] and
    [solve], however they end, the solver has the same class, the same
    communicator, the same use, the same grid with the same extents, the
    same two vectors and the same HYPRE solver as before. *)
Theorem construction_is_final (P : Platform) (s : state P)
    (NumSpaceDim : nat) (stencil : list (list Z)) (is_symmetric : bool)
    (values b x : nat) (preconditioner : option solver) :
  construction_members
    (this (setMatrixStencil NumSpaceDim stencil is_symmetric s).2)
    = construction_members (this s) ∧
  construction_members (this (setMatrixValues values s).2)
    = construction_members (this s) ∧
  construction_members (this (setPreconditioner preconditioner s).2)
    = construction_members (this s) ∧
  construction_members (this (setup s).2) = construction_members (this s) ∧
  construction_members (this (solve b x s).2) = construction_members (this s).
Proof.
  repeat split; revert s.
  - change (preserves (λ s : state P, construction_members (this s))
              (setMatrixStencil NumSpaceDim stencil is_symmetric)).
    unfold setMatrixStencil. pr.
  - change (preserves (λ s : state P, construction_members (this s))
              (setMatrixValues values)).
    unfold setMatrixValues. pr.
  - change (preserves (λ s : state P, construction_members (this s))
              (setPreconditioner preconditioner)).
    unfold setPreconditioner, setPreconditionerImpl. pr.
  - change (preserves (λ s : state P, construction_members (this s)) setup).
    unfold setup, setupImpl. pr.
  - change (preserves (λ s : state P, construction_members (this s))
              (solve b x)).
    unfold solve, solveImpl. pr.
Qed.

(** ** What construction does *)

Section construction.
Context {P : Platform}.

Lemma base_ctor_exact layout c (flag : bool) (w : world P) :
  wp (HypreStructuredSolver_ctor layout)
     (post (λ _ s',
        s' = if flag
             then State (new_object c (comm (globalGrid layout)) true) w
             else State (base_object P layout (length (hypre_log w))
                           (new_object c (comm (globalGrid layout)) false))
                    (World (hypre_log w ++
                              base_calls P layout (comm (globalGrid layout))
                                (length (hypre_log w)))
                           (arrays w))))
     (State (new_object c (comm (globalGrid layout)) flag) w).
Proof.
  destruct flag.
  - eapply wp_run; [by apply base_ctor_preconditioner | done].
  - by apply base_ctor_spec.
Qed.

Lemma ctor_exact c layout (flag : bool) (w : world P) :
  accepts c flag = true →
  wp (constructor_of c layout flag)
     (post (λ _ s',
        s' = State (built_object P c layout (length (hypre_log w)) flag)
               (World (hypre_log w ++
                         built_calls P c layout (length (hypre_log w)) flag)
                      (arrays w))))
     (State (new_object c (comm (globalGrid layout)) flag) w).
Proof.
  intros Hacc.
  assert (∀ (k : M (state P) unit) Qok,
    (∀ s, s = (if flag
               then State (new_object c (comm (globalGrid layout)) true) w
               else State (base_object P layout (length (hypre_log w))
                             (new_object c (comm (globalGrid layout)) false))
                      (World (hypre_log w ++
                                base_calls P layout (comm (globalGrid layout))
                                  (length (hypre_log w)))
                             (arrays w))) →
          wp k (post Qok) s) →
    wp (HypreStructuredSolver_ctor layout ;; k) (post Qok)
       (State (new_object c (comm (globalGrid layout)) flag) w)) as Hbase.
  { intros k Qok Hk. apply wp_bind_post.
    eapply wp_mono; [apply base_ctor_exact |].
    intros [[]|e|] s'; cbn; [apply Hk | done | done]. }
  destruct w as [log arrs].
  destruct c, flag; try discriminate Hacc; apply Hbase; intros s ->;
    cbn [negb]; unfold built_object, built_calls;
    cbn [this env hypre_log arrays].
  - apply wp_bind_post, wp_create_solver. cbn [this env hypre_log arrays].
    wp_step. wp_step. unfold post.
    rewrite <- !app_assoc, !length_app. cbn [length app base_calls vector_calls].
    repeat f_equal; lia.
  - apply wp_bind_post, wp_create_solver. cbn [this env hypre_log arrays].
    wp_step. unfold post.
    rewrite <- !app_assoc, !length_app. cbn [length app base_calls vector_calls].
    repeat f_equal; lia.
  - apply wp_bind_post, wp_create_solver. cbn [this env hypre_log arrays].
    wp_step. unfold post.
    rewrite <- !app_assoc, !length_app. cbn [length app base_calls vector_calls].
    repeat f_equal; lia.
  - apply wp_bind_post, wp_create_solver. cbn [this env hypre_log arrays].
    wp_step. wp_check_step. unfold post. by rewrite <- !app_assoc.
  - apply wp_bind_post, wp_create_solver. cbn [this env hypre_log arrays].
    wp_step. unfold post.
    rewrite <- !app_assoc, !length_app. cbn [length app base_calls vector_calls].
    repeat f_equal; lia.
  - apply wp_bind_post, wp_create_solver. cbn [this env hypre_log arrays].
    wp_step. wp_check_step. unfold post. by rewrite <- !app_assoc.
  - apply wp_bind_post, wp_create_solver. cbn [this env hypre_log arrays].
    wp_step. unfold post.
    rewrite <- !app_assoc, !length_app. cbn [length app base_calls vector_calls].
    repeat f_equal; lia.
  - apply wp_bind_post, wp_create_solver. cbn [this env hypre_log arrays].
    wp_step. wp_check_step. unfold post. by rewrite <- !app_assoc.
  - apply wp_bind_post, wp_create_solver. cbn [this env hypre_log arrays].
    wp_step. unfold post.
    rewrite <- !app_assoc, !length_app. cbn [length app base_calls vector_calls].
    repeat f_equal; lia.
  - wp_step. unfold post. by rewrite app_nil_r.
Qed.

End construction.


(** X7. What the factory does for a class and a use the class accepts.
    Built as a preconditioner, a solver gets no HYPRE grid and no vectors: a
    PFMG, SMG or Jacobi object creates its HYPRE solver and sets the zero
    initial guess, a Diagonal object makes no call.  Built otherwise, the
    base constructor makes its twelve grid and vector calls, then the HYPRE
    solver is created, and for PCG the two-norm is selected.  This is the
    object and the log of every returning call, and the call returns when
    HYPRE reports no error. *)
Theorem factory_builds (P : Platform) (c : solver_class)
    (layout : ArrayLayout) (is_preconditioner : bool) (w : world P) :
  accepts c is_preconditioner = true →
  let n0 := length (hypre_log w) in
  let o := built_object P c layout n0 is_preconditioner in
  let w' :=
    World (hypre_log w ++ built_calls P c layout n0 is_preconditioner)
      (arrays w) in
  (∀ o1 w1,
     createHypreStructuredSolver (solver_name c) layout is_preconditioner w
       = (Ok o1, w1) → o1 = o ∧ w1 = w') ∧
  (no_error P →
   createHypreStructuredSolver (solver_name c) layout is_preconditioner w
     = (Ok o, w')).
Proof.
  intros Hacc n0 o w'. rewrite factory_dispatch.
  pose proof (ctor_exact c layout is_preconditioner w Hacc) as Hspec. split.
  - intros o1 w1 Hrun%make_shared_ok.
    pose proof (post_ok _ _ _ _ _ Hspec Hrun) as [= -> ->]. done.
  - intros Hok.
    destruct (post_no_error _ _ _ Hok Hspec) as ([] & s' & Hrun & ->).
    by apply make_shared_ok.
Qed.

(** X8. A construction the class rejects.  PCG, GMRES and BiCGSTAB asked to
    be preconditioners throw [std::logic_error] before any HYPRE call: the
    factory ends in that exception and the world is as before.  The
    constructor of a Diagonal object asked to be a solver throws
    [std::logic_error] only after the base constructor has run: when HYPRE
    reports no error the grid and both vectors have been created by then,
    and these members are set in the object the exception leaves behind. *)
Theorem rejected_construction (P : Platform) (layout : ArrayLayout)
    (w : world P) :
  createHypreStructuredSolver "PCG" layout true w
    = (Throw (logic_error "HYPRE PCG cannot be used as a preconditioner"), w) ∧
  createHypreStructuredSolver "GMRES" layout true w
    = (Throw (logic_error "HYPRE GMRES cannot be used as a preconditioner"),
       w) ∧
  createHypreStructuredSolver "BiCGSTAB" layout true w
    = (Throw (logic_error "HYPRE BiCGSTAB cannot be used as a preconditioner"),
       w) ∧
  (no_error P →
   HypreStructDiagonal_ctor layout false
     (State (new_object HypreStructDiagonal (comm (globalGrid layout)) false)
        w)
   = (Throw (logic_error "Diagonal preconditioner cannot be used as a solver"),
      State (base_object P layout (length (hypre_log w))
               (new_object HypreStructDiagonal (comm (globalGrid layout))
                  false))
        (World (hypre_log w ++
                base_calls P layout (comm (globalGrid layout))
                  (length (hypre_log w)))
           (arrays w)))).
Proof.
  assert (∀ c, accepts c true = false → ∀ what,
            ctor_body c layout true
              (State (new_object c (comm (globalGrid layout)) true) w)
            = (Throw (logic_error what),
               State (new_object c (comm (globalGrid layout)) true) w) →
            make_shared c layout true w = (Throw (logic_error what), w))
    as Hrejected.
  { intros c Hacc what Hbody.
    destruct (make_shared_rejected_preconditioner c layout w Hacc)
      as (what' & Hrun & Hbody').
    rewrite Hbody in Hbody'. by injection Hbody' as <-. }
  split; [| split; [| split]].
  - by apply (Hrejected HypreStructPCG).
  - by apply (Hrejected HypreStructGMRES).
  - by apply (Hrejected HypreStructBiCGSTAB).
  - intros Hok. apply (make_shared_Diagonal_solver layout w Hok).
Qed.

(** X9. A solver the factory has built has no stencil and no matrix yet,
    and the member functions that need them do not check.  On whatever
    solver the factory returns with [is_preconditioner = false], [setup]
    called before [setMatrixStencil] reads the matrix handle no one has
    assigned, and [setMatrixValues] the stencil size no one has assigned:
    the behaviour of both calls is undefined. *)
Theorem stencil_must_come_first (P : Platform) (solver_type : string)
    (layout : ArrayLayout) (w w' : world P) (o : solver) (values : nat)
    (values_array : Array (Scalar P)) :
  createHypreStructuredSolver solver_type layout false w = (Ok o, w') →
  _A o = None ∧ _stencil_size o = None ∧
  (setup (State o w')).1 = Undefined ∧
  (arrays w' !! values = Some values_array →
   (setMatrixValues values (State o w')).1 = Undefined).
Proof.
  intros Hrun.
  assert (∃ c n0, o = built_object P c layout n0 false) as (c & n0 & ->).
  { destruct (solver_name_known solver_type) as [[c ->] | Hno].
    - destruct (factory_kind _ _ _ _ _ _ Hrun) as [_ Hacc].
      rewrite factory_dispatch in Hrun. apply make_shared_ok in Hrun.
      pose proof (post_ok _ _ _ _ _ (ctor_exact c layout false w Hacc) Hrun)
        as [= -> _].
      by eexists _, _.
    - by rewrite (factory_invalid _ _ _ _ Hno) in Hrun. }
  assert (_A (built_object P c layout n0 false) = None) as HA
    by (by destruct c).
  assert (_stencil_size (built_object P c layout n0 false) = None) as Hsize
    by (by destruct c).
  assert (isPreconditioner (built_object P c layout n0 false) = false)
    as Hflag by (by destruct c).
  split; [done |]. split; [done |]. split.
  - unfold setup. rewrite gate_open by done.
    unfold mbind, M_bind, initialised, read. cbn [this]. by rewrite HA.
  - intros Hvalues. unfold setMatrixValues. rewrite gate_open by done.
    unfold mbind, M_bind, array, initialised, read. cbn [this env].
    rewrite Hvalues. cbn [this env]. by rewrite Hsize.
Qed.

(** X10. [setPreconditioner] stores before it installs: on a solver that is
    not a preconditioner, given a preconditioner [p], the solver holds [p]
    after the call however the call ends, also when the class does not
    support preconditioning or HYPRE refuses the installation and the call
    throws. *)
Theorem setPreconditioner_stores_first (P : Platform) (s : state P)
    (p : solver) :
  isPreconditioner (this s) = false → isPreconditioner p = true →
  _preconditioner (this (setPreconditioner (Some p) s).2) = Some p.
Proof.
  intros Hflag Hp. unfold setPreconditioner. rewrite gate_open by done.
  unfold isPreconditioner in Hp. unfold isPreconditioner at 1.
  rewrite Hp. cbn [negb].
  unfold mbind at 1, M_bind at 1. cbn [assign modify].
  assert (preserves (λ s : state P, _preconditioner (this s))
            (setPreconditionerImpl p)) as Himpl
    by (unfold setPreconditionerImpl; pr).
  specialize (Himpl (State (set__preconditioner (Some p) (this s)) (env s))).
  destruct (setPreconditionerImpl p _) as [[[]|e|] s1]; cbn in *;
    rewrite Himpl; by destruct (this s).
Qed.

(** ** Buffers and boxes *)

Lemma volume_app l1 l2 : volume (l1 ++ l2) = volume l1 * volume l2.
Proof. induction l1 as [|e l1 IH]; cbn; [lia |]. rewrite IH. lia. Qed.

Lemma volume_reverse l : volume (reverse l) = volume l.
Proof.
  induction l as [|e l IH]; [done |].
  rewrite reverse_cons, volume_app, IH. cbn. lia.
Qed.

Lemma length_createView_LayoutRight {V} extents (f : list Z → V) :
  Z.of_nat (length (createView_LayoutRight extents f)) = volume extents.
Proof.
  unfold createView_LayoutRight.
  rewrite length_fmap, length_enumerate_right.
  pose proof (volume_nonneg extents). lia.
Qed.

Lemma grid_box_extents (P : Platform) (layout : ArrayLayout) :
  let n := num_space_dim layout in
  let global_space := indexSpace_Own_Global layout in
  0 < HYPRE_Int_bits P →
  (∀ d, (d < n)%nat →
     HYPRE_Int_holds P (min global_space d) ∧
     HYPRE_Int_holds P (max global_space d - 1)) →
  zip_with (λ lo up, up - lo + 1) (grid_lower P layout) (grid_upper P layout)
  = reverse (extent global_space <$> seq 0 n).
Proof.
  intros n gs Hbits Hholds. apply list_eq. intros i.
  unfold grid_lower, grid_upper. fold n gs.
  rewrite lookup_zip_with, !list_lookup_fmap.
  destruct (decide (i < n)%nat) as [Hlt|Hge].
  - rewrite lookup_seq_lt by done. cbn.
    rewrite reverse_lookup by (rewrite length_fmap, length_seq; lia).
    rewrite length_fmap, length_seq, list_lookup_fmap, lookup_seq_lt by lia.
    cbn. destruct (Hholds (n - i - 1)%nat) as [Hmin Hmax]; [lia |].
    unfold static_cast_HYPRE_Int. rewrite !to_signed_id by done.
    unfold extent. replace (n - S i)%nat with (n - i - 1)%nat by lia.
    f_equal. lia.
  - rewrite lookup_seq_ge by lia. cbn.
    rewrite lookup_ge_None_2; [done |].
    rewrite length_reverse, length_fmap, length_seq. lia.
Qed.

(** X11. The buffers the constructor hands to HYPRE fit the box it names.
    The box is given in reversed (KJI) dimension order and the buffer is
    sized in the array's (IJK) order, yet for every
    [HYPRE_StructVectorSetBoxValues] call of a returning constructor the
    number of values equals the number of cells between the lower and the
    upper bound, both inclusive.  The bounds are taken to be values a
    [HYPRE_Int] holds. *)
Theorem constructor_buffers_fit_box (P : Platform) (c : solver_class)
    (layout : ArrayLayout) (w : world P) (s' : state P) :
  let n := num_space_dim layout in
  let global_space := indexSpace_Own_Global layout in
  0 < HYPRE_Int_bits P →
  (∀ d, (d < n)%nat →
     HYPRE_Int_holds P (min global_space d) ∧
     HYPRE_Int_holds P (max global_space d - 1)) →
  HypreStructuredSolver_ctor layout
    (State (new_object c (comm (globalGrid layout)) false) w) = (Ok tt, s') →
  Forall values_fit_box (drop (length (hypre_log w)) (hypre_log (env s'))).
Proof.
  intros n gs Hbits Hholds Hrun.
  pose proof (post_ok _ _ _ _ _
    (base_ctor_spec layout (new_object c (comm (globalGrid layout)) false) w
       eq_refl eq_refl eq_refl) Hrun) as ->.
  cbn [this env hypre_log]. rewrite drop_app_length.
  assert (Z.of_nat (length (zero_values P layout))
          = box_volume (grid_lower P layout) (grid_upper P layout)) as Hfit.
  { unfold zero_values, box_volume.
    rewrite length_createView_LayoutRight, grid_box_extents by done.
    by rewrite volume_reverse. }
  unfold base_calls, vector_calls. repeat constructor; exact Hfit.
Qed.

(** ** From construction to solution *)

Lemma built_solver_members (P : Platform) c layout n0 :
  c ≠ HypreStructDiagonal →
  built_object P c layout n0 false
  = Solver c (comm (globalGrid layout)) false (Some (object n0))
      (grid_lower P layout) (grid_upper P layout) None None None
      (Some (object (n0 + 4))) (Some (object (n0 + 8))) None
      (Some (object (n0 + 12))).
Proof. by destruct c. Qed.


(** ** Tuning and querying *)

Section tuning.
Context {P : Platform} {T : TuningLibrary P}.
Implicit Types (t : whole_state P T) (c : solver_class).

Lemma to_HYPRE_Int_int z :
  32 ≤ HYPRE_Int_bits P → is_int z → to_HYPRE_Int P z = z.
Proof.
  intros Hbits Hz. unfold to_HYPRE_Int. apply to_signed_id; [lia |].
  assert (2 ^ 31 ≤ 2 ^ (HYPRE_Int_bits P - 1))
    by (apply Z.pow_le_mono_r; lia).
  unfold is_int in Hz. lia.
Qed.

End tuning.

Section tuning_theorems.
Context {P : Platform} {T : TuningLibrary P}.
Implicit Types (t : whole_state P T) (c : solver_class).

Lemma run_setter t (call : other_call (HYPRE_Real T)) :
  (error ← call_other call; lift_core (checkHypreError error)) t
  = checked call (answer call t) tt t.
Proof.
  destruct t as [s l].
  unfold mbind, M_bind, lift_core, call_other, checked, answer, tuned,
    tuning_error_cleared.
  cbn [core other_log fst snd]. cbn zeta.
  case_bool_decide as Herr.
  - by rewrite checkHypreError_ok.
  - by rewrite checkHypreError_throw by lia.
Qed.

Lemma run_initialised {A} t solver (k : handle → M (whole_state P T) A) :
  _solver (this (core t)) = Some solver →
  (solver' ← lift_core (initialised _solver); k solver') t = k solver t.
Proof.
  intros Hsolver. destruct t as [s l]. cbn in Hsolver.
  unfold mbind, M_bind, lift_core, initialised, read.
  cbn [core other_log fst snd]. by rewrite Hsolver.
Qed.

Lemma run_class {A} t (k : solver_class → M (whole_state P T) A) :
  (c ← lift_core (member dynamic_class); k c) t
  = k (dynamic_class (this (core t))) t.
Proof. by destruct t as [s l]. Qed.

(** X13. The diagonal preconditioner refuses to be tuned or queried: on an
    object of class [HypreStructDiagonal] each of [setTolerance],
    [setMaxIter], [setPrintLevel], [getNumIter] and
    [getFinalRelativeResidualNorm] throws [std::logic_error] with the same
    message, whatever the argument, calls nothing in HYPRE and changes
    nothing. *)
Theorem Diagonal_refuses_tuning t tol max_iter print_level :
  dynamic_class (this (core t)) = HypreStructDiagonal →
  setTolerance tol t
  = (Throw (logic_error "Diagonal preconditioner cannot be used as a solver"),
     t) ∧
  setMaxIter max_iter t
  = (Throw (logic_error "Diagonal preconditioner cannot be used as a solver"),
     t) ∧
  setPrintLevel print_level t
  = (Throw (logic_error "Diagonal preconditioner cannot be used as a solver"),
     t) ∧
  getNumIter t
  = (Throw (logic_error "Diagonal preconditioner cannot be used as a solver"),
     t) ∧
  getFinalRelativeResidualNorm t
  = (Throw (logic_error "Diagonal preconditioner cannot be used as a solver"),
     t).
Proof.
  intros Hclass.
  unfold setTolerance, setToleranceImpl, setMaxIter, setMaxIterImpl,
    setPrintLevel, setPrintLevelImpl, getNumIter, getNumIterImpl,
    getFinalRelativeResidualNorm, getFinalRelativeResidualNormImpl.
  rewrite !run_class, Hclass. done.
Qed.

(** X14. The Jacobi solver has no print level: on an object of class
    [HypreStructJacobi], [setPrintLevel] returns without calling HYPRE and
    changes nothing, for every level and even before the HYPRE solver
    exists; on every other class but the diagonal preconditioner it makes
    one call, with the level unchanged, on the solver's HYPRE object, and
    throws [std::runtime_error] exactly when the return code of that call,
    converted to [int] as [checkHypreError] receives it, is positive. *)
Theorem setPrintLevel_skips_Jacobi t print_level :
  (dynamic_class (this (core t)) = HypreStructJacobi →
   setPrintLevel print_level t = (Ok tt, t)) ∧
  (∀ solver,
     dynamic_class (this (core t)) ≠ HypreStructJacobi →
     dynamic_class (this (core t)) ≠ HypreStructDiagonal →
     _solver (this (core t)) = Some solver →
     32 ≤ HYPRE_Int_bits P → is_int print_level →
     let call :=
       HYPRE_StructSetPrintLevel (dynamic_class (this (core t))) solver
         print_level in
     setPrintLevel print_level t = checked call (answer call t) tt t).
Proof.
  unfold setPrintLevel, setPrintLevelImpl. rewrite run_class. split.
  - by intros ->.
  - intros solver HJ HD Hsolver Hbits Hint. cbn zeta.
    rewrite to_HYPRE_Int_int by done.
    destruct (dynamic_class (this (core t))); try done;
      by rewrite (run_initialised _ solver), run_setter.
Qed.

(** X15. Tolerance and iteration limit reach HYPRE on every class but the
    diagonal preconditioner, whether the object was built as a solver or as
    a preconditioner: [setTolerance] and [setMaxIter] make one call on the
    solver's HYPRE object with the value given, leave the solver object,
    the arrays and the log of the other calls as they are when the return
    code, converted to [int] as [checkHypreError] receives it, is not
    positive, and throw [std::runtime_error] with HYPRE's description when
    it is positive. *)
Theorem tuning_reaches_HYPRE t solver tol max_iter :
  dynamic_class (this (core t)) ≠ HypreStructDiagonal →
  _solver (this (core t)) = Some solver →
  32 ≤ HYPRE_Int_bits P → is_int max_iter →
  let c := dynamic_class (this (core t)) in
  let tolerance := HYPRE_StructSetTol c solver (to_HYPRE_Real T tol) in
  let limit := HYPRE_StructSetMaxIter c solver max_iter in
  setTolerance tol t = checked tolerance (answer tolerance t) tt t ∧
  setMaxIter max_iter t = checked limit (answer limit t) tt t.
Proof.
  intros HD Hsolver Hbits Hint. cbn zeta.
  unfold setTolerance, setToleranceImpl, setMaxIter, setMaxIterImpl.
  rewrite !run_class, to_HYPRE_Int_int by done.
  destruct (dynamic_class (this (core t))); try done;
    by rewrite !(run_initialised _ solver), !run_setter.
Qed.

Lemma run_query_iterations t (call : other_call (HYPRE_Real T)) :
  ('(error, num_iter) ← query_iterations call;
   lift_core (checkHypreError error) ;; mret (to_int num_iter)) t
  = checked call (answer call t)
      (to_int
         (num_iterations_written T (hypre_log (env (core t))) (other_log t)
            call)) t.
Proof.
  destruct t as [s l].
  unfold mbind, M_bind, lift_core, query_iterations, checked, answer, tuned,
    tuning_error_cleared.
  cbn [core other_log fst snd]. cbn zeta.
  case_bool_decide as Herr.
  - by rewrite checkHypreError_ok.
  - by rewrite checkHypreError_throw by lia.
Qed.

Lemma run_query_norm t (call : other_call (HYPRE_Real T)) :
  ('(error, norm) ← query_norm call;
   lift_core (checkHypreError error) ;; mret (of_HYPRE_Real T norm)) t
  = checked call (answer call t)
      (of_HYPRE_Real T
         (norm_written T (hypre_log (env (core t))) (other_log t) call)) t.
Proof.
  destruct t as [s l].
  unfold mbind, M_bind, lift_core, query_norm, checked, answer, tuned,
    tuning_error_cleared.
  cbn [core other_log fst snd]. cbn zeta.
  case_bool_decide as Herr.
  - by rewrite checkHypreError_ok.
  - by rewrite checkHypreError_throw by lia.
Qed.

(** X16. The queries return what HYPRE wrote: on every class but the
    diagonal preconditioner [getNumIter] makes one call and, when the
    return code converted to [int] (as [checkHypreError] receives it) is
    not positive, returns the iteration count HYPRE wrote (an [int] value
    comes back unchanged), and [getFinalRelativeResidualNorm] returns the
    norm HYPRE wrote; when the converted code is positive both throw
    [std::runtime_error] and return nothing. *)
Theorem queries_return_what_HYPRE_wrote t solver :
  dynamic_class (this (core t)) ≠ HypreStructDiagonal →
  _solver (this (core t)) = Some solver →
  let c := dynamic_class (this (core t)) in
  let iterations := HYPRE_StructGetNumIterations c solver in
  let norm := HYPRE_StructGetFinalRelativeResidualNorm c solver in
  let num_iter :=
    num_iterations_written T (hypre_log (env (core t))) (other_log t)
      iterations in
  is_int num_iter →
  getNumIter t = checked iterations (answer iterations t) num_iter t ∧
  getFinalRelativeResidualNorm t
  = checked norm (answer norm t)
      (of_HYPRE_Real T
         (norm_written T (hypre_log (env (core t))) (other_log t) norm)) t.
Proof.
  intros HD Hsolver. cbn zeta. intros Hint.
  unfold getNumIter, getNumIterImpl, getFinalRelativeResidualNorm,
    getFinalRelativeResidualNormImpl.
  rewrite !run_class.
  split.
  - destruct (dynamic_class (this (core t))); try done;
      rewrite !(run_initialised _ solver), run_query_iterations
        by done;
      unfold to_int; by rewrite to_signed_id by (done || lia).
  - destruct (dynamic_class (this (core t))); try done;
      by rewrite !(run_initialised _ solver), run_query_norm.
Qed.

End tuning_theorems.

(** ** What is created and what is destroyed *)

Section destruction.
Context {P : Platform} {T : TuningLibrary P}.
Implicit Types (t : whole_state P T) (c : solver_class).

Lemma created_by_app {V} n0 (xs ys : list (hypre_call V)) :
  created_by n0 (xs ++ ys)
  = created_by n0 xs ++ created_by (n0 + length xs) ys.
Proof.
  unfold created_by. rewrite imap_app, omap_app. f_equal.
  f_equal. apply imap_ext. intros i call _. cbn.
  by replace (n0 + (length xs + i))%nat with (n0 + length xs + i)%nat by lia.
Qed.

Lemma created_by_none {V} n0 (xs : list (hypre_call V)) :
  Forall (λ call, creates call = false) xs → created_by n0 xs = [].
Proof.
  unfold created_by. revert n0. induction xs as [| x xs IH]; intros n0 Hall.
  - done.
  - inversion_clear Hall as [| ?? Hx Hxs]. cbn. rewrite Hx. cbn.
    specialize (IH (S n0) Hxs).
    erewrite imap_ext; [exact IH |].
    intros i call _. cbn. by replace (n0 + S i)%nat with (S n0 + i)%nat by lia.
Qed.

Lemma run_call_other {A} t (call : other_call (HYPRE_Real T))
    (k : M (whole_state P T) A) :
  (call_other call ;; k) t = k (tuned call t).
Proof. by destruct t. Qed.

Lemma run_member {A B} t (f : solver → B) (k : B → M (whole_state P T) A) :
  (v ← lift_core (member f); k v) t = k (f (this (core t))) t.
Proof. by destruct t as [s l]. Qed.

Lemma run_read {A B} t (f : solver → option B) v
    (k : B → M (whole_state P T) A) :
  f (this (core t)) = Some v →
  (v' ← lift_core (initialised f); k v') t = k v t.
Proof.
  intros Hf. destruct t as [s l]. cbn in Hf.
  unfold mbind, M_bind, lift_core, initialised, read.
  cbn [core other_log fst snd]. by rewrite Hf.
Qed.

Lemma run_read_undefined {A B} t (f : solver → option B)
    (k : B → M (whole_state P T) A) :
  f (this (core t)) = None →
  (v' ← lift_core (initialised f); k v') t = (Undefined, t).
Proof.
  intros Hf. destruct t as [s l]. cbn in Hf.
  unfold mbind, M_bind, lift_core, initialised, read.
  cbn [core other_log fst snd]. by rewrite Hf.
Qed.

Lemma run_seq {A B} t t' (m : M (whole_state P T) B)
    (k : M (whole_state P T) A) v :
  m t = (Ok v, t') → (m ;; k) t = k t'.
Proof. intros Hm. unfold mbind, M_bind. by rewrite Hm. Qed.

Lemma run_class_dtor t c solver :
  dynamic_class (this (core t)) = c → c ≠ HypreStructDiagonal →
  _solver (this (core t)) = Some solver →
  class_dtor t = (Ok tt, tuned (HYPRE_StructDestroy c solver) t).
Proof.
  intros Hc HD Hsolver. unfold class_dtor. rewrite run_member, Hc.
  destruct c; try done; by rewrite (run_read _ _ solver), run_call_other.
Qed.

Lemma destructor_of_solver t c solver x b :
  dynamic_class (this (core t)) = c → c ≠ HypreStructDiagonal →
  _is_preconditioner (this (core t)) = false →
  _solver (this (core t)) = Some solver →
  _x (this (core t)) = Some x →
  _b (this (core t)) = Some b →
  (∀ A stencil grid,
     _A (this (core t)) = Some A →
     _stencil (this (core t)) = Some stencil →
     _grid (this (core t)) = Some grid →
     destructor t
     = (Ok tt,
        WholeState (core t)
          (other_log t ++ destructor_calls c solver x b A stencil grid))) ∧
  (_A (this (core t)) = None →
   destructor t
   = (Undefined,
      WholeState (core t)
        (other_log t ++
         [ HYPRE_StructDestroy c solver;
           HYPRE_StructVectorDestroy x;
           HYPRE_StructVectorDestroy b ]))).
Proof.
  intros Hc HD Hpre Hsolver Hx Hb.
  unfold destructor.
  split; [intros A stencil grid HA Hstencil Hgrid | intros HA].
  all: erewrite run_seq by (by apply run_class_dtor).
  all: unfold HypreStructuredSolver_dtor.
  all: rewrite run_member; cbn [core tuned]; rewrite Hpre; cbn [negb].
  all: rewrite (run_read _ _ x), run_call_other by done.
  all: rewrite (run_read _ _ b), run_call_other by done.
  - rewrite (run_read _ _ A), run_call_other by done.
    rewrite (run_read _ _ stencil), run_call_other by done.
    rewrite (run_read _ _ grid), run_call_other by done.
    unfold tuned, destructor_calls. cbn [core other_log mret M_ret].
    by rewrite <- !app_assoc.
  - rewrite run_read_undefined by done.
    unfold tuned. cbn [core other_log]. by rewrite <- !app_assoc.
Qed.

End destruction.

Lemma created_by_built (P : Platform) c grid_layout n0 :
  c ≠ HypreStructDiagonal →
  created_by n0 (built_calls P c grid_layout n0 false)
  = [object n0; object (n0 + 4); object (n0 + 8); object (n0 + 12)].
Proof.
  intros Hc.
  destruct c; try done;
    unfold built_calls, base_calls, vector_calls, created_by; cbn;
    by rewrite !Nat.add_0_r.
Qed.

(** X17. A solver destroys what it created, once each.  For a class other
    than Diagonal, destroying the solver the factory built and
    [setMatrixStencil] completed makes six calls: the HYPRE solver, then
    the vectors x and b, the matrix, the stencil and the grid.  The handles
    destroyed are exactly the handles of the objects the constructor and
    [setMatrixStencil] created, and none is destroyed twice. *)
Theorem destructor_destroys_what_was_created (P : Platform)
    (T : TuningLibrary P) (c : solver_class) (grid_layout : ArrayLayout)
    (w : world P) (NumSpaceDim : nat) (stencil : list (list Z))
    (is_symmetric : bool) (t : whole_state P T) :
  c ≠ HypreStructDiagonal →
  let n0 := length (hypre_log w) in
  let built := State (built_object P c grid_layout n0 false)
                 (World (hypre_log w ++ built_calls P c grid_layout n0 false)
                    (arrays w)) in
  let ready := stencil_set built NumSpaceDim stencil is_symmetric (object n0) in
  let n1 := length (hypre_log (env built)) in
  let calls :=
    destructor_calls c (object (n0 + 12)) (object (n0 + 8)) (object (n0 + 4))
      (object (n1 + 1 + length stencil)) (object n1) (object n0) in
  this (core t) = this ready →
  destructor t = (Ok tt, WholeState (core t) (other_log t ++ calls)) ∧
  omap destroys calls ≡ₚ created_by n0 (drop n0 (hypre_log (env ready))) ∧
  NoDup (omap destroys calls).
Proof.
  intros Hc n0 built ready n1 calls Hthis.
  pose proof (built_solver_members P c grid_layout n0 Hc) as Hbuilt.
  assert (this ready
          = Solver c (comm (globalGrid grid_layout)) false (Some (object n0))
              (grid_lower P grid_layout) (grid_upper P grid_layout)
              (Some (object n1)) (Some (Z.of_nat (length stencil)))
              (Some (object (n1 + 1 + length stencil)))
              (Some (object (n0 + 4))) (Some (object (n0 + 8))) None
              (Some (object (n0 + 12)))) as Hready.
  { unfold ready, stencil_set. cbn [this]. unfold built at 3. cbn [this].
    by rewrite Hbuilt. }
  rewrite Hready in Hthis.
  assert (n1 = n0 + length (built_calls P c grid_layout n0 false))%nat as Hn1.
  { unfold n1, built. cbn [env hypre_log]. by rewrite length_app. }
  assert (n0 + 13 ≤ n1)%nat as Hlate
    by (rewrite Hn1; unfold built_calls, base_calls, vector_calls;
        destruct c; try done; cbn; lia).
  assert (NoDup (omap destroys calls)) as Hnodup.
  { unfold calls, destructor_calls. cbn [omap list_omap destroys].
    repeat (apply NoDup_cons; split;
            [rewrite ?not_elem_of_cons;
             repeat split; try apply not_elem_of_nil; intros [=]; lia |]).
    apply NoDup_nil_2. }
  split; [| split; [| done]].
  - apply (destructor_of_solver t c (object (n0 + 12)) (object (n0 + 8))
             (object (n0 + 4))); (done || by rewrite Hthis).
  - unfold ready, stencil_set. cbn [env hypre_log].
    change (hypre_log (env built))
      with (hypre_log w ++ built_calls P c grid_layout n0 false).
    rewrite <- app_assoc, drop_app_length' by done.
    rewrite created_by_app, <- Hn1.
    change (?x :: ?l ++ ?k) with ([x] ++ l ++ k).
    rewrite !created_by_app.
    rewrite (created_by_none _ (imap _ _)).
    2:{ apply Forall_forall. intros call [i [entry [-> _]]]%elem_of_lookup_imap.
        done. }
    rewrite length_imap, created_by_built by done.
    unfold created_by. cbn. rewrite !Nat.add_0_r.
    change (length (hypre_log w ++ built_calls P c grid_layout n0 false))
      with n1.
    apply NoDup_Permutation; [done | |].
    + repeat (apply NoDup_cons; split;
              [rewrite ?not_elem_of_cons;
               repeat split; try apply not_elem_of_nil; intros [=]; lia |]).
      apply NoDup_nil_2.
    + intros h. unfold calls, destructor_calls. cbn [omap list_omap destroys].
      rewrite !elem_of_cons, !elem_of_nil. tauto.
Qed.

(** X18. A solver cannot be destroyed before [setMatrixStencil] has run:
    the constructors leave [_A] and [_stencil] uninitialised, and the
    destructor of the base class passes them to HYPRE.  For a class other
    than Diagonal, destroying the solver as the factory built it destroys
    the HYPRE solver and the two vectors and then reads the uninitialised
    [_A], which is undefined behaviour. *)
Theorem destructor_before_stencil_is_undefined (P : Platform)
    (T : TuningLibrary P) (c : solver_class) (grid_layout : ArrayLayout)
    (n0 : nat) (t : whole_state P T) :
  c ≠ HypreStructDiagonal →
  this (core t) = built_object P c grid_layout n0 false →
  destructor t
  = (Undefined,
     WholeState (core t)
       (other_log t ++
        [ HYPRE_StructDestroy c (object (n0 + 12));
          HYPRE_StructVectorDestroy (object (n0 + 8));
          HYPRE_StructVectorDestroy (object (n0 + 4)) ])).
Proof.
  intros Hc Hthis. rewrite built_solver_members in Hthis by done.
  apply (destructor_of_solver t c (object (n0 + 12)) (object (n0 + 8))
           (object (n0 + 4))); (done || by rewrite Hthis).
Qed.

(** X19. A preconditioner owns only its HYPRE solver: destroying an object
    the factory built with [is_preconditioner = true] destroys exactly what
    its constructor created, that is the HYPRE solver of a PFMG, SMG or
    Jacobi preconditioner and nothing for the diagonal one; the base
    class's grid, vectors, matrix and stencil are not touched. *)
Theorem preconditioner_destructor (P : Platform) (T : TuningLibrary P)
    (c : solver_class) (grid_layout : ArrayLayout) (n0 : nat)
    (t : whole_state P T) :
  accepts c true = true →
  this (core t) = built_object P c grid_layout n0 true →
  ∃ calls,
    destructor t = (Ok tt, WholeState (core t) (other_log t ++ calls)) ∧
    calls = (if bool_decide (c = HypreStructDiagonal) then []
             else [HYPRE_StructDestroy c (object n0)]) ∧
    omap destroys calls = created_by n0 (built_calls P c grid_layout n0 true).
Proof.
  intros Hacc Hthis.
  destruct c; try done; eexists; (split; [| split; [reflexivity |]]).
  all: try (unfold created_by; cbn; by rewrite ?Nat.add_0_r).
  all: unfold destructor, class_dtor, HypreStructuredSolver_dtor.
  all: destruct t as [[o w] l]; cbn in Hthis; subst o.
  all: by rewrite ?app_nil_r.
Qed.

Lemma created_by_stencil_set {P} (s : state P) n NumSpaceDim stencil
    is_symmetric grid :
  (n ≤ length (hypre_log (env s)))%nat →
  created_by n
    (drop n
       (hypre_log (env (stencil_set s NumSpaceDim stencil is_symmetric grid))))
  = created_by n (drop n (hypre_log (env s)))
    ++ [ object (length (hypre_log (env s)));
         object (length (hypre_log (env s)) + 1 + length stencil) ].
Proof.
  intros Hn. unfold stencil_set. cbn [env hypre_log].
  rewrite drop_app_le by done.
  rewrite created_by_app, length_drop.
  replace (n + (length (hypre_log (env s)) - n))%nat
    with (length (hypre_log (env s))) by lia.
  f_equal.
  change (?x :: ?l ++ ?k) with ([x] ++ l ++ k).
  rewrite !created_by_app, (created_by_none _ (imap _ _)).
  2:{ apply Forall_forall. intros call [i [entry [-> _]]]%elem_of_lookup_imap.
      done. }
  rewrite length_imap. unfold created_by. cbn. by rewrite !Nat.add_0_r.
Qed.

(** X20. Setting the stencil a second time leaks the first stencil and the
    first matrix.  On the solver the factory built (any class but
    Diagonal), two calls of [setMatrixStencil] both return when HYPRE
    reports no error; each creates a stencil and a matrix, and the members
    keep only the second pair.  Destroying the solver then destroys every
    object that was created except the first stencil and the first
    matrix. *)
Theorem second_stencil_leaks_the_first (P : Platform) (T : TuningLibrary P)
    (c : solver_class) (grid_layout : ArrayLayout) (w : world P)
    (NumSpaceDim1 NumSpaceDim2 : nat) (stencil1 stencil2 : list (list Z))
    (is_symmetric1 is_symmetric2 : bool) :
  no_error P →
  c ≠ HypreStructDiagonal →
  32 ≤ HYPRE_Int_bits P →
  Z.of_nat (length stencil1) < 2 ^ 31 →
  Z.of_nat (length stencil2) < 2 ^ 31 →
  Forall (λ entry, length entry = NumSpaceDim1) stencil1 →
  Forall (λ entry, length entry = NumSpaceDim2) stencil2 →
  let n0 := length (hypre_log w) in
  let built := State (built_object P c grid_layout n0 false)
                 (World (hypre_log w ++ built_calls P c grid_layout n0 false)
                    (arrays w)) in
  let n1 := length (hypre_log (env built)) in
  ∃ s2,
    (setMatrixStencil NumSpaceDim1 stencil1 is_symmetric1 ;;
     setMatrixStencil NumSpaceDim2 stencil2 is_symmetric2) built
    = (Ok tt, s2) ∧
    ∀ t : whole_state P T,
      this (core t) = this s2 →
      ∃ calls,
        destructor t = (Ok tt, WholeState (core t) (other_log t ++ calls)) ∧
        created_by n0 (drop n0 (hypre_log (env s2)))
        ≡ₚ omap destroys calls
           ++ [object n1; object (n1 + 1 + length stencil1)].
Proof.
  intros Hok Hc Hbits Hlen1 Hlen2 Hall1 Hall2 n0 built n1.
  pose proof (built_solver_members P c grid_layout n0 Hc) as Hbuilt.
  destruct (post_no_error _ _ _ Hok
              (setMatrixStencil_spec built NumSpaceDim1 stencil1 is_symmetric1
                 (object n0) Hbits Hlen1 Hall1
                 ltac:(unfold built; cbn [this]; by rewrite Hbuilt)
                 ltac:(unfold built; cbn [this]; by rewrite Hbuilt)))
    as ([] & s1 & Hrun1 & ->).
  set (ready1 := stencil_set built NumSpaceDim1 stencil1 is_symmetric1
                   (object n0)) in *.
  assert (this ready1
          = Solver c (comm (globalGrid grid_layout)) false (Some (object n0))
              (grid_lower P grid_layout) (grid_upper P grid_layout)
              (Some (object n1)) (Some (Z.of_nat (length stencil1)))
              (Some (object (n1 + 1 + length stencil1)))
              (Some (object (n0 + 4))) (Some (object (n0 + 8))) None
              (Some (object (n0 + 12)))) as Hready1.
  { unfold ready1, stencil_set. cbn [this]. unfold built at 3. cbn [this].
    by rewrite Hbuilt. }
  destruct (post_no_error _ _ _ Hok
              (setMatrixStencil_spec ready1 NumSpaceDim2 stencil2 is_symmetric2
                 (object n0) Hbits Hlen2 Hall2
                 ltac:(by rewrite Hready1) ltac:(by rewrite Hready1)))
    as ([] & s2 & Hrun2 & ->).
  set (ready2 := stencil_set ready1 NumSpaceDim2 stencil2 is_symmetric2
                   (object n0)) in *.
  set (n2 := length (hypre_log (env ready1))).
  assert (this ready2
          = Solver c (comm (globalGrid grid_layout)) false (Some (object n0))
              (grid_lower P grid_layout) (grid_upper P grid_layout)
              (Some (object n2)) (Some (Z.of_nat (length stencil2)))
              (Some (object (n2 + 1 + length stencil2)))
              (Some (object (n0 + 4))) (Some (object (n0 + 8))) None
              (Some (object (n0 + 12)))) as Hready2.
  { unfold ready2, stencil_set at 1. cbn [this]. by rewrite Hready1. }
  exists ready2. split.
  { unfold mbind, M_bind. by rewrite Hrun1. }
  intros t Hthis. rewrite Hready2 in Hthis.
  eexists. split.
  { apply (destructor_of_solver t c (object (n0 + 12)) (object (n0 + 8))
             (object (n0 + 4))); (done || by rewrite Hthis). }
  assert (n1 = n0 + length (built_calls P c grid_layout n0 false))%nat as Hn1.
  { unfold n1, built. cbn [env hypre_log]. by rewrite length_app. }
  assert (n0 ≤ n1)%nat by lia.
  assert (n0 + 13 ≤ n1)%nat as Hlate
    by (rewrite Hn1; unfold built_calls, base_calls, vector_calls;
        destruct c; try done; cbn; lia).
  assert (n2 = n1 + 3 + length stencil1)%nat as Hn2.
  { unfold n2, ready1, stencil_set. cbn [env hypre_log]. fold n1.
    rewrite length_app. cbn [length]. rewrite length_app, length_imap.
    cbn [length]. lia. }
  unfold ready2. rewrite created_by_stencil_set by (fold n2; lia).
  unfold ready1. rewrite created_by_stencil_set by (fold n1; lia).
  fold ready1. fold n1. fold n2.
  unfold built. cbn [env hypre_log].
  rewrite drop_app_length' by done.
  rewrite created_by_built by done.
  unfold destructor_calls. cbn [omap list_omap destroys app].
  apply NoDup_Permutation.
  - repeat (apply NoDup_cons; split;
            [rewrite ?not_elem_of_cons;
             repeat split; try apply not_elem_of_nil; intros [=]; lia |]).
    apply NoDup_nil_2.
  - repeat (apply NoDup_cons; split;
            [rewrite ?not_elem_of_cons;
             repeat split; try apply not_elem_of_nil; intros [=]; lia |]).
    apply NoDup_nil_2.
  - intros h. rewrite !elem_of_cons, !elem_of_nil. tauto.
Qed.

(** ** Exceptions that leave a constructor *)

Section unwinding.
Context {P : Platform} {T : TuningLibrary P}.

Lemma base_dtor_preconditioner (t : whole_state P T) :
  _is_preconditioner (this (core t)) = true →
  HypreStructuredSolver_dtor t = (Ok tt, t).
Proof.
  intros Hflag. unfold HypreStructuredSolver_dtor.
  rewrite run_member, Hflag. done.
Qed.

Lemma base_dtor_without_matrix (t : whole_state P T) x b :
  _is_preconditioner (this (core t)) = false →
  _x (this (core t)) = Some x → _b (this (core t)) = Some b →
  _A (this (core t)) = None →
  HypreStructuredSolver_dtor t
  = (Undefined,
     WholeState (core t)
       (other_log t ++
        [HYPRE_StructVectorDestroy x; HYPRE_StructVectorDestroy b])).
Proof.
  intros Hflag Hx Hb HA. unfold HypreStructuredSolver_dtor.
  rewrite run_member, Hflag. cbn [negb].
  rewrite (run_read _ _ x), run_call_other by done.
  rewrite (run_read _ _ b), run_call_other by done.
  rewrite run_read_undefined by done.
  unfold tuned. cbn [core other_log]. by rewrite <- !app_assoc.
Qed.

(** The log of destructor calls grows only on the way to undefined
    behaviour: no constructor assigns [_A], so the destructor that runs
    while an exception unwinds either is that of a preconditioner and
    calls nothing, or reads the unassigned [_A]. *)
Lemma unwinding_log c layout (flag : bool) (w w' : world P)
    (others others' : list (other_call (HYPRE_Real T))) r :
  make_shared_unwinding c layout flag (w, others) = (r, (w', others')) →
  r ≠ Undefined → others' = others.
Proof.
  assert (∀ m : M (state P) unit,
            preserves (λ s : state P,
                         (_A (this s), _is_preconditioner (this s))) m →
            ∀ s, _A (this (m s).2) = _A (this s) ∧
                 _is_preconditioner (this (m s).2)
                 = _is_preconditioner (this s)) as Hpair.
  { intros m Hm s. specialize (Hm s). by injection Hm. }
  assert (preserves (λ s : state P,
                       (_A (this s), _is_preconditioner (this s)))
            (HypreStructuredSolver_ctor layout)) as Hbase.
  { unfold HypreStructuredSolver_ctor, create_vector. pr. }
  assert (preserves (λ s : state P,
                       (_A (this s), _is_preconditioner (this s)))
            (ctor_body c layout flag)) as Hbody.
  { unfold ctor_body, create_solver. destruct c; pr. }
  unfold make_shared_unwinding.
  destruct (Hpair _ Hbase
              (State (new_object c (comm (globalGrid layout)) flag) w))
    as [HA1 Hflag1].
  destruct (HypreStructuredSolver_ctor layout _) as [[[]|e|] s1];
    [| by intros [= <- <- <-] ..].
  destruct (Hpair _ Hbody s1) as [HA2 Hflag2].
  destruct (ctor_body c layout flag s1) as [[[]|e|] s2];
    [by intros [= <- <- <-] | | by intros [= <- <- <-]].
  cbn [fst snd this] in *.
  destruct (base_dtor_cases (WholeState s2 others))
    as (r' & l1 & -> & Hpre & Hundef & _).
  cbn [core other_log] in *.
  rewrite HA2, HA1 in Hundef. rewrite Hflag2, Hflag1 in Hpre, Hundef.
  destruct flag.
  - destruct (Hpre eq_refl) as [-> ->]. by intros [= <- <- <-].
  - rewrite (Hundef eq_refl eq_refl). by intros [= <- <- <-].
Qed.

End unwinding.

(** X21. A constructor that throws after the base class is built unwinds
    through [~HypreStructuredSolver].  Rejecting a PCG, GMRES or BiCGSTAB
    preconditioner is clean: [std::logic_error] comes out and HYPRE is not
    called at all.  Rejecting a diagonal preconditioner built as a solver
    is not: the base constructor has created the grid and the vectors, the
    destructor destroys the two vectors and then reads [_A], which no one
    has assigned, so the behaviour is undefined instead of the
    [std::logic_error] reaching the caller; the grid is never destroyed. *)
Theorem rejected_construction_unwinds (P : Platform) (T : TuningLibrary P)
    (layout : ArrayLayout) (w : world P)
    (others : list (other_call (HYPRE_Real T))) :
  no_error P →
  let n0 := length (hypre_log w) in
  (∀ c, accepts c true = false →
     ∃ what,
       make_shared_unwinding c layout true (w, others)
       = (Throw (logic_error what), (w, others))) ∧
  make_shared_unwinding HypreStructDiagonal layout false (w, others)
  = (Undefined,
     (World (hypre_log w ++ base_calls P layout (comm (globalGrid layout)) n0)
        (arrays w),
      others ++ [ HYPRE_StructVectorDestroy (object (n0 + 8));
                  HYPRE_StructVectorDestroy (object (n0 + 4)) ])).
Proof.
  intros Hok n0. split.
  - intros c Hacc. unfold make_shared_unwinding.
    rewrite base_ctor_preconditioner by done.
    destruct c; try done; eexists; cbn;
      rewrite base_dtor_preconditioner by done; by destruct w.
  - unfold make_shared_unwinding.
    destruct (post_no_error _ _ _ Hok
                (base_ctor_exact layout HypreStructDiagonal false w))
      as ([] & s1 & -> & ->).
    cbn [ctor_body negb throw].
    erewrite base_dtor_without_matrix by done. done.
Qed.


(** ** The further properties at the sample inputs *)

Example pcg_built_with_values_by_factory :
  let r := @createHypreStructuredSolver host_platform "PCG" (sample_layout 1)
             false (sample_world host_platform arrays_with_values) in
  r.1 = Ok (this pcg_built_with_values) ∧
  hypre_log r.2 = hypre_log (env pcg_built_with_values).
Proof. vm_compute. split; reflexivity. Qed.

Example jacobi_preconditioner_by_factory :
  let r := @createHypreStructuredSolver host_platform "Jacobi"
             (sample_layout 1) true
             (sample_world host_platform sample_arrays) in
  r.1 = Ok (this jacobi_preconditioner) ∧
  hypre_log r.2 = hypre_log (env jacobi_preconditioner).
Proof. vm_compute. split; reflexivity. Qed.

Example echo_ready_by_setMatrixStencil :
  let built :=
    constructed (sample_platform HostSpace echoing_hypre) "PCG"
      (sample_layout 1) false sample_arrays in
  let r := setMatrixStencil 2 five_point true built in
  r.1 = Ok tt ∧ this r.2 = this echo_ready ∧
  hypre_log (env r.2) = hypre_log (env echo_ready).
Proof. vm_compute. repeat split; reflexivity. Qed.

Example pcg_ready_with_values_by_setMatrixStencil :
  let r := setMatrixStencil 2 five_point true pcg_built_with_values in
  r.1 = Ok tt ∧ this r.2 = this pcg_ready_with_values ∧
  hypre_log (env r.2) = hypre_log (env pcg_ready_with_values).
Proof. vm_compute. repeat split; reflexivity. Qed.


Lemma solve_stages_forcing_term_witness :
  ∃ staged,
    hypre_log (env (solve 0%nat 1%nat (pcg_ready HostSpace)).2) !! 23%nat
    = Some (HYPRE_StructVectorSetBoxValues (object 4) [1; 2] [2; 4] staged) ∧
    staged !! 3%nat = Some 22.
Proof.
  destruct (solve_stages_forcing_term host_platform (pcg_ready HostSpace)
              (solve 0%nat 1%nat (pcg_ready HostSpace)).2 0%nat 1%nat
              {| layout := sample_layout 1;
                 view := λ idx, 10 * idx !!! 0%nat + idx !!! 1%nat |}
              {| layout := sample_layout 1; view := λ _, 5 |}
              (object 4) (object 20) (object 8) (object 12))
    as (staged & Hcall & _ & Hat);
    try reflexivity; try discriminate.
  exists staged. split; [exact Hcall |].
  exact (Hat [2; 2; 0] ltac:(vm_compute; reflexivity)).
Defined.

Lemma solve_round_trip_witness :
  ∃ x_after,
    arrays (env (solve 0%nat 1%nat echo_ready).2) !! 1%nat = Some x_after ∧
    view x_after [2; 1; 0] = 21 ∧ view x_after [3; 2; 0] = 32.
Proof.
  destruct (solve_round_trip (sample_platform HostSpace echoing_hypre)
              echo_ready (solve 0%nat 1%nat echo_ready).2 0%nat 1%nat
              {| layout := sample_layout 1;
                 view := λ idx, 10 * idx !!! 0%nat + idx !!! 1%nat |}
              {| layout := sample_layout 1; view := λ _, 5 |}
              (object 4) (object 20) (object 8) (object 12))
    as (x_after & Hx & Howned);
    try reflexivity; try discriminate.
  exists x_after. split; [exact Hx |]. split.
  - exact (Howned [2; 1; 0] ltac:(vm_compute; reflexivity)).
  - exact (Howned [3; 2; 0] ltac:(vm_compute; reflexivity)).
Defined.

Lemma setup_calls_class_setup_witness :
  setup (pcg_ready HostSpace)
  = (Ok tt,
     logged (HYPRE_StructSetupCall HypreStructPCG (object 12) (object 20)
               (object 4) (object 8))
       (pcg_ready HostSpace)).
Proof.
  rewrite (setup_calls_class_setup (sample_platform HostSpace agreeable_hypre)
             (pcg_ready HostSpace)
             (object 20) (object 4) (object 8) (object 12))
    by (reflexivity || discriminate).
  reflexivity.
Defined.

Lemma factory_builds_witness :
  @createHypreStructuredSolver host_platform "PCG" (sample_layout 1) false
    (sample_world host_platform sample_arrays)
  = (Ok pcg_object, env (pcg_constructed HostSpace)).
Proof.
  apply (proj2 (factory_builds host_platform HypreStructPCG (sample_layout 1)
                  false (sample_world host_platform sample_arrays) eq_refl)).
  intros log c. apply Z.le_refl.
Defined.

Lemma rejected_construction_witness :
  @createHypreStructuredSolver host_platform "PCG" (sample_layout 1) true
    (sample_world host_platform sample_arrays)
  = (Throw (logic_error "HYPRE PCG cannot be used as a preconditioner"),
     sample_world host_platform sample_arrays) ∧
  @HypreStructDiagonal_ctor host_platform (sample_layout 1) false
    (State (new_object HypreStructDiagonal 0%nat false)
       (sample_world host_platform sample_arrays))
  = (Throw (logic_error "Diagonal preconditioner cannot be used as a solver"),
     sample_state HostSpace
       {| dynamic_class := HypreStructDiagonal;
          _comm := 0%nat;
          _is_preconditioner := false;
          _grid := Some (object 0);
          _lower := [1; 2];
          _upper := [2; 4];
          _stencil := None;
          _stencil_size := None;
          _A := None;
          _b := Some (object 4);
          _x := Some (object 8);
          _preconditioner := None;
          _solver := None |}
       (take 12 pcg_calls)).
Proof.
  destruct (rejected_construction host_platform (sample_layout 1)
              (sample_world host_platform sample_arrays))
    as (HPCG & _ & _ & HDiagonal).
  split; [exact HPCG |].
  apply HDiagonal. intros log c. apply Z.le_refl.
Defined.

Lemma stencil_must_come_first_witness :
  (setup (pcg_constructed HostSpace)).1 = Undefined ∧
  (setMatrixValues 2%nat (pcg_constructed HostSpace)).1 = Undefined.
Proof.
  destruct (stencil_must_come_first host_platform "PCG" (sample_layout 1)
              (sample_world host_platform sample_arrays)
              (env (pcg_constructed HostSpace)) pcg_object
              2%nat {| layout := sample_layout 3; view := λ _, 1 |})
    as (_ & _ & Hsetup & Hvalues).
  - vm_compute. reflexivity.
  - split; [exact Hsetup | apply Hvalues; reflexivity].
Defined.

Lemma setPreconditioner_stores_first_witness :
  (setPreconditioner (Some diagonal_preconditioner) pfmg_solver).1
  = Throw (logic_error "HYPRE PFMG solver does not support preconditioning.") ∧
  _preconditioner
    (this (setPreconditioner (Some diagonal_preconditioner) pfmg_solver).2)
  = Some diagonal_preconditioner.
Proof.
  split; [vm_compute; reflexivity |].
  apply (setPreconditioner_stores_first host_platform pfmg_solver
           diagonal_preconditioner); reflexivity.
Defined.

Lemma constructor_buffers_fit_box_witness :
  Forall values_fit_box (take 12 pcg_calls).
Proof.
  apply (constructor_buffers_fit_box host_platform HypreStructPCG
           (sample_layout 1) (sample_world host_platform sample_arrays)
           (sample_state HostSpace (set__solver None pcg_object)
              (take 12 pcg_calls))).
  - reflexivity.
  - intros [| [| d]] Hd;
      [vm_compute; repeat split; congruence.. | cbn in Hd; lia].
  - vm_compute. reflexivity.
Defined.


Lemma Diagonal_refuses_tuning_witness :
  let t := untuned (sample_state HostSpace diagonal_preconditioner []) in
  setMaxIter 10 t
  = (Throw (logic_error "Diagonal preconditioner cannot be used as a solver"),
     t) ∧
  getNumIter t
  = (Throw (logic_error "Diagonal preconditioner cannot be used as a solver"),
     t).
Proof.
  intros t.
  destruct (Diagonal_refuses_tuning t 0 10 0 eq_refl)
    as (_ & Hiter & _ & Hnum & _).
  by split.
Defined.

Lemma setPrintLevel_skips_Jacobi_witness :
  setPrintLevel 2 (untuned jacobi_preconditioner)
  = (Ok tt, untuned jacobi_preconditioner) ∧
  setPrintLevel 2 (untuned smg_preconditioner)
  = (Ok tt,
     tuned (HYPRE_StructSetPrintLevel HypreStructSMG (object 0) 2)
       (untuned smg_preconditioner)).
Proof.
  split.
  - apply (proj1 (setPrintLevel_skips_Jacobi (untuned jacobi_preconditioner) 2)).
    reflexivity.
  - rewrite (proj2 (setPrintLevel_skips_Jacobi (untuned smg_preconditioner) 2)
               (object 0));
      [reflexivity | discriminate | discriminate | reflexivity
      | vm_compute; congruence | vm_compute; split; congruence].
Defined.

Lemma tuning_reaches_HYPRE_witness :
  isPreconditioner (this smg_preconditioner) = true ∧
  setTolerance (T := agreeable_tuning host_platform) 4
    (untuned smg_preconditioner)
  = (Ok tt,
     tuned (T := agreeable_tuning host_platform)
       (HYPRE_StructSetTol HypreStructSMG (object 0) 4)
       (untuned smg_preconditioner)) ∧
  setMaxIter 1 (untuned smg_preconditioner)
  = (Ok tt,
     tuned (HYPRE_StructSetMaxIter HypreStructSMG (object 0) 1)
       (untuned smg_preconditioner)).
Proof.
  destruct (tuning_reaches_HYPRE (untuned smg_preconditioner) (object 0) 4 1)
    as [Htol Hiter].
  - discriminate.
  - reflexivity.
  - vm_compute. congruence.
  - vm_compute. split; congruence.
  - split; [reflexivity |]. split; [exact Htol | exact Hiter].
Defined.

Lemma queries_return_what_HYPRE_wrote_witness :
  getNumIter (untuned (pcg_ready HostSpace))
  = (Ok 7,
     tuned (HYPRE_StructGetNumIterations HypreStructPCG (object 12))
       (untuned (pcg_ready HostSpace))) ∧
  getFinalRelativeResidualNorm (untuned (pcg_ready HostSpace))
  = (Ok 3,
     tuned (HYPRE_StructGetFinalRelativeResidualNorm HypreStructPCG
              (object 12))
       (untuned (pcg_ready HostSpace))).
Proof.
  destruct (queries_return_what_HYPRE_wrote (untuned (pcg_ready HostSpace))
              (object 12)) as [Hnum Hnorm].
  - discriminate.
  - reflexivity.
  - vm_compute. split; congruence.
  - split; [exact Hnum | exact Hnorm].
Defined.

Lemma destructor_destroys_what_was_created_witness :
  destructor (untuned (pcg_ready HostSpace))
  = (Ok tt,
     WholeState (pcg_ready HostSpace)
       [ HYPRE_StructDestroy HypreStructPCG (object 12);
         HYPRE_StructVectorDestroy (object 8);
         HYPRE_StructVectorDestroy (object 4);
         HYPRE_StructMatrixDestroy (object 20);
         HYPRE_StructStencilDestroy (object 14);
         HYPRE_StructGridDestroy (object 0) ]).
Proof.
  apply (destructor_destroys_what_was_created host_platform
           (agreeable_tuning host_platform) HypreStructPCG (sample_layout 1)
           (sample_world host_platform sample_arrays) 2 five_point true
           (untuned (pcg_ready HostSpace))).
  - discriminate.
  - vm_compute. reflexivity.
Defined.

Lemma destructor_before_stencil_is_undefined_witness :
  destructor (untuned (pcg_constructed HostSpace))
  = (Undefined,
     WholeState (pcg_constructed HostSpace)
       [ HYPRE_StructDestroy HypreStructPCG (object 12);
         HYPRE_StructVectorDestroy (object 8);
         HYPRE_StructVectorDestroy (object 4) ]).
Proof.
  apply (destructor_before_stencil_is_undefined host_platform
           (agreeable_tuning host_platform) HypreStructPCG (sample_layout 1)
           0 (untuned (pcg_constructed HostSpace))).
  - discriminate.
  - vm_compute. reflexivity.
Defined.

Lemma preconditioner_destructor_witness :
  ∃ calls,
    destructor (untuned smg_preconditioner)
    = (Ok tt, WholeState smg_preconditioner ([] ++ calls)) ∧
    calls = [HYPRE_StructDestroy HypreStructSMG (object 0)].
Proof.
  destruct (preconditioner_destructor host_platform
              (agreeable_tuning host_platform) HypreStructSMG
              (sample_layout 1) 0 (untuned smg_preconditioner))
    as (calls & Hrun & Hcalls & _).
  - reflexivity.
  - reflexivity.
  - exists calls. split; [exact Hrun | exact Hcalls].
Defined.

Lemma second_stencil_leaks_the_first_witness :
  ∃ s2,
    (setMatrixStencil 2 five_point true ;;
     setMatrixStencil 2 five_point false) (pcg_constructed HostSpace)
    = (Ok tt, s2) ∧
    this s2
    = set__A (Some (object 28))
        (set__stencil (Some (object 22))
           (set__stencil_size (Some 5) pcg_object)).
Proof.
  destruct (second_stencil_leaks_the_first host_platform
              (agreeable_tuning host_platform) HypreStructPCG
              (sample_layout 1) (sample_world host_platform sample_arrays)
              2 2 five_point five_point true false)
    as (s2 & Hrun & _).
  - intros log c. apply Z.le_refl.
  - discriminate.
  - vm_compute. congruence.
  - vm_compute. reflexivity.
  - vm_compute. reflexivity.
  - repeat constructor.
  - repeat constructor.
  - exists s2. split; [exact Hrun |].
    change (pcg_constructed HostSpace)
      with (@State host_platform pcg_object
              (@World host_platform pcg_calls sample_arrays)) in Hrun.
    vm_compute in Hrun. by injection Hrun as <-.
Defined.

Lemma rejected_construction_unwinds_witness :
  make_shared_unwinding (T := agreeable_tuning host_platform)
    HypreStructDiagonal (sample_layout 1) false
    (sample_world host_platform sample_arrays, [])
  = (Undefined,
     (@World host_platform (take 12 pcg_calls) sample_arrays,
      [ HYPRE_StructVectorDestroy (object 8);
        HYPRE_StructVectorDestroy (object 4) ])).
Proof.
  apply (rejected_construction_unwinds host_platform
           (agreeable_tuning host_platform) (sample_layout 1)
           (sample_world host_platform sample_arrays) []).
  intros log c. apply Z.le_refl.
Defined.
